(** * JewelTreeScene: interaction and animation state engine

    A shallow embedding of [src/components/JewelTreeScene.tsx], with the
    [AppState] enum and the React state that [App] hands to the component.

    What is modelled: the display mode and its mirror ref, the gesture chain
    of [predictWebcam] from the hand landmarks on, [triggerEpicSequence], the
    pointer handler [handleTouch], the control part of [animate] (star hold,
    epic timeline, shake decay) and the particle update
    [updateInstancedSystem].  The scene state of the handlers leaves out the
    collaborators they only write to: materials and colours, camera and
    group transforms, fireworks, ribbon, star, dust, photo meshes and the Web
    Audio graph (a melody is logged when it gets past its [soundEnabled]
    test).

    Of these, the ones with logic of their own are modelled in modules of
    their own, each function taking what it reads as arguments: the creation
    of the particles, the photo cards and the dust and the initialisation
    effect that calls them, the scan of the glyph clouds, the updates of
    photo cards, dust and fireworks in a frame, the writes to the camera
    distance and to the rotation of the main group, and the spiral of the
    ribbon.
    Functions that call [Math.random()] read their draws from a stream.

    Number model.  The control scalars of the component (hold timers, the
    epic timer, [Date.now()] stamps, shake intensity, hold progress, landmark
    coordinates) are JavaScript numbers and are kept as IEEE binary64 values
    ([float]), so that [victoryTimer += 0.1] rounds as it does in the
    browser.  Particle coordinates are taken over the real numbers: the
    properties studied for them are stated with Euclidean norms, and
    [Vector3.lerp], [distanceTo] and [normalize] are their exact
    counterparts; so are the positions of photo cards, dust and fireworks
    and the camera distance, while the life of a firework particle, counted
    down by 0.01, is binary64.  The draw of [Math.random()] is an exact
    rational in the gesture engine and a real number in the creation code.
    Where a bound on a coordinate computed over the reals would be met or
    missed by the last bit of the binary64 result, it is stated closed and
    with a margin of a millionth ([Creation.margin]).

    React.  A state setter takes effect at once in the model; the refs that
    mirror state are refreshed by the effect, after the handler has returned
    ([Engine.commit]). *)

From Stdlib Require Import Floats ZArith QArith Qround Reals Lra List Bool Lia Relations.
From Stdlib Require Import Permutation.
Import ListNotations.

Set Warnings "-inexact-float".

(** ** Shared types (App.tsx) *)

Inductive AppState := TREE | SCATTER | ZOOM.

Inductive InputMode := touch | camera.

Definition AppState_eqb (a b : AppState) : bool :=
match a, b with
| TREE, TREE | SCATTER, SCATTER | ZOOM, ZOOM => true
| _, _ => false
end.

(** ** three.js [Vector3], over the reals *)

Module Vec3.
Local Open Scope R_scope.

Record t := mk { x : R; y : R; z : R }.

Definition add (a v : t) : t := mk (x a + x v) (y a + y v) (z a + z v).

Definition sub (a v : t) : t := mk (x a - x v) (y a - y v) (z a - z v).

Definition multiplyScalar (a : t) (s : R) : t := mk (x a * s) (y a * s) (z a * s).

Definition divideScalar (a : t) (s : R) : t := multiplyScalar a (1 / s).

Definition length (a : t) : R := sqrt (x a * x a + y a * y a + z a * z a).

(** [this.divideScalar( this.length() || 1 )] *)
Definition normalize (a : t) : t :=
  divideScalar a (if Req_dec_T (length a) 0 then 1 else length a).

Definition distanceToSquared (a v : t) : R :=
  let dx := x a - x v in
  let dy := y a - y v in
  let dz := z a - z v in
  dx * dx + dy * dy + dz * dz.

Definition distanceTo (a v : t) : R := sqrt (distanceToSquared a v).

(** [this.x += ( v.x - this.x ) * alpha] and likewise for [y], [z]. *)
Definition lerp (a v : t) (alpha : R) : t :=
  mk (x a + (x v - x a) * alpha)
     (y a + (y v - y a) * alpha)
     (z a + (z v - z a) * alpha).
End Vec3.

(** ** Particle formation model: [updateInstancedSystem] *)

Module Particles.
Local Open Scope R_scope.

(** The [type] argument, one of the six literals of the call sites. *)
Inductive PType := gold | silver | gem | emerald | trunk | grass.

(** One entry of a [dataArray].  The arrays are typed [any[]], and the loop
    guards against a missing target, so the two formation positions are
    optional. *)
Record Item := {
  treePos : option Vec3.t;
  scatterPos : option Vec3.t;
  currentPos : Vec3.t;
  scale : R;
  rotSpeed : Vec3.t;
  rotation : Vec3.t
}.

(** [logicDataRef.current.textTargets] when it is not [null]. *)
Record TextTargets := { tt_gold : list Vec3.t; tt_silver : list Vec3.t }.

(** What the loop reads besides the item: the refs sampled at the top of
    [updateInstancedSystem] and the group's inverse world matrix. *)
Record Frame := {
  isEpic : bool;
  epicTime : float;
  repelPos : option Vec3.t;
  textTargets : option TextTargets;
  worldToLocal : Vec3.t -> Vec3.t
}.

(** What [mesh.setMatrixAt(i, dummy.matrix)] receives. *)
Record Transform := { t_position : Vec3.t; t_rotation : Vec3.t; t_scale : R }.

(** [isEpic && epicTime > 4.0 && epicTime < 16.0] *)
Definition formingText (f : Frame) : bool :=
  isEpic f && PrimFloat.ltb 4.0%float (epicTime f) && PrimFloat.ltb (epicTime f) 16.0%float.

Definition participatesInText (type : PType) : bool :=
  match type with gold | silver | gem => true | _ => false end.

(** The mode-selected position: [treePos] in TREE, [scatterPos] otherwise. *)
Definition modeTarget (state : AppState) (item : Item) : option Vec3.t :=
  let target := if AppState_eqb state TREE then treePos item else scatterPos item in
  if AppState_eqb state ZOOM then scatterPos item else target.

(** [arr[i % arr.length]] for a non-empty array. *)
Definition cycle (arr : list Vec3.t) (i : nat) : option Vec3.t :=
  nth_error arr (i mod List.length arr).

(** The value of [target] before the guard. *)
Definition resolveTarget (f : Frame) (state : AppState) (type : PType)
    (i : nat) (item : Item) : option Vec3.t :=
  let target := modeTarget state item in
  match textTargets f with
  | Some clouds =>
      if formingText f && participatesInText type then
        match type with
        | gold =>
            if (0 <? List.length (tt_gold clouds))%nat then cycle (tt_gold clouds) i else target
        | silver | gem =>
            if (0 <? List.length (tt_silver clouds))%nat then cycle (tt_silver clouds) i else target
        | _ => target
        end
      else target
  | None => target
  end.

(** After [if (!target) target = item.currentPos] the variable holds either
    a vector of its own or the very object [item.currentPos]: later writes
    to [currentPos] are then seen through [target]. *)
Inductive TargetRef := Own (v : Vec3.t) | SameAsCurrent.

Definition guardTarget (target : option Vec3.t) : TargetRef :=
  match target with Some v => Own v | None => SameAsCurrent end.

(** The vector a reference denotes when [currentPos] is [cur]. *)
Definition deref (r : TargetRef) (cur : Vec3.t) : Vec3.t :=
  match r with Own v => v | SameAsCurrent => cur end.

(** The repulsion point in the group's frame, when the nudge applies: a point
    is set, the mode is TREE, no epic sequence runs, and the particle is
    closer than 18 units to it. *)
Definition repelledFrom (f : Frame) (state : AppState) (cur : Vec3.t) : option Vec3.t :=
  match repelPos f with
  | Some p =>
      if AppState_eqb state TREE && negb (isEpic f) then
        let localRepel := worldToLocal f p in
        if Rlt_dec (Vec3.distanceTo cur localRepel) 18 then Some localRepel else None
      else None
  | None => None
  end.

(** The repulsion nudge applied to [item.currentPos]. *)
Definition repel (f : Frame) (state : AppState) (cur : Vec3.t) : Vec3.t :=
  match repelledFrom f state cur with
  | Some localRepel =>
      let pushDir := Vec3.normalize (Vec3.sub cur localRepel) in
      Vec3.add cur (Vec3.multiplyScalar pushDir (2 / 10))
  | None => cur
  end.

Definition speed (f : Frame) : R := if formingText f then 8 / 100 else 5 / 100.

(** [item.currentPos.lerp(target, speed)], the reference read at that time. *)
Definition ease (f : Frame) (target : TargetRef) (cur : Vec3.t) : Vec3.t :=
  Vec3.lerp cur (deref target cur) (speed f).

Definition renderScale (f : Frame) (state : AppState) (item : Item) : R :=
  let s := scale item in
  let s := if AppState_eqb state ZOOM then s * (5 / 10) else s in
  if formingText f then s * (8 / 10) else s.

(** One iteration of the loop body: the item as it is left, and the matrix
    written at index [i]. *)
Definition updateItem (f : Frame) (state : AppState) (type : PType)
    (i : nat) (item : Item) : Item * Transform :=
  let target := guardTarget (resolveTarget f state type i item) in
  let nudged := repel f state (currentPos item) in
  let pos := ease f target nudged in
  let rot := Vec3.mk (Vec3.x (rotation item) + Vec3.x (rotSpeed item))
                     (Vec3.y (rotation item) + Vec3.y (rotSpeed item))
                     (Vec3.z (rotation item)) in
  ({| treePos := treePos item; scatterPos := scatterPos item;
      currentPos := pos; scale := scale item;
      rotSpeed := rotSpeed item; rotation := rot |},
   {| t_position := pos; t_rotation := rot; t_scale := renderScale f state item |}).

Fixpoint updateLoop (f : Frame) (state : AppState) (type : PType)
    (i : nat) (dataArray : list Item) : list (Item * Transform) :=
  match dataArray with
  | [] => []
  | item :: rest => updateItem f state type i item :: updateLoop f state type (S i) rest
  end.

(** [updateInstancedSystem(dataArray, group, state, type)]: the array after
    the call and the instance matrices written; nothing happens when the
    group has no mesh of that name. *)
Definition updateInstancedSystem (hasMesh : bool) (f : Frame) (state : AppState)
    (type : PType) (dataArray : list Item) : list Item * option (list Transform) :=
  if hasMesh then
    let r := updateLoop f state type 0 dataArray in
    (map fst r, Some (map snd r))
  else (dataArray, None).
(** The cloud a group draws its glyph points from: gold from [gold], silver
    and gem from [silver], the others from none. *)
Definition glyphCloud (type : PType) (clouds : TextTargets) : option (list Vec3.t) :=
  match type with
  | gold => Some (tt_gold clouds)
  | silver | gem => Some (tt_silver clouds)
  | _ => None
  end.

(** The text-formation interval as the specification words it: elapsed time
    in [[4, 16)], closed at 4. *)
Definition spec_textInterval (f : Frame) : bool :=
  isEpic f && PrimFloat.leb 4.0%float (epicTime f) && PrimFloat.ltb (epicTime f) 16.0%float.

(** The particle arrays and glyph clouds of [logicDataRef.current]. *)
Record LogicData := {
  ld_gold : list Item;
  ld_silver : list Item;
  ld_gem : list Item;
  ld_emerald : list Item;
  ld_trunk : list Item;
  ld_grass : list Item;
  ld_textTargets : option TextTargets
}.
End Particles.

(** ** Hand landmarks and the gesture predicates of [predictWebcam] *)

Module Hand.
Local Open Scope float_scope.

Record Landmark := { lx : float; ly : float; lz : float }.

(** [result.landmarks[0]]: the key points of one hand, 21 of them when the
    model reports a hand. *)
Definition Landmarks := list Landmark.

Definition origin : Landmark := {| lx := 0; ly := 0; lz := 0 |}.

(** [landmarks[i]], read only once the array is known to hold it. *)
Definition at_ (landmarks : Landmarks) (i : nat) : Landmark := nth i landmarks origin.

Definition dist (landmarks : Landmarks) (i1 i2 : nat) : float :=
  let dx := lx (at_ landmarks i1) - lx (at_ landmarks i2) in
  let dy := ly (at_ landmarks i1) - ly (at_ landmarks i2) in
  let dz := lz (at_ landmarks i1) - lz (at_ landmarks i2) in
  PrimFloat.sqrt (dx * dx + dy * dy + dz * dz).

(** [dist(0, tip) > dist(0, pip) * 1.1] *)
Definition isExt (landmarks : Landmarks) (tip pip : nat) : bool :=
  PrimFloat.ltb (dist landmarks 0 pip * 1.1) (dist landmarks 0 tip).

Definition thumbOpen (l : Landmarks) : bool := isExt l 4 2.
Definition indexOpen (l : Landmarks) : bool := isExt l 8 6.
Definition midOpen (l : Landmarks) : bool := isExt l 12 10.
Definition ringOpen (l : Landmarks) : bool := isExt l 16 14.
Definition pinkyOpen (l : Landmarks) : bool := isExt l 20 18.

Definition extendedCount (l : Landmarks) : nat :=
  ((if thumbOpen l then 1 else 0) + (if indexOpen l then 1 else 0)
   + (if midOpen l then 1 else 0) + (if ringOpen l then 1 else 0)
   + (if pinkyOpen l then 1 else 0))%nat.

Definition isFist (l : Landmarks) : bool :=
  negb (indexOpen l) && negb (midOpen l) && negb (ringOpen l) && negb (pinkyOpen l).

Definition isOpen (l : Landmarks) : bool := (extendedCount l =? 5)%nat.

Definition isPointing (l : Landmarks) : bool :=
  indexOpen l && negb (midOpen l) && negb (ringOpen l) && negb (pinkyOpen l).

Definition isVictory (l : Landmarks) : bool :=
  indexOpen l && midOpen l && negb (ringOpen l) && negb (pinkyOpen l).

Definition isThreeFinger (l : Landmarks) : bool :=
  indexOpen l && midOpen l && ringOpen l && negb (pinkyOpen l).

Definition pinchDist (l : Landmarks) : float := dist l 4 8.

Definition isPinch (l : Landmarks) : bool := PrimFloat.ltb (pinchDist l) 0.05.

(** The branch of the [if / else if] chain a hand falls into. *)
Inductive Branch := Fist | Open | Pinch | Victory | ThreeFinger | Tracing.

Definition branch (l : Landmarks) : Branch :=
  if isFist l then Fist
  else if isOpen l then Open
  else if isPinch l then Pinch
  else if isVictory l then Victory
  else if isThreeFinger l then ThreeFinger
  else Tracing.
End Hand.

(** ** The component's state: React state of [App], sinks, and refs *)

Module Scene.
Local Open Scope float_scope.

(** The three melodies, logged when they get past the [soundEnabled] test. *)
Inductive Cue := BellSound | JingleBells | WeWishYou.

(** The tail appended to the [status] string by the gesture chain.  The two
    hold gestures print [Math.floor] of the timer they carry, read before the
    increment. *)
Inductive Label :=
| LFist                       (* "✊ Fist (Spin)" *)
| LOpen                       (* "🖐 Open (Scatter)" *)
| LPinch                      (* "👌 Pinch (Select)" *)
| LVictory (timer : float)    (* "✌️ Victory (<floor timer>s)" *)
| LGold (timer : float)       (* "🤟 Gold (<floor timer>s)" *)
| LTracing.                   (* "Tracing..." *)

(** Arguments of [setStatusText]. *)
Inductive Status :=
| StatusAI (pointing : bool) (label : Label)
    (* the composed [status]: "AI: ", then "☝️ Point (Zoom)" if pointing, then the label *)
| StatusRandomPhoto           (* "AI: 🎁 随机展示照片!" *)
| StatusNoPhotos              (* the warning "AI: ⚠️ 空空如也 (请先插入照片)" *)
| StatusSearching             (* "AI: 寻找手掌..." *)
| StatusMerryChristmas        (* "🌟 圣诞快乐! 🌟" *)
| StatusMode (s : AppState)   (* touch mode: "状态：圣诞树 ...", "状态：星云球壳 ...", "状态：照片详情" *)
| StatusPhotosAdded (n : nat). (* "已添加照片 (n)" *)

(** [gestureStateRef.current] *)
Record GestureState := {
  isPinching : bool;
  victoryTimer : float;
  threeTimer : float
}.

(** The fields of [interactionRef.current] that decide a tap. *)
Record InteractionState := {
  touches : nat;
  startPositions : nat;      (* startPositions.length *)
  startTime : float;
  lastTapTime : float
}.

Record t := {
  (* React state owned by App, and the sinks *)
  appState : AppState;
  blessingCount : nat;
  holdProgress : float;
  statusLog : list Status;   (* calls of setStatusText, latest first *)
  audioLog : list Cue;       (* melodies started, latest first *)
  (* mirrors written by the first effect *)
  appStateRef : AppState;
  soundEnabled : bool;
  inputModeRef : InputMode;
  (* refs *)
  photoMeshes : nat;         (* photoMeshesRef.current.length *)
  zoomTargetIndex : Z;
  isGoldMode : bool;
  goldModeTimer : float;
  shakeIntensity : float;
  isEpicSequence : bool;
  epicTimer : float;
  isHoldingStar : bool;
  starHoldStartTime : float;
  hasTriggeredEpic : bool;
  rainbowStarMode : bool;
  interaction : InteractionState;
  repulsionPoint : option Vec3.t;
  lastPredictionTime : float;
  lastVideoTime : float;
  gestureState : GestureState;
  logicData : Particles.LogicData
}.

(** The refs and state as the component declares them, with the particle
    arrays and glyph clouds built by the initialisation effect. *)
Definition initial (data : Particles.LogicData) : t := {|
  appState := TREE; blessingCount := 0; holdProgress := 0;
  statusLog := []; audioLog := [];
  appStateRef := TREE; soundEnabled := true; inputModeRef := touch;
  photoMeshes := 0; zoomTargetIndex := (-1)%Z;
  isGoldMode := false; goldModeTimer := 0; shakeIntensity := 0;
  isEpicSequence := false; epicTimer := 0;
  isHoldingStar := false; starHoldStartTime := 0;
  hasTriggeredEpic := false; rainbowStarMode := false;
  interaction := {| touches := 0; startPositions := 0; startTime := 0; lastTapTime := 0 |};
  repulsionPoint := None;
  lastPredictionTime := 0; lastVideoTime := (-1);
  gestureState := {| isPinching := false; victoryTimer := 0; threeTimer := 0 |};
  logicData := data
|}.

(** *** Field updates *)

Definition setAppState (v : AppState) (s : t) : t :=
  {| appState := v; blessingCount := blessingCount s; holdProgress := holdProgress s;
     statusLog := statusLog s; audioLog := audioLog s; appStateRef := appStateRef s;
     soundEnabled := soundEnabled s; inputModeRef := inputModeRef s;
     photoMeshes := photoMeshes s; zoomTargetIndex := zoomTargetIndex s;
     isGoldMode := isGoldMode s; goldModeTimer := goldModeTimer s;
     shakeIntensity := shakeIntensity s; isEpicSequence := isEpicSequence s;
     epicTimer := epicTimer s; isHoldingStar := isHoldingStar s;
     starHoldStartTime := starHoldStartTime s; hasTriggeredEpic := hasTriggeredEpic s;
     rainbowStarMode := rainbowStarMode s; interaction := interaction s;
     repulsionPoint := repulsionPoint s; lastPredictionTime := lastPredictionTime s;
     lastVideoTime := lastVideoTime s; gestureState := gestureState s;
     logicData := logicData s |}.

Definition setBlessingCount (f : nat -> nat) (s : t) : t :=
  {| appState := appState s; blessingCount := f (blessingCount s);
     holdProgress := holdProgress s; statusLog := statusLog s; audioLog := audioLog s;
     appStateRef := appStateRef s; soundEnabled := soundEnabled s;
     inputModeRef := inputModeRef s; photoMeshes := photoMeshes s;
     zoomTargetIndex := zoomTargetIndex s; isGoldMode := isGoldMode s;
     goldModeTimer := goldModeTimer s; shakeIntensity := shakeIntensity s;
     isEpicSequence := isEpicSequence s; epicTimer := epicTimer s;
     isHoldingStar := isHoldingStar s; starHoldStartTime := starHoldStartTime s;
     hasTriggeredEpic := hasTriggeredEpic s; rainbowStarMode := rainbowStarMode s;
     interaction := interaction s; repulsionPoint := repulsionPoint s;
     lastPredictionTime := lastPredictionTime s; lastVideoTime := lastVideoTime s;
     gestureState := gestureState s; logicData := logicData s |}.

Definition setHoldProgress (v : float) (s : t) : t :=
  {| appState := appState s; blessingCount := blessingCount s; holdProgress := v;
     statusLog := statusLog s; audioLog := audioLog s; appStateRef := appStateRef s;
     soundEnabled := soundEnabled s; inputModeRef := inputModeRef s;
     photoMeshes := photoMeshes s; zoomTargetIndex := zoomTargetIndex s;
     isGoldMode := isGoldMode s; goldModeTimer := goldModeTimer s;
     shakeIntensity := shakeIntensity s; isEpicSequence := isEpicSequence s;
     epicTimer := epicTimer s; isHoldingStar := isHoldingStar s;
     starHoldStartTime := starHoldStartTime s; hasTriggeredEpic := hasTriggeredEpic s;
     rainbowStarMode := rainbowStarMode s; interaction := interaction s;
     repulsionPoint := repulsionPoint s; lastPredictionTime := lastPredictionTime s;
     lastVideoTime := lastVideoTime s; gestureState := gestureState s;
     logicData := logicData s |}.

Definition setStatusText (v : Status) (s : t) : t :=
  {| appState := appState s; blessingCount := blessingCount s; holdProgress := holdProgress s;
     statusLog := v :: statusLog s; audioLog := audioLog s; appStateRef := appStateRef s;
     soundEnabled := soundEnabled s; inputModeRef := inputModeRef s;
     photoMeshes := photoMeshes s; zoomTargetIndex := zoomTargetIndex s;
     isGoldMode := isGoldMode s; goldModeTimer := goldModeTimer s;
     shakeIntensity := shakeIntensity s; isEpicSequence := isEpicSequence s;
     epicTimer := epicTimer s; isHoldingStar := isHoldingStar s;
     starHoldStartTime := starHoldStartTime s; hasTriggeredEpic := hasTriggeredEpic s;
     rainbowStarMode := rainbowStarMode s; interaction := interaction s;
     repulsionPoint := repulsionPoint s; lastPredictionTime := lastPredictionTime s;
     lastVideoTime := lastVideoTime s; gestureState := gestureState s;
     logicData := logicData s |}.

Definition logCue (v : Cue) (s : t) : t :=
  {| appState := appState s; blessingCount := blessingCount s; holdProgress := holdProgress s;
     statusLog := statusLog s; audioLog := v :: audioLog s; appStateRef := appStateRef s;
     soundEnabled := soundEnabled s; inputModeRef := inputModeRef s;
     photoMeshes := photoMeshes s; zoomTargetIndex := zoomTargetIndex s;
     isGoldMode := isGoldMode s; goldModeTimer := goldModeTimer s;
     shakeIntensity := shakeIntensity s; isEpicSequence := isEpicSequence s;
     epicTimer := epicTimer s; isHoldingStar := isHoldingStar s;
     starHoldStartTime := starHoldStartTime s; hasTriggeredEpic := hasTriggeredEpic s;
     rainbowStarMode := rainbowStarMode s; interaction := interaction s;
     repulsionPoint := repulsionPoint s; lastPredictionTime := lastPredictionTime s;
     lastVideoTime := lastVideoTime s; gestureState := gestureState s;
     logicData := logicData s |}.

Definition set_appStateRef (v : AppState) (s : t) : t :=
  {| appState := appState s; blessingCount := blessingCount s; holdProgress := holdProgress s;
     statusLog := statusLog s; audioLog := audioLog s; appStateRef := v;
     soundEnabled := soundEnabled s; inputModeRef := inputModeRef s;
     photoMeshes := photoMeshes s; zoomTargetIndex := zoomTargetIndex s;
     isGoldMode := isGoldMode s; goldModeTimer := goldModeTimer s;
     shakeIntensity := shakeIntensity s; isEpicSequence := isEpicSequence s;
     epicTimer := epicTimer s; isHoldingStar := isHoldingStar s;
     starHoldStartTime := starHoldStartTime s; hasTriggeredEpic := hasTriggeredEpic s;
     rainbowStarMode := rainbowStarMode s; interaction := interaction s;
     repulsionPoint := repulsionPoint s; lastPredictionTime := lastPredictionTime s;
     lastVideoTime := lastVideoTime s; gestureState := gestureState s;
     logicData := logicData s |}.

Definition set_soundEnabled (v : bool) (s : t) : t :=
  {| appState := appState s; blessingCount := blessingCount s; holdProgress := holdProgress s;
     statusLog := statusLog s; audioLog := audioLog s; appStateRef := appStateRef s;
     soundEnabled := v; inputModeRef := inputModeRef s; photoMeshes := photoMeshes s;
     zoomTargetIndex := zoomTargetIndex s; isGoldMode := isGoldMode s;
     goldModeTimer := goldModeTimer s; shakeIntensity := shakeIntensity s;
     isEpicSequence := isEpicSequence s; epicTimer := epicTimer s;
     isHoldingStar := isHoldingStar s; starHoldStartTime := starHoldStartTime s;
     hasTriggeredEpic := hasTriggeredEpic s; rainbowStarMode := rainbowStarMode s;
     interaction := interaction s; repulsionPoint := repulsionPoint s;
     lastPredictionTime := lastPredictionTime s; lastVideoTime := lastVideoTime s;
     gestureState := gestureState s; logicData := logicData s |}.

Definition set_inputModeRef (v : InputMode) (s : t) : t :=
  {| appState := appState s; blessingCount := blessingCount s; holdProgress := holdProgress s;
     statusLog := statusLog s; audioLog := audioLog s; appStateRef := appStateRef s;
     soundEnabled := soundEnabled s; inputModeRef := v; photoMeshes := photoMeshes s;
     zoomTargetIndex := zoomTargetIndex s; isGoldMode := isGoldMode s;
     goldModeTimer := goldModeTimer s; shakeIntensity := shakeIntensity s;
     isEpicSequence := isEpicSequence s; epicTimer := epicTimer s;
     isHoldingStar := isHoldingStar s; starHoldStartTime := starHoldStartTime s;
     hasTriggeredEpic := hasTriggeredEpic s; rainbowStarMode := rainbowStarMode s;
     interaction := interaction s; repulsionPoint := repulsionPoint s;
     lastPredictionTime := lastPredictionTime s; lastVideoTime := lastVideoTime s;
     gestureState := gestureState s; logicData := logicData s |}.

Definition set_photoMeshes (v : nat) (s : t) : t :=
  {| appState := appState s; blessingCount := blessingCount s; holdProgress := holdProgress s;
     statusLog := statusLog s; audioLog := audioLog s; appStateRef := appStateRef s;
     soundEnabled := soundEnabled s; inputModeRef := inputModeRef s; photoMeshes := v;
     zoomTargetIndex := zoomTargetIndex s; isGoldMode := isGoldMode s;
     goldModeTimer := goldModeTimer s; shakeIntensity := shakeIntensity s;
     isEpicSequence := isEpicSequence s; epicTimer := epicTimer s;
     isHoldingStar := isHoldingStar s; starHoldStartTime := starHoldStartTime s;
     hasTriggeredEpic := hasTriggeredEpic s; rainbowStarMode := rainbowStarMode s;
     interaction := interaction s; repulsionPoint := repulsionPoint s;
     lastPredictionTime := lastPredictionTime s; lastVideoTime := lastVideoTime s;
     gestureState := gestureState s; logicData := logicData s |}.

Definition set_zoomTargetIndex (v : Z) (s : t) : t :=
  {| appState := appState s; blessingCount := blessingCount s; holdProgress := holdProgress s;
     statusLog := statusLog s; audioLog := audioLog s; appStateRef := appStateRef s;
     soundEnabled := soundEnabled s; inputModeRef := inputModeRef s;
     photoMeshes := photoMeshes s; zoomTargetIndex := v; isGoldMode := isGoldMode s;
     goldModeTimer := goldModeTimer s; shakeIntensity := shakeIntensity s;
     isEpicSequence := isEpicSequence s; epicTimer := epicTimer s;
     isHoldingStar := isHoldingStar s; starHoldStartTime := starHoldStartTime s;
     hasTriggeredEpic := hasTriggeredEpic s; rainbowStarMode := rainbowStarMode s;
     interaction := interaction s; repulsionPoint := repulsionPoint s;
     lastPredictionTime := lastPredictionTime s; lastVideoTime := lastVideoTime s;
     gestureState := gestureState s; logicData := logicData s |}.

Definition set_isGoldMode (v : bool) (s : t) : t :=
  {| appState := appState s; blessingCount := blessingCount s; holdProgress := holdProgress s;
     statusLog := statusLog s; audioLog := audioLog s; appStateRef := appStateRef s;
     soundEnabled := soundEnabled s; inputModeRef := inputModeRef s;
     photoMeshes := photoMeshes s; zoomTargetIndex := zoomTargetIndex s; isGoldMode := v;
     goldModeTimer := goldModeTimer s; shakeIntensity := shakeIntensity s;
     isEpicSequence := isEpicSequence s; epicTimer := epicTimer s;
     isHoldingStar := isHoldingStar s; starHoldStartTime := starHoldStartTime s;
     hasTriggeredEpic := hasTriggeredEpic s; rainbowStarMode := rainbowStarMode s;
     interaction := interaction s; repulsionPoint := repulsionPoint s;
     lastPredictionTime := lastPredictionTime s; lastVideoTime := lastVideoTime s;
     gestureState := gestureState s; logicData := logicData s |}.

Definition set_goldModeTimer (v : float) (s : t) : t :=
  {| appState := appState s; blessingCount := blessingCount s; holdProgress := holdProgress s;
     statusLog := statusLog s; audioLog := audioLog s; appStateRef := appStateRef s;
     soundEnabled := soundEnabled s; inputModeRef := inputModeRef s;
     photoMeshes := photoMeshes s; zoomTargetIndex := zoomTargetIndex s;
     isGoldMode := isGoldMode s; goldModeTimer := v; shakeIntensity := shakeIntensity s;
     isEpicSequence := isEpicSequence s; epicTimer := epicTimer s;
     isHoldingStar := isHoldingStar s; starHoldStartTime := starHoldStartTime s;
     hasTriggeredEpic := hasTriggeredEpic s; rainbowStarMode := rainbowStarMode s;
     interaction := interaction s; repulsionPoint := repulsionPoint s;
     lastPredictionTime := lastPredictionTime s; lastVideoTime := lastVideoTime s;
     gestureState := gestureState s; logicData := logicData s |}.

Definition set_shakeIntensity (v : float) (s : t) : t :=
  {| appState := appState s; blessingCount := blessingCount s; holdProgress := holdProgress s;
     statusLog := statusLog s; audioLog := audioLog s; appStateRef := appStateRef s;
     soundEnabled := soundEnabled s; inputModeRef := inputModeRef s;
     photoMeshes := photoMeshes s; zoomTargetIndex := zoomTargetIndex s;
     isGoldMode := isGoldMode s; goldModeTimer := goldModeTimer s; shakeIntensity := v;
     isEpicSequence := isEpicSequence s; epicTimer := epicTimer s;
     isHoldingStar := isHoldingStar s; starHoldStartTime := starHoldStartTime s;
     hasTriggeredEpic := hasTriggeredEpic s; rainbowStarMode := rainbowStarMode s;
     interaction := interaction s; repulsionPoint := repulsionPoint s;
     lastPredictionTime := lastPredictionTime s; lastVideoTime := lastVideoTime s;
     gestureState := gestureState s; logicData := logicData s |}.

Definition set_isEpicSequence (v : bool) (s : t) : t :=
  {| appState := appState s; blessingCount := blessingCount s; holdProgress := holdProgress s;
     statusLog := statusLog s; audioLog := audioLog s; appStateRef := appStateRef s;
     soundEnabled := soundEnabled s; inputModeRef := inputModeRef s;
     photoMeshes := photoMeshes s; zoomTargetIndex := zoomTargetIndex s;
     isGoldMode := isGoldMode s; goldModeTimer := goldModeTimer s;
     shakeIntensity := shakeIntensity s; isEpicSequence := v; epicTimer := epicTimer s;
     isHoldingStar := isHoldingStar s; starHoldStartTime := starHoldStartTime s;
     hasTriggeredEpic := hasTriggeredEpic s; rainbowStarMode := rainbowStarMode s;
     interaction := interaction s; repulsionPoint := repulsionPoint s;
     lastPredictionTime := lastPredictionTime s; lastVideoTime := lastVideoTime s;
     gestureState := gestureState s; logicData := logicData s |}.

Definition set_epicTimer (v : float) (s : t) : t :=
  {| appState := appState s; blessingCount := blessingCount s; holdProgress := holdProgress s;
     statusLog := statusLog s; audioLog := audioLog s; appStateRef := appStateRef s;
     soundEnabled := soundEnabled s; inputModeRef := inputModeRef s;
     photoMeshes := photoMeshes s; zoomTargetIndex := zoomTargetIndex s;
     isGoldMode := isGoldMode s; goldModeTimer := goldModeTimer s;
     shakeIntensity := shakeIntensity s; isEpicSequence := isEpicSequence s; epicTimer := v;
     isHoldingStar := isHoldingStar s; starHoldStartTime := starHoldStartTime s;
     hasTriggeredEpic := hasTriggeredEpic s; rainbowStarMode := rainbowStarMode s;
     interaction := interaction s; repulsionPoint := repulsionPoint s;
     lastPredictionTime := lastPredictionTime s; lastVideoTime := lastVideoTime s;
     gestureState := gestureState s; logicData := logicData s |}.

Definition set_isHoldingStar (v : bool) (s : t) : t :=
  {| appState := appState s; blessingCount := blessingCount s; holdProgress := holdProgress s;
     statusLog := statusLog s; audioLog := audioLog s; appStateRef := appStateRef s;
     soundEnabled := soundEnabled s; inputModeRef := inputModeRef s;
     photoMeshes := photoMeshes s; zoomTargetIndex := zoomTargetIndex s;
     isGoldMode := isGoldMode s; goldModeTimer := goldModeTimer s;
     shakeIntensity := shakeIntensity s; isEpicSequence := isEpicSequence s;
     epicTimer := epicTimer s; isHoldingStar := v; starHoldStartTime := starHoldStartTime s;
     hasTriggeredEpic := hasTriggeredEpic s; rainbowStarMode := rainbowStarMode s;
     interaction := interaction s; repulsionPoint := repulsionPoint s;
     lastPredictionTime := lastPredictionTime s; lastVideoTime := lastVideoTime s;
     gestureState := gestureState s; logicData := logicData s |}.

Definition set_starHoldStartTime (v : float) (s : t) : t :=
  {| appState := appState s; blessingCount := blessingCount s; holdProgress := holdProgress s;
     statusLog := statusLog s; audioLog := audioLog s; appStateRef := appStateRef s;
     soundEnabled := soundEnabled s; inputModeRef := inputModeRef s;
     photoMeshes := photoMeshes s; zoomTargetIndex := zoomTargetIndex s;
     isGoldMode := isGoldMode s; goldModeTimer := goldModeTimer s;
     shakeIntensity := shakeIntensity s; isEpicSequence := isEpicSequence s;
     epicTimer := epicTimer s; isHoldingStar := isHoldingStar s; starHoldStartTime := v;
     hasTriggeredEpic := hasTriggeredEpic s; rainbowStarMode := rainbowStarMode s;
     interaction := interaction s; repulsionPoint := repulsionPoint s;
     lastPredictionTime := lastPredictionTime s; lastVideoTime := lastVideoTime s;
     gestureState := gestureState s; logicData := logicData s |}.

Definition set_hasTriggeredEpic (v : bool) (s : t) : t :=
  {| appState := appState s; blessingCount := blessingCount s; holdProgress := holdProgress s;
     statusLog := statusLog s; audioLog := audioLog s; appStateRef := appStateRef s;
     soundEnabled := soundEnabled s; inputModeRef := inputModeRef s;
     photoMeshes := photoMeshes s; zoomTargetIndex := zoomTargetIndex s;
     isGoldMode := isGoldMode s; goldModeTimer := goldModeTimer s;
     shakeIntensity := shakeIntensity s; isEpicSequence := isEpicSequence s;
     epicTimer := epicTimer s; isHoldingStar := isHoldingStar s;
     starHoldStartTime := starHoldStartTime s; hasTriggeredEpic := v;
     rainbowStarMode := rainbowStarMode s; interaction := interaction s;
     repulsionPoint := repulsionPoint s; lastPredictionTime := lastPredictionTime s;
     lastVideoTime := lastVideoTime s; gestureState := gestureState s;
     logicData := logicData s |}.

Definition set_rainbowStarMode (v : bool) (s : t) : t :=
  {| appState := appState s; blessingCount := blessingCount s; holdProgress := holdProgress s;
     statusLog := statusLog s; audioLog := audioLog s; appStateRef := appStateRef s;
     soundEnabled := soundEnabled s; inputModeRef := inputModeRef s;
     photoMeshes := photoMeshes s; zoomTargetIndex := zoomTargetIndex s;
     isGoldMode := isGoldMode s; goldModeTimer := goldModeTimer s;
     shakeIntensity := shakeIntensity s; isEpicSequence := isEpicSequence s;
     epicTimer := epicTimer s; isHoldingStar := isHoldingStar s;
     starHoldStartTime := starHoldStartTime s; hasTriggeredEpic := hasTriggeredEpic s;
     rainbowStarMode := v; interaction := interaction s; repulsionPoint := repulsionPoint s;
     lastPredictionTime := lastPredictionTime s; lastVideoTime := lastVideoTime s;
     gestureState := gestureState s; logicData := logicData s |}.

Definition set_interaction (v : InteractionState) (s : t) : t :=
  {| appState := appState s; blessingCount := blessingCount s; holdProgress := holdProgress s;
     statusLog := statusLog s; audioLog := audioLog s; appStateRef := appStateRef s;
     soundEnabled := soundEnabled s; inputModeRef := inputModeRef s;
     photoMeshes := photoMeshes s; zoomTargetIndex := zoomTargetIndex s;
     isGoldMode := isGoldMode s; goldModeTimer := goldModeTimer s;
     shakeIntensity := shakeIntensity s; isEpicSequence := isEpicSequence s;
     epicTimer := epicTimer s; isHoldingStar := isHoldingStar s;
     starHoldStartTime := starHoldStartTime s; hasTriggeredEpic := hasTriggeredEpic s;
     rainbowStarMode := rainbowStarMode s; interaction := v;
     repulsionPoint := repulsionPoint s; lastPredictionTime := lastPredictionTime s;
     lastVideoTime := lastVideoTime s; gestureState := gestureState s;
     logicData := logicData s |}.

Definition set_repulsionPoint (v : option Vec3.t) (s : t) : t :=
  {| appState := appState s; blessingCount := blessingCount s; holdProgress := holdProgress s;
     statusLog := statusLog s; audioLog := audioLog s; appStateRef := appStateRef s;
     soundEnabled := soundEnabled s; inputModeRef := inputModeRef s;
     photoMeshes := photoMeshes s; zoomTargetIndex := zoomTargetIndex s;
     isGoldMode := isGoldMode s; goldModeTimer := goldModeTimer s;
     shakeIntensity := shakeIntensity s; isEpicSequence := isEpicSequence s;
     epicTimer := epicTimer s; isHoldingStar := isHoldingStar s;
     starHoldStartTime := starHoldStartTime s; hasTriggeredEpic := hasTriggeredEpic s;
     rainbowStarMode := rainbowStarMode s; interaction := interaction s; repulsionPoint := v;
     lastPredictionTime := lastPredictionTime s; lastVideoTime := lastVideoTime s;
     gestureState := gestureState s; logicData := logicData s |}.

Definition set_lastPredictionTime (v : float) (s : t) : t :=
  {| appState := appState s; blessingCount := blessingCount s; holdProgress := holdProgress s;
     statusLog := statusLog s; audioLog := audioLog s; appStateRef := appStateRef s;
     soundEnabled := soundEnabled s; inputModeRef := inputModeRef s;
     photoMeshes := photoMeshes s; zoomTargetIndex := zoomTargetIndex s;
     isGoldMode := isGoldMode s; goldModeTimer := goldModeTimer s;
     shakeIntensity := shakeIntensity s; isEpicSequence := isEpicSequence s;
     epicTimer := epicTimer s; isHoldingStar := isHoldingStar s;
     starHoldStartTime := starHoldStartTime s; hasTriggeredEpic := hasTriggeredEpic s;
     rainbowStarMode := rainbowStarMode s; interaction := interaction s;
     repulsionPoint := repulsionPoint s; lastPredictionTime := v;
     lastVideoTime := lastVideoTime s; gestureState := gestureState s;
     logicData := logicData s |}.

Definition set_lastVideoTime (v : float) (s : t) : t :=
  {| appState := appState s; blessingCount := blessingCount s; holdProgress := holdProgress s;
     statusLog := statusLog s; audioLog := audioLog s; appStateRef := appStateRef s;
     soundEnabled := soundEnabled s; inputModeRef := inputModeRef s;
     photoMeshes := photoMeshes s; zoomTargetIndex := zoomTargetIndex s;
     isGoldMode := isGoldMode s; goldModeTimer := goldModeTimer s;
     shakeIntensity := shakeIntensity s; isEpicSequence := isEpicSequence s;
     epicTimer := epicTimer s; isHoldingStar := isHoldingStar s;
     starHoldStartTime := starHoldStartTime s; hasTriggeredEpic := hasTriggeredEpic s;
     rainbowStarMode := rainbowStarMode s; interaction := interaction s;
     repulsionPoint := repulsionPoint s; lastPredictionTime := lastPredictionTime s;
     lastVideoTime := v; gestureState := gestureState s; logicData := logicData s |}.

Definition set_gestureState (v : GestureState) (s : t) : t :=
  {| appState := appState s; blessingCount := blessingCount s; holdProgress := holdProgress s;
     statusLog := statusLog s; audioLog := audioLog s; appStateRef := appStateRef s;
     soundEnabled := soundEnabled s; inputModeRef := inputModeRef s;
     photoMeshes := photoMeshes s; zoomTargetIndex := zoomTargetIndex s;
     isGoldMode := isGoldMode s; goldModeTimer := goldModeTimer s;
     shakeIntensity := shakeIntensity s; isEpicSequence := isEpicSequence s;
     epicTimer := epicTimer s; isHoldingStar := isHoldingStar s;
     starHoldStartTime := starHoldStartTime s; hasTriggeredEpic := hasTriggeredEpic s;
     rainbowStarMode := rainbowStarMode s; interaction := interaction s;
     repulsionPoint := repulsionPoint s; lastPredictionTime := lastPredictionTime s;
     lastVideoTime := lastVideoTime s; gestureState := v; logicData := logicData s |}.

Definition set_logicData (v : Particles.LogicData) (s : t) : t :=
  {| appState := appState s; blessingCount := blessingCount s; holdProgress := holdProgress s;
     statusLog := statusLog s; audioLog := audioLog s; appStateRef := appStateRef s;
     soundEnabled := soundEnabled s; inputModeRef := inputModeRef s;
     photoMeshes := photoMeshes s; zoomTargetIndex := zoomTargetIndex s;
     isGoldMode := isGoldMode s; goldModeTimer := goldModeTimer s;
     shakeIntensity := shakeIntensity s; isEpicSequence := isEpicSequence s;
     epicTimer := epicTimer s; isHoldingStar := isHoldingStar s;
     starHoldStartTime := starHoldStartTime s; hasTriggeredEpic := hasTriggeredEpic s;
     rainbowStarMode := rainbowStarMode s; interaction := interaction s;
     repulsionPoint := repulsionPoint s; lastPredictionTime := lastPredictionTime s;
     lastVideoTime := lastVideoTime s; gestureState := gestureState s; logicData := v |}.

Definition set_isPinching (v : bool) (s : t) : t :=
  set_gestureState {| isPinching := v; victoryTimer := victoryTimer (gestureState s);
                      threeTimer := threeTimer (gestureState s) |} s.

Definition set_victoryTimer (v : float) (s : t) : t :=
  set_gestureState {| isPinching := isPinching (gestureState s); victoryTimer := v;
                      threeTimer := threeTimer (gestureState s) |} s.

Definition set_threeTimer (v : float) (s : t) : t :=
  set_gestureState {| isPinching := isPinching (gestureState s);
                      victoryTimer := victoryTimer (gestureState s); threeTimer := v |} s.
End Scene.

(** ** The handlers *)

Module Engine.
Import Scene.
Local Open Scope float_scope.

(** [Math.min] on two numbers: NaN if either is, and [-0] below [+0]. *)
Definition Math_min (a b : float) : float :=
  if PrimFloat.is_nan a || PrimFloat.is_nan b then PrimFloat.nan
  else if PrimFloat.ltb a b then a
  else if PrimFloat.ltb b a then b
  else if PrimFloat.get_sign a then a else b.

(** *** Audio: each melody returns at once when sound is disabled *)

Definition playBellSound (s : t) : t := if soundEnabled s then logCue BellSound s else s.

Definition playJingleBells (s : t) : t := if soundEnabled s then logCue JingleBells s else s.

Definition playWeWishYou (s : t) : t := if soundEnabled s then logCue WeWishYou s else s.

(** *** [triggerEpicSequence] *)

Definition triggerEpicSequence (s : t) : t :=
  if hasTriggeredEpic s then s
  else
    let s := set_hasTriggeredEpic true s in
    let s := set_isEpicSequence true s in
    let s := set_epicTimer 0 s in
    let s := set_rainbowStarMode true s in
    let s := playWeWishYou s in
    let s := setBlessingCount (fun prev => prev + 1)%nat s in
    let s := setHoldProgress 0 s in
    let s := set_shakeIntensity 3.0 s in
    setStatusText StatusMerryChristmas s.

(** *** [predictWebcam] *)

(** What [detectForVideo] and the overlay canvas give in one call. *)
Inductive Detection :=
| DetectThrows                              (* the model call throws; the catch swallows it *)
| NoCanvas                                  (* no skeleton canvas or no 2d context *)
| Detected (hands : list Hand.Landmarks).   (* result.landmarks *)

Record VideoFrame := {
  landmarkerReady : bool;     (* handLandmarkerRef.current && videoRef.current *)
  videoLoaded : bool;         (* readyState >= 2 and videoWidth !== 0 *)
  now : float;                (* Date.now() *)
  currentTime : float;        (* video.currentTime *)
  detection : Detection;
  random : Q                  (* Math.random(), drawn if the pinch branch asks *)
}.

(** [Math.floor(Math.random() * length)] *)
Definition randomIndex (r : Q) (length : nat) : Z :=
  Qfloor (r * inject_Z (Z.of_nat length)).

(** The body run on [landmarks = result.landmarks[0]], from the gesture
    predicates to [setStatusText(status)].  The camera and group transforms
    written by the point and fist branches are not part of the state. *)
Definition classify (landmarks : Hand.Landmarks) (r : Q) (s : t) : t :=
  let pointing := Hand.isPointing landmarks in
  let '(label, s) :=
    match Hand.branch landmarks with
    | Hand.Fist =>
        (LFist, if negb (AppState_eqb (appStateRef s) TREE) then setAppState TREE s else s)
    | Hand.Open =>
        (LOpen, if negb (AppState_eqb (appStateRef s) SCATTER) then setAppState SCATTER s else s)
    | Hand.Pinch =>
        let s :=
          if negb (isPinching (gestureState s)) then
            if (0 <? photoMeshes s)%nat then
              let s := playBellSound s in
              let s := set_zoomTargetIndex (randomIndex r (photoMeshes s)) s in
              let s := setAppState ZOOM s in
              setStatusText StatusRandomPhoto s
            else setStatusText StatusNoPhotos s
          else s in
        (LPinch, set_isPinching true s)
    | Hand.Victory =>
        let shown := victoryTimer (gestureState s) in
        let s := set_victoryTimer (victoryTimer (gestureState s) + 0.1) s in
        let s :=
          if PrimFloat.ltb 2.0 (victoryTimer (gestureState s)) && negb (isEpicSequence s) then
            set_victoryTimer 0 (triggerEpicSequence s)
          else s in
        (LVictory shown, s)
    | Hand.ThreeFinger =>
        let shown := threeTimer (gestureState s) in
        let s := set_threeTimer (threeTimer (gestureState s) + 0.1) s in
        let s :=
          if PrimFloat.ltb 3.0 (threeTimer (gestureState s)) then
            let s := set_isGoldMode true s in
            let s := set_goldModeTimer 8.0 s in
            let s := playJingleBells s in
            set_threeTimer 0 s
          else s in
        (LGold shown, s)
    | Hand.Tracing =>
        let s := set_isPinching false s in
        let s := set_victoryTimer 0 s in
        (LTracing, set_threeTimer 0 s)
    end in
  setStatusText (StatusAI pointing label) s.

(** The part inside [try], once the frame is new. *)
Definition detect (v : VideoFrame) (s : t) : t :=
  match detection v with
  | DetectThrows => s
  | NoCanvas => s
  | Detected [] => setStatusText StatusSearching s
  | Detected (landmarks :: _) =>
      (* drawing the skeleton reads all 21 points first: a shorter array
         throws there, before any state is touched *)
      if (List.length landmarks <? 21)%nat then s else classify landmarks (random v) s
  end.

Definition predictWebcam (v : VideoFrame) (s : t) : t :=
  if negb (landmarkerReady v) then s
  else match inputModeRef s with
  | touch => s
  | camera =>
      if negb (videoLoaded v) then s
      else if PrimFloat.ltb (now v - lastPredictionTime s) 100 then s
      else
        let s := set_lastPredictionTime (now v) s in
        if negb (PrimFloat.eqb (currentTime v) (lastVideoTime s)) then
          detect v (set_lastVideoTime (currentTime v) s)
        else s
  end.

(** *** Touch input *)

(** The DOM event: a touch event carries [e.touches], a mouse event
    [e.buttons]. *)
Inductive Pointer := TouchEv (touchesLength : nat) | MouseEv (buttons : nat).

(** [isTouch ? touches.length : (e.buttons === 1 ? 1 : 0)] *)
Definition touchCount (p : Pointer) : nat :=
  match p with
  | TouchEv n => n
  | MouseEv b => if (b =? 1)%nat then 1%nat else 0%nat
  end.

(** The length of the [positions] array built on [start]. *)
Definition positionsLength (p : Pointer) : nat :=
  match p with TouchEv n => n | MouseEv _ => 1%nat end.

Inductive TouchType := TouchStart | TouchMove | TouchEnd.

(** One call of [handleTouch] with what it reads from its surroundings. *)
Record TouchInput := {
  pointer : Pointer;
  clock : float;              (* Date.now() *)
  mounted : bool;             (* container, camera and main group are there *)
  hitsStar : bool;            (* the star exists and the ray meets it *)
  planePoint : Vec3.t;        (* where the ray meets the interaction plane *)
  photoHit : option nat       (* index of the photo card under the tap *)
}.

Definition set_touches (n : nat) (s : t) : t :=
  set_interaction {| touches := n; startPositions := startPositions (interaction s);
                     startTime := startTime (interaction s);
                     lastTapTime := lastTapTime (interaction s) |} s.

Definition set_start (time : float) (positions : nat) (s : t) : t :=
  set_interaction {| touches := touches (interaction s); startPositions := positions;
                     startTime := time; lastTapTime := lastTapTime (interaction s) |} s.

Definition set_lastTapTime (time : float) (s : t) : t :=
  set_interaction {| touches := touches (interaction s);
                     startPositions := startPositions (interaction s);
                     startTime := startTime (interaction s); lastTapTime := time |} s.

Definition handlePhotoClick (e : TouchInput) (s : t) : t :=
  if negb (mounted e) then s
  else match photoHit e with
  | Some index => setAppState ZOOM (set_zoomTargetIndex (Z.of_nat index) s)
  | None => s
  end.

(** [prev => prev === AppState.TREE ? AppState.SCATTER : AppState.TREE] *)
Definition toggleFormation (prev : AppState) : AppState :=
  if AppState_eqb prev TREE then SCATTER else TREE.

Definition onStart (e : TouchInput) (s : t) : t :=
  let s := set_start (clock e) (positionsLength (pointer e)) s in
  if (touchCount (pointer e) =? 1)%nat && mounted e && hitsStar e then
    set_starHoldStartTime (clock e) (set_isHoldingStar true s)
  else s.

Definition onMove (e : TouchInput) (s : t) : t :=
  if (touchCount (pointer e) =? 1)%nat && mounted e then
    set_repulsionPoint (Some (planePoint e)) s
  else s.

Definition onEnd (e : TouchInput) (s : t) : t :=
  let s := set_repulsionPoint None s in
  let s := set_isHoldingStar false s in
  let s := setHoldProgress 0 s in
  let s :=
    if PrimFloat.ltb (clock e - startTime (interaction s)) 300 then
      let lastCount := startPositions (interaction s) in
      if (lastCount =? 1)%nat then
        let s :=
          if PrimFloat.ltb (clock e - lastTapTime (interaction s)) 300 then
            set_shakeIntensity 5.0 s
          else handlePhotoClick e (playBellSound s) in
        set_lastTapTime (clock e) s
      else if (lastCount =? 2)%nat then setAppState (toggleFormation (appState s)) s
      else s
    else s in
  if (touchCount (pointer e) =? 5)%nat then
    playJingleBells (set_goldModeTimer 8.0 (set_isGoldMode true s))
  else s.

(** [handleTouch(e, type)].  Rotation and zoom deltas go to the camera and
    the group, outside this state. *)
Definition handleTouch (e : TouchInput) (type : TouchType) (s : t) : t :=
  match inputModeRef s with
  | camera => s
  | touch =>
      let s := set_touches (touchCount (pointer e)) s in
      match type with
      | TouchStart => onStart e s
      | TouchMove => onMove e s
      | TouchEnd => onEnd e s
      end
  end.

(** *** The animation frame *)

(** [mainGroupRef.current] as [animate] uses it. *)
Record Group := {
  matrixWorldInverse : Vec3.t -> Vec3.t;
  hasMesh : Particles.PType -> bool
}.

Record Tick := {
  video : VideoFrame;
  group : option Group;
  holdClock : float           (* Date.now() read for the star hold *)
}.

(** The refs [updateInstancedSystem] samples in this frame. *)
Definition frameOf (g : Group) (s : t) : Particles.Frame :=
  {| Particles.isEpic := isEpicSequence s;
     Particles.epicTime := epicTimer s;
     Particles.repelPos := repulsionPoint s;
     Particles.textTargets := Particles.ld_textTargets (logicData s);
     Particles.worldToLocal := matrixWorldInverse g |}.

Definition updateParticles (g : Group) (state : AppState) (s : t) : t :=
  let f := frameOf g s in
  let d := logicData s in
  let run type arr := fst (Particles.updateInstancedSystem (hasMesh g type) f state type arr) in
  set_logicData
    {| Particles.ld_gold := run Particles.gold (Particles.ld_gold d);
       Particles.ld_silver := run Particles.silver (Particles.ld_silver d);
       Particles.ld_gem := run Particles.gem (Particles.ld_gem d);
       Particles.ld_emerald := run Particles.emerald (Particles.ld_emerald d);
       Particles.ld_trunk := run Particles.trunk (Particles.ld_trunk d);
       Particles.ld_grass := run Particles.grass (Particles.ld_grass d);
       Particles.ld_textTargets := Particles.ld_textTargets d |} s.

Definition starHold (k : Tick) (s : t) : t :=
  if isHoldingStar s && negb (isEpicSequence s) then
    match inputModeRef s with
    | touch =>
        if PrimFloat.ltb 0 (starHoldStartTime s) then
          let holdTime := holdClock k - starHoldStartTime s in
          let progress := Math_min (holdTime / 3000) 1.0 in
          let s := setHoldProgress progress s in
          if PrimFloat.leb 1.0 progress && negb (hasTriggeredEpic s)
          then triggerEpicSequence s else s
        else s
    | camera => s
    end
  else s.

Definition epicStep (s : t) : t :=
  if isEpicSequence s then
    let s := set_epicTimer (epicTimer s + 0.016) s in
    let t := epicTimer s in
    if PrimFloat.ltb 18.0 t then setAppState TREE (set_isEpicSequence false s) else s
  else s.

Definition shakeStep (s : t) : t :=
  if PrimFloat.ltb 0 (shakeIntensity s) then set_shakeIntensity (shakeIntensity s * 0.9) s
  else s.

(** [animate], without the drawing: the gesture engine, the star hold, the
    epic timeline, the shake decay and the six particle systems. *)
Definition animate (k : Tick) (s : t) : t :=
  let s := predictWebcam (video k) s in
  let state := appStateRef s in
  match group k with
  | None => s
  | Some g => updateParticles g state (shakeStep (epicStep (starHold k s)))
  end.

(** *** Rendering: the mirror effect *)

(** The effect on [appState, settings, inputMode]: copies them to the refs
    and, in touch mode, shows the formation. *)
Definition mirrorEffect (s : t) : t :=
  let s := set_appStateRef (appState s) s in
  match inputModeRef s with
  | touch => setStatusText (StatusMode (appState s)) s
  | camera => s
  end.

(** After a handler returns React renders and runs the effect if [appState]
    changed since the last render. *)
Definition commit (s : t) : t :=
  if AppState_eqb (appState s) (appStateRef s) then s else mirrorEffect s.

(** *** Events *)

Inductive Event :=
| Frame (k : Tick)                              (* one animation frame *)
| Touch (type : TouchType) (e : TouchInput)     (* a pointer handler of the container *)
| CloseZoom                                     (* the overlay's close button *)
| ToggleInputMode                               (* the overlay's touch / gesture switch *)
| ToggleSound                                   (* the overlay's sound setting *)
| PhotoLoaded.                                  (* an uploaded image finished loading *)

Definition toggleInput (m : InputMode) : InputMode :=
  match m with touch => camera | camera => touch end.

Definition handle (ev : Event) (s : t) : t :=
  match ev with
  | Frame k => animate k s
  | Touch type e => handleTouch e type s
  | CloseZoom => if AppState_eqb (appState s) ZOOM then setAppState TREE s else s
  | ToggleInputMode => mirrorEffect (set_inputModeRef (toggleInput (inputModeRef s)) s)
  | ToggleSound => mirrorEffect (set_soundEnabled (negb (soundEnabled s)) s)
  | PhotoLoaded =>
      let s := set_photoMeshes (S (photoMeshes s)) s in
      setStatusText (StatusPhotosAdded (photoMeshes s)) s
  end.

Definition step (ev : Event) (s : t) : t := commit (handle ev s).

Fixpoint run (evs : list Event) (s : t) : t :=
  match evs with
  | [] => s
  | ev :: rest => run rest (step ev s)
  end.
End Engine.

(** ** Runs of the gesture engine *)

Module Runs.
Import Scene Engine.
Local Open Scope float_scope.

(** The hand a call of [predictWebcam] classifies, if the call gets that far:
    model and video ready, camera mode, 100 ms since the last accepted call,
    a new video frame, a canvas, and a full set of landmarks. *)
Definition classifies (v : VideoFrame) (s : t) : option Hand.Landmarks :=
  if landmarkerReady v && videoLoaded v
     && negb (PrimFloat.ltb (now v - lastPredictionTime s) 100)
     && negb (PrimFloat.eqb (currentTime v) (lastVideoTime s))
  then
    match inputModeRef s, detection v with
    | camera, Detected (landmarks :: _) =>
        if (List.length landmarks <? 21)%nat then None else Some landmarks
    | _, _ => None
    end
  else None.

(** The scene a classifying call hands to [classify]: only the two stamps
    of the rate limiter have been written. *)
Definition stamped (v : VideoFrame) (s : t) : t :=
  set_lastVideoTime (currentTime v) (set_lastPredictionTime (now v) s).

Definition Branch_eqb (a b : Hand.Branch) : bool :=
  match a, b with
  | Hand.Fist, Hand.Fist | Hand.Open, Hand.Open | Hand.Pinch, Hand.Pinch
  | Hand.Victory, Hand.Victory | Hand.ThreeFinger, Hand.ThreeFinger
  | Hand.Tracing, Hand.Tracing => true
  | _, _ => false
  end.

(** The call classifies a hand, and the chain takes branch [b] on it. *)
Definition classifiesAs (b : Hand.Branch) (v : VideoFrame) (s : t) : bool :=
  match classifies v s with
  | Some landmarks => Branch_eqb (Hand.branch landmarks) b
  | None => false
  end.

(** Successive calls of [predictWebcam]. *)
Fixpoint runWebcam (vs : list VideoFrame) (s : t) : t :=
  match vs with
  | [] => s
  | v :: rest => runWebcam rest (predictWebcam v s)
  end.


(** Every call is a classification, victories and tracings taking turns;
    [victoryNext] tells which one the first call is. *)
Fixpoint alternates (victoryNext : bool) (vs : list VideoFrame) (s : t) : bool :=
  match vs with
  | [] => true
  | v :: rest =>
      classifiesAs (if victoryNext then Hand.Victory else Hand.Tracing) v s
      && alternates (negb victoryNext) rest (predictWebcam v s)
  end.

(** The display mode a classification of [landmarks] asks for. *)
Definition gestureMode (landmarks : Hand.Landmarks) (s : t) : AppState :=
  match Hand.branch landmarks with
  | Hand.Fist => if AppState_eqb (appStateRef s) TREE then appState s else TREE
  | Hand.Open => if AppState_eqb (appStateRef s) SCATTER then appState s else SCATTER
  | Hand.Pinch =>
      if negb (isPinching (gestureState s)) && (0 <? photoMeshes s)%nat then ZOOM
      else appState s
  | _ => appState s
  end.

(** The hand an event classifies: only an animation frame calls
    [predictWebcam]. *)
Definition eventClassifies (ev : Event) (s : t) : option Hand.Landmarks :=
  match ev with
  | Frame k => classifies (video k) s
  | _ => None
  end.

(** An execution all of whose classifications are victories; frames that
    classify nothing and all other events may come in between. *)
Fixpoint victoriesOnly (evs : list Event) (s : t) : bool :=
  match evs with
  | [] => true
  | ev :: rest =>
      match eventClassifies ev s with
      | Some landmarks => Branch_eqb (Hand.branch landmarks) Hand.Victory
      | None => true
      end && victoriesOnly rest (step ev s)
  end.

(** The number of classifications in an execution. *)
Fixpoint classifications (evs : list Event) (s : t) : nat :=
  match evs with
  | [] => O
  | ev :: rest =>
      (match eventClassifies ev s with Some _ => 1 | None => 0 end
       + classifications rest (step ev s))%nat
  end.

(** [n] increments of 0.1. *)
Fixpoint increments (n : nat) (timer : float) : float :=
  match n with
  | O => timer
  | S k => increments k (timer + 0.1)
  end.

(** What the victory branch reads and writes. *)
Definition holdState (s : t) : float * bool * bool :=
  (victoryTimer (gestureState s), isEpicSequence s, hasTriggeredEpic s).

(** One victory classification on that triple. *)
Definition victoryTick (h : float * bool * bool) : float * bool * bool :=
  let '(timer, epic, latched) := h in
  let timer := timer + 0.1 in
  if PrimFloat.ltb 2.0 timer && negb epic then (0, (if latched then epic else true), true)
  else (timer, epic, latched).


(** The next victory classification takes the timer past 2.0. *)
Definition crosses (s : t) : bool :=
  PrimFloat.ltb 2.0 (victoryTimer (gestureState s) + 0.1).

Definition countCue (c : Cue) (log : list Cue) : nat :=
  List.length (filter (fun x => match x, c with
                                | BellSound, BellSound | JingleBells, JingleBells
                                | WeWishYou, WeWishYou => true
                                | _, _ => false
                                end) log).
(** What the epic sequence owns: its flag, the latch, the blessing counter
    and the number of times its melody was started. *)
Definition epicView (s : t) : bool * bool * nat * nat :=
  (isEpicSequence s, hasTriggeredEpic s, blessingCount s, countCue WeWishYou (audioLog s)).

(** The ways a handler can move that view: not at all, by a successful
    trigger, or by the deactivation at the end of the timeline. *)
Inductive viewStep : bool * bool * nat * nat -> bool * bool * nat * nat -> Prop :=
| view_same v : viewStep v v
| view_trigger epic n c (sound : bool) :
    viewStep (epic, false, n, c) (true, true, S n, if sound then S c else c)
| view_deactivate latched n c : viewStep (true, latched, n, c) (false, latched, n, c).

Definition viewSteps := clos_refl_trans _ viewStep.

(** Active only if latched; one blessing and at most one melody per latch. *)
Definition viewInv (v : bool * bool * nat * nat) : Prop :=
  let '(epic, latched, blessings, melodies) := v in
  (epic = true -> latched = true)
  /\ blessings = (if latched then 1 else 0)%nat
  /\ (melodies <= (if latched then 1 else 0))%nat.

End Runs.

(** ** Executions: the epic timeline, gold mode, the focus index *)

Module Timeline.
Import Scene Engine Runs.
Local Open Scope float_scope.

(** The epic timer [n] frames after a trigger. *)
Fixpoint epicTicks (n : nat) : float :=
  match n with
  | O => 0
  | S k => epicTicks k + 0.016
  end.

(** The frame whose tick takes the timer past 18. *)
Definition epicFrames : nat := 1126.

(** An animation frame that finds the main group, and so runs the timeline. *)
Definition mountedFrame (ev : Event) : bool :=
  match ev with
  | Frame k => match group k with Some _ => true | None => false end
  | _ => false
  end.

Definition mountedFrames (evs : list Event) : nat :=
  List.length (filter mountedFrame evs).

(** What the timeline reads and writes. *)
Definition clockView (s : t) : bool * bool * float :=
  (isEpicSequence s, hasTriggeredEpic s, epicTimer s).

(** [triggerEpicSequence] on that triple. *)
Definition trig (v : bool * bool * float) : bool * bool * float :=
  let '(epic, latched, timer) := v in
  if latched then v else (true, true, 0).

(** The timeline block of [animate] on that triple. *)
Definition tick (v : bool * bool * float) : bool * bool * float :=
  let '(epic, latched, timer) := v in
  if epic then (negb (PrimFloat.ltb 18.0 (timer + 0.016)), latched, timer + 0.016) else v.

(** The sequence is in its [n]-th frame. *)
Definition activeAt (n : nat) (v : bool * bool * float) : Prop :=
  v = (true, true, epicTicks n) /\ (n < epicFrames)%nat.

(** The sequence is over, the latch set. *)
Definition over (v : bool * bool * float) : Prop :=
  fst (fst v) = false /\ snd (fst v) = true.

(** Gold mode and its timer. *)
Definition goldView (s : t) : bool * float := (isGoldMode s, goldModeTimer s).

(** A call that classifies does not take the tracing branch. *)
Fixpoint noTracing (vs : list VideoFrame) (s : t) : bool :=
  match vs with
  | [] => true
  | v :: rest =>
      match classifies v s with
      | Some landmarks => negb (Branch_eqb (Hand.branch landmarks) Hand.Tracing)
      | None => true
      end && noTracing rest (predictWebcam v s)
  end.

(** The shake intensity [n] decays after it was set to [start]. *)
Fixpoint decay (n : nat) (start : float) : float :=
  match n with
  | O => start
  | S k => decay k (start * 0.9)
  end.

(** The shake intensity is in a decay that began at one of the two values
    the handlers assign: 3.0 by [triggerEpicSequence], 5.0 by a double tap. *)
Definition shaking (x : float) : Prop :=
  exists k, x = decay k 3.0 \/ x = decay k 5.0.

(** The number of decays after which the product no longer changes. *)
Definition settled3 : nat := 7 * 1000 + 60.
Definition settled5 : nat := 7 * 1000 + 65.

(** Five times the smallest positive binary64 number, about 2.5e-323. *)
Definition shakeFloor : float := 0x5p-1074.

(** The first [n] values of a decay are positive and not below the floor. *)
Fixpoint aboveFloor (n : nat) (x : float) : bool :=
  match n with
  | O => true
  | S k => PrimFloat.ltb 0 x && PrimFloat.leb shakeFloor x && aboveFloor k (x * 0.9)
  end.

(** What the surroundings owe an event: a draw of [Math.random()] lies in
    [[0, 1)], and the ray cast of a tap reports a card of the list. *)
Definition wellFormed (ev : Event) (s : t) : Prop :=
  match ev with
  | Frame k => (0 <= random (video k))%Q /\ (random (video k) < 1)%Q
  | Touch _ e =>
      match photoHit e with
      | Some index => (index < photoMeshes s)%nat
      | None => True
      end
  | _ => True
  end.

Fixpoint wellFormedRun (evs : list Event) (s : t) : Prop :=
  match evs with
  | [] => True
  | ev :: rest => wellFormed ev s /\ wellFormedRun rest (step ev s)
  end.

(** The focus index names a card, or no card was ever focused. *)
Definition focusValid (s : t) : Prop :=
  (0 <= zoomTargetIndex s < Z.of_nat (photoMeshes s))%Z
  \/ (zoomTargetIndex s = (-1)%Z /\ appState s <> ZOOM).
(** The branch [updateInstancedSystem] takes for the material of a system:
    the colours of the text, the golden glow, or the original colours. *)
Inductive Glow := TextGlow | GoldGlow | Original.

Definition materialGlow (isGold : bool) (f : Particles.Frame) (type : Particles.PType)
    : Glow :=
  if Particles.formingText f && Particles.participatesInText type then TextGlow
  else if isGold || (Particles.isEpic f && PrimFloat.ltb (Particles.epicTime f) 3.0)
       then GoldGlow
  else Original.
End Timeline.

(** ** One particle over several frames *)

Module Motion.
Import Particles.
Local Open Scope R_scope.

(** The loop body of [updateInstancedSystem] on the entry at index [i] in
    [n] successive frames, the refs it samples staying as they are. *)
Fixpoint afterFrames (n : nat) (f : Frame) (state : AppState) (type : PType)
    (i : nat) (item : Item) : Item :=
  match n with
  | O => item
  | S k => afterFrames k f state type i (fst (updateItem f state type i item))
  end.

(** The guard of the repulsion block fails whatever the particle's
    position: no point set, a mode other than TREE, or an epic sequence. *)
Definition noRepulsion (f : Frame) (state : AppState) : bool :=
  match repelPos f with
  | Some _ => negb (AppState_eqb state TREE && negb (isEpic f))
  | None => true
  end.
End Motion.

(** ** Creation of the particles and of the photo cards *)

Module Creation.
Import Particles.
Local Open Scope R_scope.

(** [CONFIG] *)
Definition goldCount : nat := 1500.
Definition silverCount : nat := 1500.
Definition gemCount : nat := 500.
Definition emeraldCount : nat := 500.
Definition trunkCount : nat := 800.
Definition grassCount : nat := 3000.
Definition treeHeight : R := 75.
Definition maxRadius : R := 30.

(** The values [Math.random()] returns to the calls the component makes, in
    the order of these calls. *)
Definition Draws := nat -> R.

(** A computation that draws: from the stream and the number of draws made
    before it, to its result and the number made after it. *)
Definition Gen (A : Type) : Type := Draws -> nat -> A * nat.

Definition ret {A : Type} (a : A) : Gen A := fun _ n => (a, n).

Definition bind {A B : Type} (m : Gen A) (k : A -> Gen B) : Gen B :=
  fun draws n => let (a, n') := m draws n in k a draws n'.

Definition Math_random : Gen R := fun draws n => (draws n, S n).

Notation "x <- m ;; k" := (bind m (fun x => k))
  (at level 61, m at next level, right associativity).

(** [getShellPosition(radius, thickness)] *)
Definition getShellPosition (radius thickness : R) : Gen Vec3.t :=
  u <- Math_random ;;
  v <- Math_random ;;
  let theta := 2 * PI * u in
  let phi := acos (2 * v - 1) in
  w <- Math_random ;;
  let r := radius + (w - 0.5) * thickness in
  ret (Vec3.mk (r * sin phi * cos theta) (r * sin phi * sin theta) (r * cos phi)).

(** [Math.pow(x, 1/3)] for [x >= 0]. *)
Definition cubeRoot (x : R) : R := if Req_dec_T x 0 then 0 else Rpower x (1 / 3).

(** [randomSpherePoint(r)] *)
Definition randomSpherePoint (r : R) : Gen Vec3.t :=
  u <- Math_random ;;
  v <- Math_random ;;
  let theta := 2 * PI * u in
  let phi := acos (2 * v - 1) in
  w <- Math_random ;;
  let randR := cubeRoot w * r in
  ret (Vec3.mk (randR * sin phi * cos theta) (randR * sin phi * sin theta) (randR * cos phi)).

(** The tree position inside the cone, as the generators for 'gold',
    'silver', 'gem' and 'emerald' and the default branch compute it. *)
Definition treeConePos : Gen Vec3.t :=
  a <- Math_random ;;
  let h := a * treeHeight - treeHeight / 2 in
  let normH := (h + treeHeight / 2) / treeHeight in
  let rMax := maxRadius * (1 - normH) in
  b <- Math_random ;;
  let r := sqrt b * rMax in
  c <- Math_random ;;
  let theta := c * PI * 2 in
  ret (Vec3.mk (r * cos theta) h (r * sin theta)).

(** The generator passed for 'trunk'. *)
Definition trunkPosition (i : nat) : Gen (Vec3.t * Vec3.t) :=
  a <- Math_random ;;
  let h := a * treeHeight - treeHeight / 2 in
  b <- Math_random ;;
  let r := b * 2 in
  c <- Math_random ;;
  let theta := c * PI * 2 in
  scatterPos <- getShellPosition 15 3 ;;
  ret (Vec3.mk (r * cos theta) h (r * sin theta), scatterPos).

(** The generators passed for 'gold', 'silver', 'gem' and 'emerald': the
    same cone, and a shell of their own. *)
Definition ornamentPosition (radius thickness : R) (i : nat) : Gen (Vec3.t * Vec3.t) :=
  treePos <- treeConePos ;;
  scatterPos <- getShellPosition radius thickness ;;
  ret (treePos, scatterPos).

(** The generator passed for 'grass'. *)
Definition grassPosition (i : nat) : Gen (Vec3.t * Vec3.t) :=
  let rMax := maxRadius * 1.5 in
  b <- Math_random ;;
  let r := sqrt b * rMax in
  c <- Math_random ;;
  let theta := c * PI * 2 in
  a <- Math_random ;;
  let h := - treeHeight / 2 - 2 + a * 2 in
  scatterPos <- getShellPosition 65 6 ;;
  ret (Vec3.mk (r * cos theta) h (r * sin theta), scatterPos).

(** The two positions when no generator is passed. *)
Definition defaultPosition : Gen (Vec3.t * Vec3.t) :=
  treePos <- treeConePos ;;
  scatterPos <- randomSpherePoint 60 ;;
  ret (treePos, scatterPos).

(** One iteration of the loop of [createInstancedMesh]: the entry pushed. *)
Definition createItem (positionGen : option (nat -> Gen (Vec3.t * Vec3.t))) (i : nat)
    : Gen Item :=
  pos <- match positionGen with
         | Some gen => gen i
         | None => defaultPosition
         end ;;
  s <- Math_random ;;
  sx <- Math_random ;;
  sy <- Math_random ;;
  sz <- Math_random ;;
  rx <- Math_random ;;
  ry <- Math_random ;;
  ret {| treePos := Some (fst pos);
         scatterPos := Some (snd pos);
         currentPos := fst pos;
         scale := 0.6 + s * 0.8;
         rotSpeed := Vec3.mk (sx * 0.03) (sy * 0.03) (sz * 0.03);
         rotation := Vec3.mk (rx * PI) (ry * PI) 0 |}.

(** [for (let i = 0; i < count; i++)], from [i] on with [remaining]
    iterations to go. *)
Fixpoint createLoop (positionGen : option (nat -> Gen (Vec3.t * Vec3.t)))
    (remaining i : nat) (dataArray : list Item) : Gen (list Item) :=
  match remaining with
  | O => ret dataArray
  | S k =>
      item <- createItem positionGen i ;;
      createLoop positionGen k (S i) (dataArray ++ [item])
  end.

(** [createInstancedMesh(geo, mat, count, dataArray, name, positionGen)]:
    the array after the call. *)
Definition createInstancedMesh (count : nat) (dataArray : list Item)
    (positionGen : option (nat -> Gen (Vec3.t * Vec3.t))) : Gen (list Item) :=
  createLoop positionGen count 0 dataArray.

(** The six calls of [createMaterialsAndMeshes], in their order. *)
Definition createMaterialsAndMeshes (d : LogicData) : Gen LogicData :=
  trunk <- createInstancedMesh trunkCount (ld_trunk d) (Some trunkPosition) ;;
  gold <- createInstancedMesh goldCount (ld_gold d) (Some (ornamentPosition 28 4)) ;;
  silver <- createInstancedMesh silverCount (ld_silver d) (Some (ornamentPosition 40 4)) ;;
  gem <- createInstancedMesh gemCount (ld_gem d) (Some (ornamentPosition 52 4)) ;;
  emerald <- createInstancedMesh emeraldCount (ld_emerald d) (Some (ornamentPosition 54 5)) ;;
  grass <- createInstancedMesh grassCount (ld_grass d) (Some grassPosition) ;;
  ret {| ld_gold := gold; ld_silver := silver; ld_gem := gem; ld_emerald := emerald;
         ld_trunk := trunk; ld_grass := grass; ld_textTargets := ld_textTargets d |}.

(** [logicDataRef.current] as the component declares it. *)
Definition emptyLogic : LogicData :=
  {| ld_gold := []; ld_silver := []; ld_gem := []; ld_emerald := [];
     ld_trunk := []; ld_grass := []; ld_textTargets := None |}.

(** Distance of a point from the axis of the tree. *)
Definition axisDistance (p : Vec3.t) : R := sqrt (Vec3.x p * Vec3.x p + Vec3.z p * Vec3.z p).

(** The radius of the cone of ornaments at height [h]. *)
Definition coneRadius (h : R) : R := maxRadius * (1 - (h + treeHeight / 2) / treeHeight).

(** *** Photo cards *)

(** [img.width] and [img.height] *)
Record Image := { width : nat; height : nat }.

(** The group [addPhotoMesh] builds: the sizes of the photo plane and of the
    frame box behind it, the two formation positions of its [userData], and
    its position and scale. *)
Record PhotoCard := {
  image : Image;
  planeWidth : R;
  planeHeight : R;
  frameWidth : R;
  frameHeight : R;
  card_treePos : Vec3.t;
  card_scatterPos : Vec3.t;
  card_position : Vec3.t;
  card_scale : Vec3.t
}.

(** [addPhotoMesh(img)]: the list [photoMeshesRef.current] after the call. *)
Definition addPhotoMesh (mainGroup : bool) (img : Image) (photoMeshes : list PhotoCard)
    : Gen (list PhotoCard) :=
  if negb mainGroup then ret photoMeshes
  else
    let w := if (height img <? width img)%nat then 4 else 4 * (INR (width img) / INR (height img)) in
    let h := if (height img <? width img)%nat then 4 * (INR (height img) / INR (width img)) else 4 in
    a <- Math_random ;;
    let h_pos := (a - 0.5) * treeHeight in
    let normH := (h_pos + treeHeight / 2) / treeHeight in
    let maxR := maxRadius * (1 - normH) in
    b <- Math_random ;;
    let r := maxR + 2 + b * 5 in
    c <- Math_random ;;
    let theta := c * PI * 2 in
    let treePos := Vec3.mk (r * cos theta) h_pos (r * sin theta) in
    d <- Math_random ;;
    let scatterR := 75 + d * 10 in
    e <- Math_random ;;
    let scatterPhi := acos (2 * e - 1) in
    f <- Math_random ;;
    let scatterTheta := f * PI * 2 in
    let scatterPos :=
      Vec3.mk (scatterR * sin scatterPhi * cos scatterTheta)
              (scatterR * sin scatterPhi * sin scatterTheta)
              (scatterR * cos scatterPhi) in
    ret (photoMeshes ++
         [{| image := img;
             planeWidth := w; planeHeight := h;
             frameWidth := w + 0.5; frameHeight := h + 0.8;
             card_treePos := treePos; card_scatterPos := scatterPos;
             card_position := treePos; card_scale := Vec3.mk 1 1 1 |}]).

(** [newImages.forEach(img => addPhotoMesh(img))] *)
Fixpoint addPhotoMeshes (mainGroup : bool) (newImages : list Image)
    (photoMeshes : list PhotoCard) : Gen (list PhotoCard) :=
  match newImages with
  | [] => ret photoMeshes
  | img :: rest =>
      photoMeshes <- addPhotoMesh mainGroup img photoMeshes ;;
      addPhotoMeshes mainGroup rest photoMeshes
  end.

(** The effect on [uploadedImages]: the list of cards after it, and the
    number it reports, if it reports. *)
Definition photoEffect (mainGroup : bool) (uploadedImages : list Image)
    (photoMeshes : list PhotoCard) : Gen (list PhotoCard * option nat) :=
  if negb mainGroup then ret (photoMeshes, None)
  else if (List.length photoMeshes <? List.length uploadedImages)%nat then
    let newImages := skipn (List.length photoMeshes) uploadedImages in
    photoMeshes <- addPhotoMeshes mainGroup newImages photoMeshes ;;
    ret (photoMeshes, Some (List.length uploadedImages))
  else ret (photoMeshes, None).

(** The positions of this module are computed over the real numbers, where
    the component computes them in binary64.  The bounds stated for them are
    closed and are widened by this margin, a millionth of a unit of length,
    which is far above the rounding of the few operations that produce a
    coordinate (of the order of [1e-13] at these magnitudes). *)
Definition margin : R := 1 / 1000000.

(** The scatter position is defined and lies in the shell of radii
    [[lo, hi]] about the origin, to within the margin. *)
Definition scattersIn (lo hi : R) (item : Item) : Prop :=
  exists p, scatterPos item = Some p
            /\ lo - margin <= Vec3.length p <= hi + margin.

(** The tree position is defined, the item starts at it, and it lies at a
    height in [[lo, hi]] and no further from the axis than [radius] of that
    height, to within the margin. *)
Definition standsIn (lo hi : R) (radius : R -> R) (item : Item) : Prop :=
  exists p, treePos item = Some p /\ currentPos item = p
            /\ lo - margin <= Vec3.y p <= hi + margin
            /\ axisDistance p <= radius (Vec3.y p) + margin.

(** Every draw lies in [[0, 1)]. *)
Definition unitDraws (draws : Draws) : Prop := forall n, 0 <= draws n < 1.
End Creation.

(** ** The photo cards in a frame: [updatePhotos] *)

Module Photos.
Import Creation.
Local Open Scope R_scope.

(** [targetPos] and [targetScale] for the card at [idx]; the zoom spot is
    [mainGroup.worldToLocal(new THREE.Vector3(0, 0, 80))]. *)
Definition photoTarget (worldToLocal : Vec3.t -> Vec3.t) (state : AppState)
    (zoomTargetIndex : Z) (idx : nat) (group : PhotoCard) : Vec3.t * R :=
  let isTarget := AppState_eqb state ZOOM && (Z.of_nat idx =? zoomTargetIndex)%Z in
  if isTarget then (worldToLocal (Vec3.mk 0 0 80), 3.5)
  else if AppState_eqb state SCATTER then (card_scatterPos group, 2)
  else (card_treePos group, 1).

(** The callback of [photoMeshesRef.current.forEach]; orientation and
    materials are left out. *)
Definition updatePhoto (worldToLocal : Vec3.t -> Vec3.t) (state : AppState)
    (zoomTargetIndex : Z) (idx : nat) (group : PhotoCard) : PhotoCard :=
  let '(targetPos, targetScale) := photoTarget worldToLocal state zoomTargetIndex idx group in
  {| image := image group;
     planeWidth := planeWidth group; planeHeight := planeHeight group;
     frameWidth := frameWidth group; frameHeight := frameHeight group;
     card_treePos := card_treePos group; card_scatterPos := card_scatterPos group;
     card_position := Vec3.lerp (card_position group) targetPos 0.1;
     card_scale :=
       Vec3.lerp (card_scale group) (Vec3.mk targetScale targetScale targetScale) 0.1 |}.

Fixpoint forEachFrom (worldToLocal : Vec3.t -> Vec3.t) (state : AppState)
    (zoomTargetIndex : Z) (idx : nat) (photoMeshes : list PhotoCard) : list PhotoCard :=
  match photoMeshes with
  | [] => []
  | group :: rest =>
      updatePhoto worldToLocal state zoomTargetIndex idx group
      :: forEachFrom worldToLocal state zoomTargetIndex (S idx) rest
  end.

(** [updatePhotos(state)] *)
Definition updatePhotos (worldToLocal : Vec3.t -> Vec3.t) (state : AppState)
    (zoomTargetIndex : Z) (photoMeshes : list PhotoCard) : list PhotoCard :=
  forEachFrom worldToLocal state zoomTargetIndex 0 photoMeshes.

(** [n] frames under the same mode, focus index and group transform. *)
Fixpoint photoFrames (n : nat) (worldToLocal : Vec3.t -> Vec3.t) (state : AppState)
    (zoomTargetIndex : Z) (photoMeshes : list PhotoCard) : list PhotoCard :=
  match n with
  | O => photoMeshes
  | S k =>
      photoFrames k worldToLocal state zoomTargetIndex
        (updatePhotos worldToLocal state zoomTargetIndex photoMeshes)
  end.
End Photos.

(** ** The dust: [createDust] and [updateDustParticles] *)

Module Dust.
Import Creation.
Local Open Scope R_scope.

Definition dustCount : nat := 600.

(** One entry of [logicDataRef.current.dust]. *)
Record Mote := {
  treePos : Vec3.t;
  scatterPos : Vec3.t;
  currentPos : Vec3.t
}.

(** One iteration of the loop of [createDust]. *)
Definition createMote : Gen Mote :=
  a <- Math_random ;;
  let h := a * treeHeight - treeHeight / 2 in
  b <- Math_random ;;
  let r := b * maxRadius * (1 - (h + treeHeight / 2) / treeHeight) + 2 in
  c <- Math_random ;;
  let theta := c * PI * 2 in
  d <- Math_random ;;
  let gapRadius := 10 + d * 60 in
  e <- Math_random ;;
  let gapTheta := e * PI * 2 in
  f <- Math_random ;;
  let gapPhi := acos (2 * f - 1) in
  let scatterX := gapRadius * sin gapPhi * cos gapTheta in
  let scatterY := gapRadius * sin gapPhi * sin gapTheta in
  let scatterZ := gapRadius * cos gapPhi in
  ret {| treePos := Vec3.mk (r * cos theta) h (r * sin theta);
         scatterPos := Vec3.mk scatterX scatterY scatterZ;
         currentPos := Vec3.mk (r * cos theta) h (r * sin theta) |}.

Fixpoint createDustLoop (remaining : nat) (dust : list Mote) : Gen (list Mote) :=
  match remaining with
  | O => ret dust
  | S k => item <- createMote ;; createDustLoop k (dust ++ [item])
  end.

(** [createDust()]: the array after the call. *)
Definition createDust (dust : list Mote) : Gen (list Mote) := createDustLoop dustCount dust.

(** The loop body of [updateDustParticles]; [touches] is
    [interactionRef.current.touches]. *)
Definition updateMote (state : AppState) (touches : nat) (item : Mote) : Mote :=
  let speedBoost := if (3 <=? touches)%nat then 5 else 1 in
  let cur := currentPos item in
  let cur :=
    if AppState_eqb state TREE then
      let y := Vec3.y cur + 0.05 * speedBoost in
      let y := if Rlt_dec (treeHeight / 2) y then - treeHeight / 2 else y in
      let normH := (y + treeHeight / 2) / treeHeight in
      let rMax := maxRadius * (1 - normH) + 2 in
      if Rlt_dec rMax (sqrt (Vec3.x cur * Vec3.x cur + Vec3.z cur * Vec3.z cur))
      then Vec3.mk (Vec3.x cur * 0.98) y (Vec3.z cur * 0.98)
      else Vec3.mk (Vec3.x cur) y (Vec3.z cur)
    else Vec3.lerp cur (scatterPos item) 0.05 in
  {| treePos := treePos item; scatterPos := scatterPos item; currentPos := cur |}.

(** [updateDustParticles(state)]; nothing happens without the dust system. *)
Definition updateDustParticles (dustSystem : bool) (state : AppState) (touches : nat)
    (dust : list Mote) : list Mote :=
  if dustSystem then map (updateMote state touches) dust else dust.

(** Successive frames in the tree formation, one touch count per frame. *)
Fixpoint treeFrames (touchesPerFrame : list nat) (dust : list Mote) : list Mote :=
  match touchesPerFrame with
  | [] => dust
  | touches :: rest => treeFrames rest (updateDustParticles true TREE touches dust)
  end.

(** The mote is inside the band of heights of the tree, and not farther
    from the axis than [r]. *)
Definition inBand (r : R) (item : Mote) : Prop :=
  - treeHeight / 2 <= Vec3.y (currentPos item) <= treeHeight / 2
  /\ axisDistance (currentPos item) <= r.
End Dust.

(** ** Fireworks: [spawnFirework], [explodeFirework], [updateFireworks] *)

Module Fireworks.
Import Creation.
Local Open Scope R_scope.

(** The [type] of a firework. *)
Inductive FwType := normal | snow.

(** An entry of [logicDataRef.current.fireworks]: a rocket on its way up, or
    a particle of an explosion.  [life] is a JavaScript number counted down
    by 0.01, kept in binary64; positions and velocities are over the reals;
    a colour is [None] when the array lookup that gives it is out of range. *)
Inductive Spark :=
| Rocket (pos vel : Vec3.t) (targetY : R) (life : float) (color : option N) (type : FwType)
| Particle (pos vel : Vec3.t) (life : float) (color : option N) (type : FwType).

Definition position (p : Spark) : Vec3.t :=
  match p with Rocket pos _ _ _ _ _ => pos | Particle pos _ _ _ _ => pos end.

(** [Math.floor] of a real, as an array index. *)
Definition floorIndex (x : R) : Z := Int_part x.

(** [colors[Math.floor(Math.random() * colors.length)]] *)
Definition pick (colors : list N) (r : R) : option N :=
  let i := floorIndex (r * INR (List.length colors)) in
  if (i <? 0)%Z then None else nth_error colors (Z.to_nat i).

(** [spawnFirework(colorOverride, type)]: the array after the push.  An
    override of 0 is falsy and gives the default palette. *)
Definition spawnFirework (colorOverride : option N) (type : FwType) (fireworks : list Spark)
    : Gen (list Spark) :=
  let colors :=
    match colorOverride with
    | Some c => if (c =? 0)%N then [0xff0000; 0xffd700; 0x00ff00]%N else [c]
    | None => [0xff0000; 0xffd700; 0x00ff00]%N
    end in
  a <- Math_random ;;
  let color := pick colors a in
  b <- Math_random ;;
  let cx := (b - 0.5) * 40 in
  c <- Math_random ;;
  let cz := (c - 0.5) * 40 in
  d <- Math_random ;;
  e <- Math_random ;;
  ret (fireworks ++
       [Rocket (Vec3.mk cx (-30) cz) (Vec3.mk 0 (1.5 + d) 0) (40 + e * 20) 1.0%float
               color type]).

(** One particle of an explosion of [rocket]. *)
Definition burstParticle (pos : Vec3.t) (color : option N) (type : FwType) : Gen Spark :=
  a <- Math_random ;;
  b <- Math_random ;;
  c <- Math_random ;;
  d <- Math_random ;;
  let vel :=
    Vec3.multiplyScalar (Vec3.normalize (Vec3.mk (a - 0.5) (b - 0.5) (c - 0.5))) (0.5 + d) in
  ret (Particle pos vel
         (match type with snow => 3.0%float | normal => 1.0%float end)
         (match type with snow => Some 0xFFFFFF%N | normal => color end)
         type).

Fixpoint burstLoop (remaining : nat) (pos : Vec3.t) (color : option N) (type : FwType)
    (fireworks : list Spark) : Gen (list Spark) :=
  match remaining with
  | O => ret fireworks
  | S k =>
      p <- burstParticle pos color type ;;
      burstLoop k pos color type (fireworks ++ [p])
  end.

(** [explodeFirework(rocket)]: the array after the pushes. *)
Definition explodeFirework (pos : Vec3.t) (color : option N) (type : FwType)
    (fireworks : list Spark) : Gen (list Spark) :=
  let count := match type with snow => 60%nat | normal => 30%nat end in
  burstLoop count pos color type fireworks.

(** What one iteration of the loop of [updateFireworks] does to the entry it
    looks at, before the array is touched. *)
Inductive Fate :=
| Kept (p : Spark)                                            (* moved, drawn, stays *)
| Exploded (pos : Vec3.t) (color : option N) (type : FwType)  (* a rocket at its height *)
| Died.                                                       (* a particle out of life *)

Definition advance (p : Spark) : Fate :=
  match p with
  | Rocket pos vel targetY life color type =>
      let pos := Vec3.add pos vel in
      if Rle_dec targetY (Vec3.y pos) then Exploded pos color type
      else Kept (Rocket pos vel targetY life color type)
  | Particle pos vel life color type =>
      let life := (life - 0.01)%float in
      let pos := Vec3.add pos vel in
      let '(pos, vel) :=
        match type with
        | snow =>
            let vel := Vec3.multiplyScalar vel 0.95 in
            let vel := Vec3.mk (Vec3.x vel) (Vec3.y vel - 0.005) (Vec3.z vel) in
            (Vec3.lerp pos (Vec3.mk 0 (- treeHeight / 2) 0) 0.005, vel)
        | normal => (pos, Vec3.mk (Vec3.x vel) (Vec3.y vel - 0.01) (Vec3.z vel))
        end in
      if PrimFloat.leb life 0 then Died else Kept (Particle pos vel life color type)
  end.

(** [activeFW.splice(i, 1)] *)
Definition splice (i : nat) (activeFW : list Spark) : list Spark :=
  firstn i activeFW ++ skipn (S i) activeFW.

(** The entry at [i] after its fields were written. *)
Definition written (i : nat) (p : Spark) (activeFW : list Spark) : list Spark :=
  firstn i activeFW ++ p :: skipn (S i) activeFW.

(** [for (let i = activeFW.length - 1; i >= 0; i--)]: the iterations with
    indices below [below], highest first; the array and the positions pushed
    for drawing.  The index is always inside the array; were it not, the read
    of [p.isRocket] would throw and end the frame. *)
Fixpoint loop (below : nat) (activeFW : list Spark) (positions : list Vec3.t)
    : Gen (list Spark * list Vec3.t) :=
  match below with
  | O => ret (activeFW, positions)
  | S i =>
      match nth_error activeFW i with
      | None => ret (activeFW, positions)
      | Some p =>
          match advance p with
          | Kept p' => loop i (written i p' activeFW) (positions ++ [position p'])
          | Exploded pos color type =>
              activeFW <- explodeFirework pos color type activeFW ;;
              loop i (splice i activeFW) positions
          | Died => loop i (splice i activeFW) positions
          end
      end
  end.

(** [updateFireworks()]: the array after the frame and the positions handed
    to the geometry, or none when the system is hidden. *)
Definition updateFireworks (activeFW : list Spark) : Gen (list Spark * option (list Vec3.t)) :=
  if (0 <? List.length activeFW)%nat then
    r <- loop (List.length activeFW) activeFW [] ;;
    ret (fst r, Some (snd r))
  else ret (activeFW, None).

(** The entries of a frame's start that are still there at its end, each as
    the frame leaves it. *)
Definition survivors (activeFW : list Spark) : list Spark :=
  flat_map (fun p => match advance p with Kept p' => [p'] | _ => [] end) activeFW.

(** The number of particles the explosions of a frame add. *)
Definition burstSize (activeFW : list Spark) : nat :=
  list_sum (map (fun p => match advance p with
                          | Exploded _ _ snow => 60
                          | Exploded _ _ normal => 30
                          | _ => 0
                          end)%nat activeFW).

(** A particle that has not been through a frame yet. *)
Definition fresh (p : Spark) : bool :=
  match p with
  | Particle _ _ life _ normal => PrimFloat.eqb life 1.0
  | Particle _ _ life _ snow => PrimFloat.eqb life 3.0
  | Rocket _ _ _ _ _ _ => false
  end.

(** The entry after [n] frames, if it is still in the array. *)
Fixpoint afterFrames (n : nat) (p : Spark) : option Spark :=
  match n with
  | O => Some p
  | S k => match advance p with Kept p' => afterFrames k p' | _ => None end
  end.

(** The particle is still alive after [n] more frames. *)
Fixpoint alive (n : nat) (life : float) : bool :=
  match n with
  | O => true
  | S k => negb (PrimFloat.leb (life - 0.01) 0) && alive k (life - 0.01)
  end.
End Fireworks.

(** ** The glyph clouds: [createTextTargets] *)

Module TextScan.
Import Creation.
Local Open Scope R_scope.

(** [ctx.getImageData(0, 0, 1024, 512).data]: four bytes per pixel. *)
Definition ImageData := nat -> nat.

(** The inner loop [for (let x = 0; x < 1024; x += 4)], from [x] on. *)
Fixpoint scanRow (imageData : ImageData) (offsetY scaleMultiplier : R) (y : nat)
    (remaining x : nat) (points : list Vec3.t) : list Vec3.t :=
  match remaining with
  | O => points
  | S k =>
      let points :=
        if (128 <? imageData ((y * 1024 + x) * 4 + 3))%nat
        then points ++ [Vec3.mk ((INR x - 512) * scaleMultiplier)
                                ((256 - INR y) * scaleMultiplier + offsetY) 25]
        else points in
      scanRow imageData offsetY scaleMultiplier y k (x + 4) points
  end.

(** The outer loop [for (let y = 0; y < 512; y += 4)], from [y] on; each row
    takes [columns] iterations of the inner loop. *)
Fixpoint scanRows (imageData : ImageData) (offsetY scaleMultiplier : R)
    (columns remaining y : nat) (points : list Vec3.t) : list Vec3.t :=
  match remaining with
  | O => points
  | S k =>
      scanRows imageData offsetY scaleMultiplier columns k (y + 4)
        (scanRow imageData offsetY scaleMultiplier y columns 0 points)
  end.

(** The points of [scanPixels] before the shuffle: 128 rows of 256 pixels
    looked at. *)
Definition scan (imageData : ImageData) (offsetY scaleMultiplier : R) : list Vec3.t :=
  scanRows imageData offsetY scaleMultiplier 256 128 0 [].

(** [points[i] = v] inside the array. *)
Definition assign (i : nat) (v : Vec3.t) (points : list Vec3.t) : list Vec3.t :=
  firstn i points ++ v :: skipn (S i) points.

(** [[points[i], points[j]] = [points[j], points[i]]]; [None] when an index
    falls outside the array, where JavaScript would leave a hole. *)
Definition swap (i j : nat) (points : list Vec3.t) : option (list Vec3.t) :=
  match nth_error points i, nth_error points j with
  | Some a, Some b => Some (assign j a (assign i b points))
  | _, _ => None
  end.

(** [for (let i = points.length - 1; i > 0; i--)], from [i] down. *)
Fixpoint shuffleFrom (i : nat) (points : list Vec3.t) : Gen (option (list Vec3.t)) :=
  match i with
  | O => ret (Some points)
  | S k =>
      r <- Math_random ;;
      let j := Fireworks.floorIndex (r * INR (i + 1)) in
      if (j <? 0)%Z then ret None
      else match swap i (Z.to_nat j) points with
           | Some points => shuffleFrom k points
           | None => ret None
           end
  end.

(** [scanPixels(text, font, offsetY, scaleMultiplier)], from the pixels the
    text was drawn into. *)
Definition scanPixels (imageData : ImageData) (offsetY scaleMultiplier : R)
    : Gen (option (list Vec3.t)) :=
  let points := scan imageData offsetY scaleMultiplier in
  shuffleFrom (List.length points - 1) points.

(** [runScan()], from the pixels of the two texts: the value stored in
    [logicDataRef.current.textTargets]. *)
Definition runScan (goldData silverData : ImageData) : Gen (option Particles.TextTargets) :=
  goldTargets <- scanPixels goldData 15 0.4 ;;
  silverTargets <- scanPixels silverData (-55) 0.4 ;;
  ret match goldTargets, silverTargets with
      | Some g, Some s => Some {| Particles.tt_gold := g; Particles.tt_silver := s |}
      | _, _ => None
      end.

(** A glyph point of a text drawn with vertical offset [offsetY]: in the
    plane [z = 25], inside the rectangle the canvas maps to, to within the
    margin (the scale 0.4 is not a binary64 number, and the products with
    it round). *)
Definition onCanvas (offsetY : R) (p : Vec3.t) : Prop :=
  Vec3.z p = 25
  /\ -204.8 - margin <= Vec3.x p <= 203.2 + margin
  /\ offsetY - 100.8 - margin <= Vec3.y p <= offsetY + 102.4 + margin.
End TextScan.

(** ** The initialisation effect *)

Module Init.
Import Creation.
Local Open Scope R_scope.

(** The loop of [createTyndallSystem]: the indices of the gold particles
    that carry a beam. *)
Fixpoint tyndallLoop (remaining : nat) (indices : list Z) : Gen (list Z) :=
  match remaining with
  | O => ret indices
  | S k =>
      r <- Math_random ;;
      tyndallLoop k (indices ++ [Fireworks.floorIndex (r * INR goldCount)])
  end.

(** [createTyndallSystem()]: the value stored in [tyndallIndices]. *)
Definition createTyndallSystem : Gen (list Z) := tyndallLoop 120 [].

(** The loop of [createStarField]: three coordinates pushed per star. *)
Fixpoint starLoop (remaining : nat) (pos : list Vec3.t) : Gen (list Vec3.t) :=
  match remaining with
  | O => ret pos
  | S k =>
      a <- Math_random ;;
      b <- Math_random ;;
      c <- Math_random ;;
      starLoop k (pos ++ [Vec3.mk ((a - 0.5) * 1000) ((b - 0.5) * 1000) ((c - 0.5) * 1000)])
  end.

Definition createStarField : Gen (list Vec3.t) := starLoop 800 [].

(** [createTextTargets()]: the first run of the scan, made at once if the
    canvas gives a 2d context. *)
Definition createTextTargets (ctx : bool) (goldData silverData : TextScan.ImageData)
    : Gen (option Particles.TextTargets) :=
  if ctx then TextScan.runScan goldData silverData else ret None.

(** What the effect fills: [logicDataRef.current], the star field it hands
    to the scene, and [photoMeshesRef.current]. *)
Record SceneData := {
  logic : Particles.LogicData;
  dust : list Dust.Mote;
  tyndallIndices : list Z;
  fireworks : list Fireworks.Spark;
  stars : list Vec3.t;
  photoMeshes : list PhotoCard
}.

(** The effect, from the size of the container if there is one: the arrays
    are emptied first, a container of no width or no height ends the effect
    there, and otherwise the creation functions run in their order. *)
Definition initEffect (container : option (nat * nat)) (ctx : bool)
    (goldData silverData : TextScan.ImageData) (s : SceneData) : Gen SceneData :=
  match container with
  | None => ret s
  | Some (width, height) =>
      let s := {| logic := emptyLogic; dust := []; tyndallIndices := []; fireworks := [];
                  stars := stars s; photoMeshes := [] |} in
      if (width =? 0)%nat || (height =? 0)%nat then ret s
      else
        logic <- createMaterialsAndMeshes (logic s) ;;
        dust <- Dust.createDust (dust s) ;;
        indices <- createTyndallSystem ;;
        stars <- createStarField ;;
        textTargets <- createTextTargets ctx goldData silverData ;;
        ret {| logic := {| Particles.ld_gold := Particles.ld_gold logic;
                           Particles.ld_silver := Particles.ld_silver logic;
                           Particles.ld_gem := Particles.ld_gem logic;
                           Particles.ld_emerald := Particles.ld_emerald logic;
                           Particles.ld_trunk := Particles.ld_trunk logic;
                           Particles.ld_grass := Particles.ld_grass logic;
                           Particles.ld_textTargets := textTargets |};
               dust := dust; tyndallIndices := indices; fireworks := fireworks s;
               stars := stars; photoMeshes := photoMeshes s |}
  end.

(** The guard on a beam in [animate]: its index is below the number of gold
    particles; a negative index would make the read of the particle throw. *)
Definition beamAttached (goldParticles : list Particles.Item) (idx : Z) : Prop :=
  (0 <= idx < Z.of_nat (List.length goldParticles))%Z.
End Init.

(** ** The camera distance, the group's rotation, the ribbon *)

Module Camera.
Import Creation.
Local Open Scope R_scope.

(** [THREE.MathUtils.lerp(x, y, t)] *)
Definition MathUtils_lerp (x y t : R) : R := (1 - t) * x + t * y.

(** [camera.position.z] as the component sets it up. *)
Definition start : R := 110.

(** The point gesture in [predictWebcam]; [handSize] is [dist(0, 12)]. *)
Definition pointZoom (handSize z : R) : R :=
  let targetZ := 250 - handSize * 600 in
  let targetZ := Rmax 30 (Rmin 220 targetZ) in
  MathUtils_lerp z targetZ 0.05.

(** Two fingers moving in [handleTouch]; [dDist] is the change of their
    distance. *)
Definition pinchZoom (dDist z : R) : R :=
  let z := z - dDist * 0.15 in
  Rmax 20 (Rmin 200 z).

(** [cam.fov], set when the camera is made and not changed. *)
Definition fov : R := 50.

(** The distance [updateRibbon] steers to during the epic sequence. *)
Definition clampedTarget (aspect : R) : R :=
  let vFOV := fov * PI / 180 in
  let requiredWidth := 450 in
  let requiredHeight := 220 in
  let distHeight := requiredHeight / (2 * tan (vFOV / 2)) in
  let distWidth := requiredWidth / (2 * aspect * tan (vFOV / 2)) in
  let targetZ := Rmax (Rmax distHeight distWidth) 120 in
  Rmin targetZ 3000.

(** The adaptive zoom of [updateRibbon]. *)
Definition epicZoom (aspect z : R) : R := MathUtils_lerp z (clampedTarget aspect) 0.05.

(** The writes to [camera.position.z]. *)
Inductive Move :=
| PointAt (handSize : R)     (* a pointing hand seen by [predictWebcam] *)
| TwoFingers (dDist : R)     (* a two-finger move in [handleTouch] *)
| EpicFrame (aspect : R).    (* a frame of the epic sequence, the ribbon visible *)

Definition move (m : Move) (z : R) : R :=
  match m with
  | PointAt handSize => pointZoom handSize z
  | TwoFingers dDist => pinchZoom dDist z
  | EpicFrame aspect => epicZoom aspect z
  end.




(** The alignment of the main group in a frame of the epic sequence: the
    angle about the vertical is wrapped once each way, then all three ease
    to 0. *)
Definition epicAlign (rotation : Vec3.t) : Vec3.t :=
  let y := Vec3.y rotation in
  let y := if Rlt_dec PI y then y - 2 * PI else y in
  let y := if Rlt_dec y (- PI) then y + 2 * PI else y in
  Vec3.mk (MathUtils_lerp (Vec3.x rotation) 0 0.05)
          (MathUtils_lerp y 0 0.05)
          (MathUtils_lerp (Vec3.z rotation) 0 0.05).

(** The angles of the main group and [rotationVelocityRef.current]. *)
Record Spin := { group_rotation : Vec3.t; rotationVelocity : R }.

(** [rotation.y += d] *)
Definition turnBy (d : R) (rotation : Vec3.t) : Vec3.t :=
  Vec3.mk (Vec3.x rotation) (Vec3.y rotation + d) (Vec3.z rotation).

(** The places that write to the rotation of the main group or to the
    velocity, each with what it reads, the group being mounted. *)
Inductive Turn :=
| FistSpin (palmX : R)           (* a fist seen by [predictWebcam]; [palmX] is [landmarks[9].x] *)
| ScatterTurn                    (* a frame in SCATTER mode *)
| EpicAlign                      (* a frame of the epic sequence *)
| Inertia (state : AppState) (rotationEnabled : bool)
                                 (* a frame in touch mode, no finger down, neither gold mode
                                    nor epic sequence *)
| TouchStart                     (* a touch begins *)
| OneFinger (deltaX : R)         (* a one-finger move in [handleTouch] *)
| TwoFingerTwist (dAngle : R).   (* a two-finger move in [handleTouch] *)

Definition turn (t : Turn) (s : Spin) : Spin :=
  match t with
  | FistSpin palmX =>
      let deviation := palmX - 0.5 in
      if Rlt_dec 0.05 (Rabs deviation) then
        let v := - deviation * 0.2 in
        {| group_rotation := turnBy v (group_rotation s); rotationVelocity := v |}
      else s
  | ScatterTurn =>
      {| group_rotation := turnBy 0.005 (group_rotation s);
         rotationVelocity := rotationVelocity s |}
  | EpicAlign =>
      {| group_rotation := epicAlign (group_rotation s); rotationVelocity := 0 |}
  | Inertia state rotationEnabled =>
      if AppState_eqb state ZOOM || AppState_eqb state SCATTER then s
      else
        let rotation := turnBy (rotationVelocity s) (group_rotation s) in
        let v := rotationVelocity s * 0.95 in
        let slow := if Rlt_dec (Rabs v) 0.0005 then true else false in
        let rotation :=
          if rotationEnabled && slow && AppState_eqb state TREE
          then turnBy 0.002 rotation else rotation in
        {| group_rotation := rotation; rotationVelocity := v |}
  | TouchStart => {| group_rotation := group_rotation s; rotationVelocity := 0 |}
  | OneFinger deltaX =>
      if Rlt_dec 1 (Rabs deltaX) then
        {| group_rotation := turnBy (deltaX * 0.005) (group_rotation s);
           rotationVelocity := deltaX * 0.005 |}
      else s
  | TwoFingerTwist dAngle =>
      {| group_rotation := turnBy (dAngle * 2.0) (group_rotation s);
         rotationVelocity := dAngle * 0.5 |}
  end.

Fixpoint turns (ts : list Turn) (s : Spin) : Spin :=
  match ts with
  | [] => s
  | t :: rest => turns rest (turn t s)
  end.

(** The number of frames of the epic sequence among the writes. *)
Fixpoint aligns (ts : list Turn) : nat :=
  match ts with
  | [] => O
  | EpicAlign :: rest => S (aligns rest)
  | _ :: rest => aligns rest
  end.

(** The most a write other than the alignment adds to the size of the angle
    about the vertical. *)
Definition reach (t : Turn) (s : Spin) : R :=
  match t with
  | FistSpin palmX => Rabs (palmX - 0.5) * 0.2
  | ScatterTurn => 0.005
  | EpicAlign => 0
  | Inertia _ _ => Rabs (rotationVelocity s) + 0.002
  | TouchStart => 0
  | OneFinger deltaX => Rabs deltaX * 0.005
  | TwoFingerTwist dAngle => Rabs dAngle * 2
  end.

(** Between two alignments, before the first and after the last, the other
    writes add no more than [D] in all; [acc] is what they have added since
    the last alignment. *)
Fixpoint calm (D acc : R) (ts : list Turn) (s : Spin) : Prop :=
  match ts with
  | [] => acc <= D
  | t :: rest =>
      match t with
      | EpicAlign => acc <= D /\ calm D 0 rest (turn t s)
      | _ => calm D (acc + reach t s) rest (turn t s)
      end
  end.

(** The control point pushed in iteration [i] of the first loop of
    [createRibbonWithMorph]. *)
Definition spiralPoint (i : nat) : Vec3.t :=
  let turns := 5 in
  let height := treeHeight + 10 in
  let steps := 300 in
  let t := INR i / steps in
  let angle := t * PI * 2 * turns in
  let y := (t - 0.5) * height in
  let normH := (y + treeHeight / 2) / treeHeight in
  let r := (maxRadius + 5) * (1 - Rmax 0 (normH * 0.8)) in
  Vec3.mk (cos angle * r) y (sin angle * r).

(** [for (let i = 0; i <= steps; i++)] *)
Definition spiralPoints : list Vec3.t := map spiralPoint (seq 0 301).
End Camera.

(** * Sample inputs *)

Module Samples.
Local Open Scope R_scope.

Definition zero3 : Vec3.t := Vec3.mk 0 0 0.

Definition unitX : Vec3.t := Vec3.mk 1 0 0.

(** A particle resting on its tree position. *)
Definition restingItem : Particles.Item :=
  {| Particles.treePos := Some unitX; Particles.scatterPos := Some (Vec3.mk 0 40 0);
     Particles.currentPos := unitX; Particles.scale := 1;
     Particles.rotSpeed := zero3; Particles.rotation := zero3 |}.

(** A finger dragged over the centre of the tree, outside any epic sequence. *)
Definition draggedFrame : Particles.Frame :=
  {| Particles.isEpic := false; Particles.epicTime := 0%float;
     Particles.repelPos := Some zero3; Particles.textTargets := None;
     Particles.worldToLocal := fun p => p |}.

(** The same frame with the finger lifted. *)
Definition idleFrame : Particles.Frame :=
  {| Particles.isEpic := false; Particles.epicTime := 0%float;
     Particles.repelPos := None; Particles.textTargets := None;
     Particles.worldToLocal := fun p => p |}.

Definition glyphPoint : Vec3.t := Vec3.mk 10 0 25.

Definition oneGlyph : Particles.TextTargets :=
  {| Particles.tt_gold := [glyphPoint]; Particles.tt_silver := [glyphPoint] |}.

(** An epic sequence at elapsed time [t], glyph clouds scanned. *)
Definition epicFrame (t : float) : Particles.Frame :=
  {| Particles.isEpic := true; Particles.epicTime := t;
     Particles.repelPos := None; Particles.textTargets := Some oneGlyph;
     Particles.worldToLocal := fun p => p |}.

(** A particle whose tree position was never filled in. *)
Definition orphanItem : Particles.Item :=
  {| Particles.treePos := None; Particles.scatterPos := None;
     Particles.currentPos := unitX; Particles.scale := 1;
     Particles.rotSpeed := zero3; Particles.rotation := zero3 |}.

(** *** Hands *)

Definition pt (x y z : float) : Hand.Landmark := {| Hand.lx := x; Hand.ly := y; Hand.lz := z |}.

(** 21 key points from the ten the chain looks at (the second joint and the
    tip of each finger), wrist and the rest at the origin. *)
Definition hand (p2 p4 p6 p8 p10 p12 p14 p16 p18 p20 : Hand.Landmark) : Hand.Landmarks :=
  let o := Hand.origin in
  [o; o; p2; o; p4; o; p6; o; p8; o; p10; o; p12; o; p14; o; p16; o; p18; o; p20].

(** A finger along one axis: second joint at 0.2 from the wrist, tip at 0.4
    when extended and at 0.1 when curled. *)
Definition tip (extended : bool) : float := if extended then 0.4%float else 0.1%float.

Definition fingers (thumb index mid ring pinky : bool) : Hand.Landmarks :=
  hand (pt 0.2 0 0) (pt (tip thumb) 0 0)
       (pt 0 0.2 0) (pt 0 (tip index) 0)
       (pt 0 0 0.2) (pt 0 0 (tip mid))
       (pt (-0.2) 0 0) (pt (- tip ring) 0 0)
       (pt 0 (-0.2) 0) (pt 0 (- tip pinky) 0).

Definition fistHand : Hand.Landmarks := fingers false false false false false.
Definition openHand : Hand.Landmarks := fingers true true true true true.
Definition victoryHand : Hand.Landmarks := fingers false true true false false.
Definition threeHand : Hand.Landmarks := fingers false true true true false.
Definition pointHand : Hand.Landmarks := fingers false true false false false.
Definition restHand : Hand.Landmarks := fingers false false false false true.

(** Index and middle finger up, the thumb tip brought onto the index tip. *)
Definition pinchHand : Hand.Landmarks :=
  hand (pt 0.2 0 0) (pt 0.01 0.4 0)
       (pt 0 0.2 0) (pt 0 0.4 0)
       (pt 0 0 0.2) (pt 0 0 0.4)
       (pt (-0.2) 0 0) (pt (-0.1) 0 0)
       (pt 0 (-0.2) 0) (pt 0 (-0.1) 0).

(** *** Scenes and frames *)

Definition noParticles : Particles.LogicData :=
  {| Particles.ld_gold := []; Particles.ld_silver := []; Particles.ld_gem := [];
     Particles.ld_emerald := []; Particles.ld_trunk := []; Particles.ld_grass := [];
     Particles.ld_textTargets := None |}.

Definition freshScene : Scene.t := Scene.initial noParticles.

(** The scene after the overlay switched to gesture input. *)
Definition cameraScene : Scene.t := Engine.step Engine.ToggleInputMode freshScene.

(** Gesture input with three photo cards mounted. *)
Definition galleryScene : Scene.t :=
  Engine.run [Engine.PhotoLoaded; Engine.PhotoLoaded; Engine.PhotoLoaded] cameraScene.

(** A video frame taken at [time] ms showing [landmarks]. *)
Definition seen (time : float) (landmarks : Hand.Landmarks) : Engine.VideoFrame :=
  {| Engine.landmarkerReady := true; Engine.videoLoaded := true;
     Engine.now := time; Engine.currentTime := (time / 1000)%float;
     Engine.detection := Engine.Detected [landmarks]; Engine.random := 1 # 2 |}.

(** An animation frame around it; the main group is mounted. *)
Definition tickOf (v : Engine.VideoFrame) : Engine.Tick :=
  {| Engine.video := v;
     Engine.group := Some {| Engine.matrixWorldInverse := fun p => p;
                             Engine.hasMesh := fun _ => true |};
     Engine.holdClock := Engine.now v |}.

(** [n] frames of the same hand, the first at [start] ms, [gap] ms apart. *)
Fixpoint burst (n : nat) (start gap : float) (landmarks : Hand.Landmarks)
    : list Engine.VideoFrame :=
  match n with
  | O => []
  | S k => seen start landmarks :: burst k (start + gap)%float gap landmarks
  end.

(** The animation frames around a list of video frames. *)
Definition frames (vs : list Engine.VideoFrame) : list Engine.Event :=
  map (fun v => Engine.Frame (tickOf v)) vs.

(** Gesture input, then a victory sign held for twenty classifications. *)
Definition victoryHeld : list Engine.Event :=
  Engine.ToggleInputMode :: frames (burst 20 1000 100 victoryHand).

(** The scene it leads to: the epic sequence has just started. *)
Definition epicScene : Scene.t := Engine.run victoryHeld freshScene.

(** Victory and a resting hand taking turns, five calls. *)
Definition wavering : list Engine.VideoFrame :=
  [seen 1000 victoryHand; seen 1100 restHand; seen 1250 victoryHand;
   seen 1400 pointHand; seen 1500 victoryHand].

(** A finger put on the star at 1000 ms and kept there until a frame at
    4200 ms: the touch path into the epic sequence. *)
Definition starHeld : list Engine.Event :=
  [Engine.Touch Engine.TouchStart
     {| Engine.pointer := Engine.TouchEv 1; Engine.clock := 1000; Engine.mounted := true;
        Engine.hitsStar := true; Engine.planePoint := zero3; Engine.photoHit := None |};
   Engine.Frame
     {| Engine.video := seen 4200 restHand;
        Engine.group := Some {| Engine.matrixWorldInverse := fun p => p;
                                Engine.hasMesh := fun _ => true |};
        Engine.holdClock := 4200 |}].

(** A pointer handler call at [time] ms with [n] fingers on the glass. *)
Definition fingersDown (n : nat) (time : float) : Engine.TouchInput :=
  {| Engine.pointer := Engine.TouchEv n; Engine.clock := time; Engine.mounted := true;
     Engine.hitsStar := false; Engine.planePoint := zero3; Engine.photoHit := None |}.
(** Every draw of [Math.random()] gives one half. *)
Definition halves : Creation.Draws := fun _ => 1 / 2.

(** A landscape image of 800 by 600 pixels. *)
Definition landscape : Creation.Image := {| Creation.width := 800; Creation.height := 600 |}.

(** A portrait image of 600 by 800 pixels. *)
Definition portrait : Creation.Image := {| Creation.width := 600; Creation.height := 800 |}.
(** A card hanging at (10, 0, 0), its scatter position 80 up the y axis. *)
Definition sampleCard : Creation.PhotoCard :=
  {| Creation.image := landscape;
     Creation.planeWidth := 4; Creation.planeHeight := 3;
     Creation.frameWidth := 4.5; Creation.frameHeight := 3.8;
     Creation.card_treePos := Vec3.mk 10 0 0; Creation.card_scatterPos := Vec3.mk 0 80 0;
     Creation.card_position := Vec3.mk 10 0 0; Creation.card_scale := Vec3.mk 1 1 1 |}.

(** A mote near the top of the tree, one unit from the axis. *)
Definition sampleMote : Dust.Mote :=
  {| Dust.treePos := Vec3.mk 1 37.4 0; Dust.scatterPos := Vec3.mk 0 50 0;
     Dust.currentPos := Vec3.mk 1 37.4 0 |}.
(** A canvas with one opaque pixel, at (512, 256), the centre. *)
Definition onePixel : TextScan.ImageData :=
  fun i => if (i =? (256 * 1024 + 512) * 4 + 3)%nat then 255%nat else 0%nat.
End Samples.

(** * Properties *)

(** ** Geometry of the easing step *)

Module Vec3Facts.
Import Vec3.
Local Open Scope R_scope.

Lemma sum_squares_nonneg (a b c : R) : 0 <= a * a + b * b + c * c.
Proof. nra. Qed.

Lemma distanceTo_nonneg a v : 0 <= distanceTo a v.
Proof. apply sqrt_pos. Qed.

Lemma distanceTo_self a : distanceTo a a = 0.
Proof.
  unfold distanceTo, distanceToSquared.
  replace ((x a - x a) * (x a - x a) + (y a - y a) * (y a - y a)
           + (z a - z a) * (z a - z a)) with 0 by ring.
  apply sqrt_0.
Qed.

(** Easing towards the very vector one holds goes nowhere. *)
Lemma lerp_self a alpha : lerp a a alpha = a.
Proof.
  destruct a as [ax ay az]; unfold lerp; simpl; f_equal; ring.
Qed.

(** Easing scales the distance to the target by [1 - alpha]. *)
Lemma distanceTo_lerp a v alpha :
  0 <= alpha <= 1 -> distanceTo (lerp a v alpha) v = (1 - alpha) * distanceTo a v.
Proof.
  intros Halpha. unfold distanceTo, distanceToSquared, lerp; simpl.
  replace ((x a + (x v - x a) * alpha - x v) * (x a + (x v - x a) * alpha - x v)
           + (y a + (y v - y a) * alpha - y v) * (y a + (y v - y a) * alpha - y v)
           + (z a + (z v - z a) * alpha - z v) * (z a + (z v - z a) * alpha - z v))
    with ((1 - alpha) * (1 - alpha)
          * ((x a - x v) * (x a - x v) + (y a - y v) * (y a - y v)
             + (z a - z v) * (z a - z v))) by ring.
  rewrite sqrt_mult.
  - rewrite sqrt_square by lra. reflexivity.
  - nra.
  - apply sum_squares_nonneg.
Qed.
End Vec3Facts.

(** ** The particle update *)

Module ParticleFacts.
Import Vec3 Particles.
Local Open Scope R_scope.

Lemma speed_range f : 0 <= speed f <= 1.
Proof. unfold speed; destruct (formingText f); lra. Qed.

Lemma formingText_isEpic f : formingText f = true -> isEpic f = true.
Proof.
  unfold formingText. intros H.
  apply andb_prop in H as [H _]. apply andb_prop in H as [H _]. exact H.
Qed.

(** No nudge while an epic sequence runs. *)
Lemma repel_epic f state cur : isEpic f = true -> repel f state cur = cur.
Proof.
  intros He. unfold repel, repelledFrom. rewrite He.
  destruct (repelPos f); [rewrite andb_false_r|]; reflexivity.
Qed.

Lemma currentPos_updateItem f state type i item :
  currentPos (fst (updateItem f state type i item))
  = ease f (guardTarget (resolveTarget f state type i item))
         (repel f state (currentPos item)).
Proof. reflexivity. Qed.

Lemma position_updateItem f state type i item :
  t_position (snd (updateItem f state type i item))
  = currentPos (fst (updateItem f state type i item)).
Proof. reflexivity. Qed.

(** The loop applies the body to every entry, under its own index. *)
Lemma updateLoop_nth f state type arr : forall start i,
  nth_error (updateLoop f state type start arr) i
  = option_map (updateItem f state type (start + i)) (nth_error arr i).
Proof.
  induction arr as [|item arr IH]; intros start [|i]; simpl; try reflexivity.
  - now rewrite Nat.add_0_r.
  - rewrite IH. now rewrite Nat.add_succ_r.
Qed.

Lemma updateInstancedSystem_nth f state type arr i :
  nth_error (fst (updateInstancedSystem true f state type arr)) i
  = option_map (fun item => fst (updateItem f state type i item)) (nth_error arr i)
  /\ exists matrices,
       snd (updateInstancedSystem true f state type arr) = Some matrices
       /\ nth_error matrices i
          = option_map (fun item => snd (updateItem f state type i item)) (nth_error arr i).
Proof.
  unfold updateInstancedSystem. simpl. split.
  - rewrite nth_error_map, updateLoop_nth. now destruct (nth_error arr i).
  - eexists. split; [reflexivity|].
    rewrite nth_error_map, updateLoop_nth. now destruct (nth_error arr i).
Qed.

(** The easing step contracts the distance to what the target denotes. *)
Lemma ease_contracts f target cur :
  distanceTo (ease f target cur) (deref target (ease f target cur))
  = (1 - speed f) * distanceTo cur (deref target cur).
Proof.
  destruct target as [v|]; unfold ease; simpl.
  - apply Vec3Facts.distanceTo_lerp, speed_range.
  - rewrite !Vec3Facts.distanceTo_self. ring.
Qed.
End ParticleFacts.

Module ParticleClaims.
Import Vec3 Particles ParticleFacts Samples.
Local Open Scope R_scope.

Lemma cycle_defined (arr : list Vec3.t) (i : nat) :
  arr <> [] -> exists p, cycle arr i = Some p.
Proof.
  intros Hne. unfold cycle.
  destruct (nth_error arr (i mod List.length arr)) as [p|] eqn:E; [now exists p|].
  apply nth_error_None in E.
  assert (List.length arr <> 0%nat) by (destruct arr; simpl; congruence).
  pose proof (Nat.mod_upper_bound i (List.length arr)). lia.
Qed.

Lemma nonempty_length (arr : list Vec3.t) :
  arr <> [] -> (0 <? List.length arr)%nat = true.
Proof. destruct arr; [congruence|reflexivity]. Qed.

Lemma restingItem_nudged :
  repel draggedFrame TREE (currentPos restingItem) = mk (12 / 10) 0 0.
Proof.
  assert (Hsq : (1 - 0) * (1 - 0) + (0 - 0) * (0 - 0) + (0 - 0) * (0 - 0) = 1) by ring.
  unfold repel, repelledFrom, draggedFrame, restingItem, unitX, zero3; simpl.
  unfold distanceTo, distanceToSquared; simpl. rewrite Hsq, sqrt_1.
  destruct (Rlt_dec 1 18) as [_|Hn]; [|exfalso; lra].
  unfold normalize, length, sub, divideScalar, multiplyScalar, add; simpl.
  rewrite Hsq, sqrt_1.
  destruct (Req_dec_T 1 0) as [H0|_]; [exfalso; lra|].
  f_equal; lra.
Qed.

Lemma restingItem_after :
  currentPos (fst (updateItem draggedFrame TREE emerald 0 restingItem)) = mk (119 / 100) 0 0.
Proof.
  rewrite currentPos_updateItem, restingItem_nudged.
  unfold ease, speed, lerp; simpl. f_equal; lra.
Qed.

(** C2, as stated, fails.  A particle rests on its tree target (distance 0)
    while a finger is dragged one unit away from it: the nudge pushes it 0.2
    further out and the easing takes back only a twentieth, so after the tick
    it is 0.19 away from the target it sat on. *)
Lemma repulsion_moves_resting_particle_away :
  let item' := fst (updateItem draggedFrame TREE emerald 0 restingItem) in
  resolveTarget draggedFrame TREE emerald 0 restingItem = Some unitX
  /\ distanceTo (currentPos restingItem) unitX = 0
  /\ distanceTo (currentPos item') unitX = 19 / 100
  /\ ~ distanceTo (currentPos item') unitX <= distanceTo (currentPos restingItem) unitX.
Proof.
  assert (Hbefore : distanceTo (currentPos restingItem) unitX = 0)
    by apply Vec3Facts.distanceTo_self.
  assert (Hafter : distanceTo (mk (119 / 100) 0 0) unitX = 19 / 100).
  { unfold distanceTo, distanceToSquared, unitX; simpl.
    replace ((119 / 100 - 1) * (119 / 100 - 1) + (0 - 0) * (0 - 0) + (0 - 0) * (0 - 0))
      with ((19 / 100) * (19 / 100)) by field.
    apply sqrt_square; lra. }
  cbv zeta. rewrite restingItem_after, Hbefore, Hafter.
  repeat split; try reflexivity. lra.
Qed.

(** C2, amended.  In a tick where no repulsion nudge applies to the particle
    (no repulsion point, a mode other than TREE, an epic sequence running, or
    the point 18 units or more away), the distance to the resolved target
    after the tick is [1 - rate] times the distance before it, hence never
    larger. *)
Theorem easing_without_nudge_never_overshoots f state type i item :
  repelledFrom f state (currentPos item) = None ->
  let target := guardTarget (resolveTarget f state type i item) in
  let before := currentPos item in
  let after := currentPos (fst (updateItem f state type i item)) in
  distanceTo after (deref target after) = (1 - speed f) * distanceTo before (deref target before)
  /\ distanceTo after (deref target after) <= distanceTo before (deref target before).
Proof.
  intros Hfree target before after.
  assert (Heq : distanceTo after (deref target after)
                = (1 - speed f) * distanceTo before (deref target before)).
  { subst after. rewrite currentPos_updateItem. fold target.
    rewrite ease_contracts. unfold repel. rewrite Hfree. reflexivity. }
  split; [exact Heq|]. rewrite Heq.
  pose proof (speed_range f). pose proof (Vec3Facts.distanceTo_nonneg before (deref target before)).
  nra.
Qed.

Lemma easing_without_nudge_never_overshoots_witness :
  repelledFrom idleFrame SCATTER (currentPos restingItem) = None
  /\ distanceTo (currentPos (fst (updateItem idleFrame SCATTER emerald 0 restingItem)))
                (mk 0 40 0)
     <= distanceTo (currentPos restingItem) (mk 0 40 0).
Proof.
  split; [reflexivity|].
  exact (proj2 (easing_without_nudge_never_overshoots idleFrame SCATTER emerald 0 restingItem
                  eq_refl)).
Defined.

(** *** Target resolution *)

Lemma resolveTarget_idle f state type i item :
  formingText f = false -> resolveTarget f state type i item = modeTarget state item.
Proof.
  intros Hf. unfold resolveTarget. rewrite Hf. simpl. now destruct (textTargets f).
Qed.

Lemma resolveTarget_glyph f state type i item clouds arr :
  formingText f = true -> textTargets f = Some clouds ->
  glyphCloud type clouds = Some arr -> arr <> [] ->
  resolveTarget f state type i item = cycle arr i.
Proof.
  intros Hf Ht Hc Hne. unfold resolveTarget. rewrite Ht, Hf.
  destruct type; simpl in *; inversion Hc; subst;
    now rewrite (nonempty_length _ Hne).
Qed.

Lemma resolveTarget_no_glyph f state type i item :
  (textTargets f = None
   \/ exists clouds, textTargets f = Some clouds
        /\ (glyphCloud type clouds = None \/ glyphCloud type clouds = Some [])) ->
  resolveTarget f state type i item = modeTarget state item.
Proof.
  unfold resolveTarget. intros [Ht | (clouds & Ht & Hc)]; rewrite Ht; [reflexivity|].
  destruct (formingText f); [|reflexivity].
  destruct type; simpl in *; destruct Hc as [Hc|Hc]; inversion Hc as [Hc'];
    try rewrite Hc'; reflexivity.
Qed.

(** C5, as stated, fails.  At the closed end of the interval: with the epic
    timer at exactly 4 seconds and the gold cloud scanned, gold particle 0 is
    not sent towards glyph point 0 at rate 0.08, it stays with its tree
    position.  And inside the interval: at 8 seconds, when the clouds were
    never scanned, the same particle eases at 0.08 towards the scatter
    position the display mode selects, there being no glyph point to go to. *)
Lemma text_formation_needs_open_interval_and_clouds :
  let f := epicFrame 4.0%float in
  let item' := fst (updateItem f TREE gold 0 restingItem) in
  let unscanned := {| isEpic := true; epicTime := 8.0%float; repelPos := None;
                      textTargets := None; worldToLocal := fun p => p |} in
  (spec_textInterval f = true
   /\ participatesInText gold = true
   /\ cycle (tt_gold oneGlyph) 0 = Some glyphPoint
   /\ currentPos item' = currentPos restingItem
   /\ currentPos item' <> lerp (currentPos restingItem) glyphPoint (8 / 100))
  /\ (spec_textInterval unscanned = true
      /\ formingText unscanned = true
      /\ resolveTarget unscanned SCATTER gold 0 restingItem = scatterPos restingItem
      /\ currentPos (fst (updateItem unscanned SCATTER gold 0 restingItem))
         = lerp (currentPos restingItem) (mk 0 40 0) (8 / 100)).
Proof.
  cbv zeta.
  assert (Hpos : currentPos (fst (updateItem (epicFrame 4.0%float) TREE gold 0 restingItem))
                 = currentPos restingItem).
  { rewrite currentPos_updateItem, repel_epic by reflexivity.
    rewrite resolveTarget_idle by reflexivity.
    unfold ease. simpl. apply Vec3Facts.lerp_self. }
  split.
  - split; [reflexivity|]. split; [reflexivity|]. split; [reflexivity|].
    split; [exact Hpos|].
    rewrite Hpos. unfold lerp, restingItem, glyphPoint, unitX; simpl.
    intros H. injection H as Hx _ _. lra.
  - split; [reflexivity|]. split; [reflexivity|]. split; reflexivity.
Qed.

(** C5, amended.  While [isEpic] holds and the epic timer is strictly between
    4 and 16 seconds, a particle of index [i] whose group has a non-empty
    glyph cloud (gold its own, silver and gem the silver one) resolves its
    target to point [i mod n] of that cloud and eases towards it at rate
    0.08; in that interval every other particle (a group without cloud, the
    clouds not scanned, or an empty cloud) keeps the position selected by the
    display mode and eases at 0.08 too.  Outside the interval every particle
    resolves the position selected by the display mode ([treePos] in TREE,
    [scatterPos] in SCATTER and ZOOM; itself if that is undefined) and, after
    the repulsion nudge if one applies, eases towards it at rate 0.05. *)
Theorem text_formation_targets f state type i item :
  let after := currentPos (fst (updateItem f state type i item)) in
  let modePos cur := deref (guardTarget (modeTarget state item)) cur in
  (formingText f = true ->
     (forall clouds arr,
        textTargets f = Some clouds -> glyphCloud type clouds = Some arr -> arr <> [] ->
        exists p, nth_error arr (i mod List.length arr) = Some p
                  /\ after = lerp (currentPos item) p (8 / 100))
     /\ ((textTargets f = None
          \/ exists clouds, textTargets f = Some clouds
               /\ (glyphCloud type clouds = None \/ glyphCloud type clouds = Some [])) ->
         after = lerp (currentPos item) (modePos (currentPos item)) (8 / 100)))
  /\ (formingText f = false ->
       let nudged := repel f state (currentPos item) in
       after = lerp nudged (modePos nudged) (5 / 100)).
Proof.
  cbv zeta. split.
  - intros Hf. pose proof (formingText_isEpic f Hf) as He. split.
    + intros clouds arr Ht Hc Hne.
      destruct (cycle_defined arr i Hne) as [p Hp]. exists p. split; [exact Hp|].
      rewrite currentPos_updateItem, (repel_epic f state _ He).
      rewrite (resolveTarget_glyph f state type i item clouds arr Hf Ht Hc Hne), Hp.
      unfold ease, speed. rewrite Hf. reflexivity.
    + intros Hno.
      rewrite currentPos_updateItem, (repel_epic f state _ He).
      rewrite (resolveTarget_no_glyph f state type i item Hno).
      unfold ease, speed. rewrite Hf. reflexivity.
  - intros Hf. rewrite currentPos_updateItem, (resolveTarget_idle f state type i item Hf).
    unfold ease, speed. rewrite Hf. reflexivity.
Qed.

Lemma text_formation_targets_witness :
  formingText (epicFrame 8.0%float) = true
  /\ (exists p, nth_error [glyphPoint] (3 mod 1) = Some p
        /\ currentPos (fst (updateItem (epicFrame 8.0%float) TREE gem 3 restingItem))
           = lerp (currentPos restingItem) p (8 / 100))
  /\ formingText idleFrame = false
  /\ currentPos (fst (updateItem idleFrame ZOOM gem 3 restingItem))
     = lerp (currentPos restingItem) (mk 0 40 0) (5 / 100).
Proof.
  split; [reflexivity|]. split.
  - exact (proj1 (proj1 (text_formation_targets (epicFrame 8.0%float) TREE gem 3 restingItem)
                    eq_refl)
             oneGlyph [glyphPoint] eq_refl eq_refl ltac:(discriminate)).
  - split; [reflexivity|].
    exact (proj2 (text_formation_targets idleFrame ZOOM gem 3 restingItem) eq_refl).
Defined.

(** *** The guard on an undefined target *)

(** C8.  When the resolved target is undefined, the guard makes [target]
    the particle's own position: the easing step then leaves the position as
    it found it (after the repulsion nudge, if one applied), and the position
    written to the instance matrix is that same, defined, vector. *)
Theorem undefined_target_keeps_position f state type i item :
  resolveTarget f state type i item = None ->
  let nudged := repel f state (currentPos item) in
  let result := updateItem f state type i item in
  guardTarget (resolveTarget f state type i item) = SameAsCurrent
  /\ ease f SameAsCurrent nudged = nudged
  /\ currentPos (fst result) = nudged
  /\ t_position (snd result) = nudged
  /\ (repelledFrom f state (currentPos item) = None ->
      currentPos (fst result) = currentPos item
      /\ t_position (snd result) = currentPos item).
Proof.
  intros Hnone nudged result.
  assert (Hease : ease f SameAsCurrent nudged = nudged)
    by (unfold ease; simpl; apply Vec3Facts.lerp_self).
  assert (Hpos : currentPos (fst result) = nudged).
  { subst result. rewrite currentPos_updateItem, Hnone. exact Hease. }
  assert (Hmat : t_position (snd result) = nudged).
  { unfold result. rewrite position_updateItem. exact Hpos. }
  repeat split.
  - now rewrite Hnone.
  - exact Hease.
  - exact Hpos.
  - exact Hmat.
  - rewrite Hpos. unfold nudged, repel. now rewrite H.
  - rewrite Hmat. unfold nudged, repel. now rewrite H.
Qed.

Lemma undefined_target_keeps_position_witness :
  resolveTarget idleFrame TREE trunk 7 orphanItem = None
  /\ currentPos (fst (updateItem idleFrame TREE trunk 7 orphanItem)) = unitX
  /\ t_position (snd (updateItem idleFrame TREE trunk 7 orphanItem)) = unitX.
Proof.
  split; [reflexivity|].
  pose proof (undefined_target_keeps_position idleFrame TREE trunk 7 orphanItem eq_refl) as H.
  cbv zeta in H. destruct H as (_ & _ & _ & _ & H).
  exact (H eq_refl).
Defined.
End ParticleClaims.

(** ** The gesture engine and the epic sequence *)

Module EngineFacts.
Import Scene Engine Runs.
Local Open Scope float_scope.

(** Destructs the tests a handler branches on, one after the other. *)
Ltac branches :=
  repeat match goal with
         | |- context [if ?b then _ else _] => destruct b eqn:?
         | |- context [match ?x with _ => _ end] => destruct x eqn:?
         end.

#[local] Hint Constructors viewStep : core.

Lemma triggerEpicSequence_latched s :
  hasTriggeredEpic s = true -> triggerEpicSequence s = s.
Proof. intros H. unfold triggerEpicSequence. now rewrite H. Qed.

Lemma triggerEpicSequence_view s :
  viewStep (epicView s) (epicView (triggerEpicSequence s)).
Proof.
  unfold triggerEpicSequence, epicView, playWeWishYou.
  destruct (hasTriggeredEpic s) eqn:Hl; [rewrite Hl; constructor|].
  simpl. rewrite Nat.add_1_r.
  destruct (soundEnabled s) eqn:Hs; simpl.
  - apply (view_trigger _ _ _ true).
  - apply (view_trigger _ _ _ false).
Qed.

(** *** One call of [predictWebcam] *)

Lemma predictWebcam_classifies v s landmarks :
  classifies v s = Some landmarks ->
  predictWebcam v s = classify landmarks (random v) (stamped v s).
Proof.
  unfold classifies, predictWebcam, detect. intros H.
  destruct (landmarkerReady v); simpl in *; [|discriminate].
  destruct (videoLoaded v); simpl in *; [|discriminate].
  destruct (PrimFloat.ltb (now v - lastPredictionTime s) 100); simpl in *; [discriminate|].
  destruct (PrimFloat.eqb (currentTime v) (lastVideoTime s)); simpl in *; [discriminate|].
  destruct (inputModeRef s); [discriminate|].
  destruct (detection v) as [| |[|l ?]]; try discriminate.
  destruct (List.length l <? 21)%nat; [discriminate|].
  now inversion H.
Qed.

Lemma Branch_eqb_eq a b : Branch_eqb a b = true -> a = b.
Proof. destruct a, b; simpl; congruence. Qed.

Lemma classifiesAs_spec b v s :
  classifiesAs b v s = true ->
  exists landmarks, classifies v s = Some landmarks /\ Hand.branch landmarks = b.
Proof.
  unfold classifiesAs. destruct (classifies v s) as [l|]; [|discriminate].
  intros H. exists l. split; [reflexivity|now apply Branch_eqb_eq].
Qed.

Lemma classify_view landmarks r s :
  viewStep (epicView s) (epicView (classify landmarks r s)).
Proof.
  unfold classify.
  destruct (Hand.branch landmarks); cbv zeta;
    try (unfold playBellSound, playJingleBells; branches; simpl; unfold epicView; simpl;
         constructor).
  destruct (PrimFloat.ltb 2.0 _ && negb _) eqn:Hgo.
  - pose proof (triggerEpicSequence_view
                  (set_victoryTimer (victoryTimer (gestureState s) + 0.1) s)) as H.
    exact H.
  - constructor.
Qed.

Lemma predictWebcam_view v s :
  viewStep (epicView s) (epicView (predictWebcam v s)).
Proof.
  unfold predictWebcam, detect.
  branches; try constructor.
  apply (classify_view _ _ (set_lastVideoTime _ (set_lastPredictionTime _ s))).
Qed.

(** *** One animation frame *)

Lemma starHold_view k s : viewStep (epicView s) (epicView (starHold k s)).
Proof.
  unfold starHold. branches; try constructor.
  apply (triggerEpicSequence_view (setHoldProgress _ s)).
Qed.

Lemma epicStep_view s : viewStep (epicView s) (epicView (epicStep s)).
Proof.
  unfold epicStep, epicView. destruct (isEpicSequence s) eqn:He; [|rewrite He; constructor].
  simpl. destruct (PrimFloat.ltb 18.0 _); simpl; rewrite ?He; constructor.
Qed.

Lemma shakeStep_view s : epicView (shakeStep s) = epicView s.
Proof. unfold shakeStep. now branches. Qed.

Lemma updateParticles_view g state s : epicView (updateParticles g state s) = epicView s.
Proof. reflexivity. Qed.

Lemma animate_view k s : viewSteps (epicView s) (epicView (animate k s)).
Proof.
  unfold animate. destruct (group k) as [g|].
  - rewrite updateParticles_view, shakeStep_view.
    eapply rt_trans; [apply rt_step, predictWebcam_view|].
    eapply rt_trans; [apply rt_step, starHold_view|].
    apply rt_step, epicStep_view.
  - apply rt_step, predictWebcam_view.
Qed.

(** *** The other handlers leave the epic sequence alone *)

Lemma handleTouch_view e type s : epicView (handleTouch e type s) = epicView s.
Proof.
  unfold handleTouch, onStart, onMove, onEnd, handlePhotoClick, playBellSound, playJingleBells.
  now branches.
Qed.

Lemma mirrorEffect_view s : epicView (mirrorEffect s) = epicView s.
Proof. unfold mirrorEffect. now branches. Qed.

Lemma commit_view s : epicView (commit s) = epicView s.
Proof. unfold commit. destruct (AppState_eqb _ _); [reflexivity|apply mirrorEffect_view]. Qed.

Lemma step_view ev s : viewSteps (epicView s) (epicView (step ev s)).
Proof.
  unfold step. rewrite commit_view. destruct ev; simpl.
  - apply animate_view.
  - rewrite handleTouch_view. apply rt_refl.
  - destruct (AppState_eqb _ _); apply rt_refl.
  - rewrite mirrorEffect_view. apply rt_refl.
  - rewrite mirrorEffect_view. apply rt_refl.
  - apply rt_refl.
Qed.

Lemma run_view evs s : viewSteps (epicView s) (epicView (run evs s)).
Proof.
  revert s. induction evs as [|ev evs IH]; intros s; simpl.
  - apply rt_refl.
  - eapply rt_trans; [apply step_view|apply IH].
Qed.

(** *** The invariant of the epic sequence *)

Lemma viewStep_inv v w : viewStep v w -> viewInv v -> viewInv w.
Proof.
  intros Hstep. destruct Hstep as [v|epic n c sound|latched n c]; [easy| |].
  - intros (_ & Hn & Hc). simpl in *. subst n.
    repeat split. destruct sound; lia.
  - intros (_ & Hn & Hc). simpl. repeat split; [discriminate|exact Hn|exact Hc].
Qed.

Lemma viewSteps_inv v w : viewSteps v w -> viewInv v -> viewInv w.
Proof.
  induction 1 as [v w H| |v u w _ IH1 _ IH2]; intros Hv.
  - exact (viewStep_inv v w H Hv).
  - exact Hv.
  - apply IH2, IH1, Hv.
Qed.

Lemma initial_inv data : viewInv (epicView (initial data)).
Proof. repeat split; [discriminate|apply Nat.le_0_l]. Qed.

Lemma reachable_inv data evs : viewInv (epicView (run evs (initial data))).
Proof. exact (viewSteps_inv _ _ (run_view evs (initial data)) (initial_inv data)). Qed.

(** *** The branches of the chain *)

Lemma classify_victory landmarks r s :
  Hand.branch landmarks = Hand.Victory ->
  holdState (classify landmarks r s) = victoryTick (holdState s)
  /\ threeTimer (gestureState (classify landmarks r s)) = threeTimer (gestureState s)
  /\ appState (classify landmarks r s) = appState s.
Proof.
  intros Hb. unfold classify. rewrite Hb. cbv zeta. unfold holdState, victoryTick.
  simpl.
  destruct (PrimFloat.ltb 2.0 (victoryTimer (gestureState s) + 0.1)); simpl.
  - destruct (isEpicSequence s) eqn:He; simpl.
    + rewrite He. repeat split.
    + unfold triggerEpicSequence, playWeWishYou. simpl.
      destruct (hasTriggeredEpic s) eqn:Hl; simpl.
      * rewrite He, Hl. repeat split.
      * destruct (soundEnabled s); simpl; repeat split.
  - repeat split.
Qed.

Lemma classify_tracing landmarks r s :
  Hand.branch landmarks = Hand.Tracing ->
  gestureState (classify landmarks r s)
  = {| isPinching := false; victoryTimer := 0; threeTimer := 0 |}
  /\ isEpicSequence (classify landmarks r s) = isEpicSequence s
  /\ hasTriggeredEpic (classify landmarks r s) = hasTriggeredEpic s.
Proof. intros Hb. unfold classify. rewrite Hb. repeat split. Qed.

Lemma classify_fist_open landmarks r s :
  Hand.branch landmarks = Hand.Fist \/ Hand.branch landmarks = Hand.Open ->
  gestureState (classify landmarks r s) = gestureState s.
Proof.
  intros [Hb|Hb]; unfold classify; rewrite Hb; cbv zeta; now branches.
Qed.

Lemma classify_pinch_timers landmarks r s :
  Hand.branch landmarks = Hand.Pinch ->
  victoryTimer (gestureState (classify landmarks r s)) = victoryTimer (gestureState s)
  /\ threeTimer (gestureState (classify landmarks r s)) = threeTimer (gestureState s)
  /\ isPinching (gestureState (classify landmarks r s)) = true.
Proof.
  intros Hb. unfold classify, playBellSound. rewrite Hb. cbv zeta. now branches.
Qed.

Lemma classify_three landmarks r s :
  Hand.branch landmarks = Hand.ThreeFinger ->
  victoryTimer (gestureState (classify landmarks r s)) = victoryTimer (gestureState s).
Proof.
  intros Hb. unfold classify, playJingleBells. rewrite Hb. cbv zeta. now branches.
Qed.

(** A pointing hand that does not pinch ends in the tracing branch. *)
Lemma pointing_is_tracing landmarks :
  Hand.isPointing landmarks = true -> Hand.isPinch landmarks = false ->
  Hand.branch landmarks = Hand.Tracing.
Proof.
  unfold Hand.isPointing, Hand.branch, Hand.isFist, Hand.isOpen, Hand.extendedCount,
    Hand.isVictory, Hand.isThreeFinger.
  intros Hp Hn. rewrite Hn.
  destruct (Hand.indexOpen landmarks), (Hand.midOpen landmarks), (Hand.ringOpen landmarks),
    (Hand.pinkyOpen landmarks), (Hand.thumbOpen landmarks); simpl in *;
    congruence.
Qed.
End EngineFacts.

Module EpicClaims.
Import Scene Engine Runs EngineFacts Samples.
Local Open Scope float_scope.

Lemma viewSteps_latched v w :
  viewSteps v w -> snd (fst (fst v)) = true ->
  snd (fst (fst w)) = true /\ snd (fst w) = snd (fst v) /\ snd w = snd v.
Proof.
  induction 1 as [v w H| |v u w _ IH1 _ IH2]; intros Hv.
  - destruct H; simpl in *; try discriminate; repeat split; assumption.
  - repeat split; exact Hv.
  - destruct (IH1 Hv) as (Hu & Hb & Hc). destruct (IH2 Hu) as (Hw & Hb' & Hc').
    repeat split; congruence.
Qed.

(** C4.  In every scene the component can reach, a call of
    [triggerEpicSequence] made while the sequence is active, or once the
    latch is set, returns the scene as it was: the epic timer is not reset,
    the blessing counter is not incremented and the melody is not started
    again. *)
Theorem triggerEpicSequence_single_flight data evs :
  let s := run evs (initial data) in
  isEpicSequence s = true \/ hasTriggeredEpic s = true ->
  triggerEpicSequence s = s
  /\ epicTimer (triggerEpicSequence s) = epicTimer s
  /\ blessingCount (triggerEpicSequence s) = blessingCount s
  /\ audioLog (triggerEpicSequence s) = audioLog s.
Proof.
  intros s Hactive.
  assert (Hlatched : hasTriggeredEpic s = true).
  { destruct Hactive as [He|Hl]; [|exact Hl].
    destruct (reachable_inv data evs) as (Hinv & _). exact (Hinv He). }
  rewrite (triggerEpicSequence_latched s Hlatched). repeat split.
Qed.

Lemma triggerEpicSequence_single_flight_witness :
  let s := run victoryHeld (initial noParticles) in
  (isEpicSequence s = true \/ hasTriggeredEpic s = true)
  /\ triggerEpicSequence s = s.
Proof.
  intros s.
  assert (H : isEpicSequence s = true \/ hasTriggeredEpic s = true)
    by (left; vm_compute; reflexivity).
  split; [exact H|].
  exact (proj1 (triggerEpicSequence_single_flight noParticles victoryHeld H)).
Defined.

(** C10.  Along every execution from the initial scene the blessing counter
    is incremented at most once and the melody of the epic sequence is
    started at most once; once the latch is set it stays set through every
    later event, the deactivation of the sequence included, and the counter
    and the melody count no longer move. *)
Theorem epic_sequence_takes_effect_at_most_once data evs :
  let s := run evs (initial data) in
  (blessingCount s <= 1)%nat
  /\ (countCue WeWishYou (audioLog s) <= 1)%nat
  /\ hasTriggeredEpic (epicStep s) = hasTriggeredEpic s
  /\ forall more,
       hasTriggeredEpic s = true ->
       hasTriggeredEpic (run more s) = true
       /\ blessingCount (run more s) = blessingCount s
       /\ countCue WeWishYou (audioLog (run more s)) = countCue WeWishYou (audioLog s).
Proof.
  intros s.
  destruct (reachable_inv data evs) as (_ & Hn & Hc). fold s in Hn, Hc.
  repeat split.
  - rewrite Hn. destruct (hasTriggeredEpic s); lia.
  - destruct (hasTriggeredEpic s); lia.
  - unfold epicStep. now branches.
  - destruct (viewSteps_latched _ _ (run_view more s) H) as (Hl & _). exact Hl.
  - destruct (viewSteps_latched _ _ (run_view more s) H) as (_ & Hb & _). exact Hb.
  - destruct (viewSteps_latched _ _ (run_view more s) H) as (_ & _ & Hm). exact Hm.
Qed.

(** In binary64 the timer steps over 4 without ever being equal to it: it
    is below 4 after 249 frames and above 4 after 250. *)
Example epic_timer_steps_over_four :
  let started := triggerEpicSequence cameraScene in
  PrimFloat.ltb (epicTimer (Nat.iter 249 epicStep started)) 4.0 = true
  /\ PrimFloat.ltb 4.0 (epicTimer (Nat.iter 250 epicStep started)) = true.
Proof. vm_compute. auto. Qed.

(** The timeline in frames: the sequence started by a trigger is still
    active after 1125 frames and is ended, with TREE forced, by frame 1126,
    the first whose timer exceeds 18. *)
Example sequence_ends_in_frame_1126 :
  let started := triggerEpicSequence (setAppState SCATTER cameraScene) in
  isEpicSequence (Nat.iter 1125 epicStep started) = true
  /\ appState (Nat.iter 1125 epicStep started) = SCATTER
  /\ isEpicSequence (Nat.iter 1126 epicStep started) = false
  /\ appState (Nat.iter 1126 epicStep started) = TREE
  /\ hasTriggeredEpic (Nat.iter 1126 epicStep started) = true.
Proof. vm_compute. auto. Qed.
End EpicClaims.

Module GestureClaims.
Import Scene Engine Runs EngineFacts Samples.
Local Open Scope float_scope.

(** *** Effects of a classifying call *)

Lemma victory_call v s :
  classifiesAs Hand.Victory v s = true ->
  holdState (predictWebcam v s) = victoryTick (holdState s).
Proof.
  intros H. destruct (classifiesAs_spec _ _ _ H) as (l & Hc & Hb).
  rewrite (predictWebcam_classifies v s l Hc).
  destruct (classify_victory l (random v) (stamped v s) Hb) as (Hh & _).
  rewrite Hh. reflexivity.
Qed.

Lemma tracing_call v s :
  classifiesAs Hand.Tracing v s = true ->
  holdState (predictWebcam v s) = (0, isEpicSequence s, hasTriggeredEpic s)
  /\ threeTimer (gestureState (predictWebcam v s)) = 0.
Proof.
  intros H. destruct (classifiesAs_spec _ _ _ H) as (l & Hc & Hb).
  rewrite (predictWebcam_classifies v s l Hc).
  destruct (classify_tracing l (random v) (stamped v s) Hb) as (Hg & He & Hl).
  unfold holdState. rewrite Hg, He, Hl. split; reflexivity.
Qed.

Lemma victoryTick_from_rest epic latched :
  victoryTick (0, epic, latched) = (0.1, epic, latched).
Proof. reflexivity. Qed.

(** *** Runs of victories *)





(** In binary64 the sum of twenty increments of 0.1 already exceeds 2.0:
    the twentieth victory classification in a row starts the sequence. *)
Example twentieth_victory_starts_the_sequence :
  crosses (runWebcam (burst 18 1000 100 victoryHand) cameraScene) = false
  /\ crosses (runWebcam (burst 19 1000 100 victoryHand) cameraScene) = true
  /\ isEpicSequence (runWebcam (burst 19 1000 100 victoryHand) cameraScene) = false
  /\ holdState (runWebcam (burst 20 1000 100 victoryHand) cameraScene) = (0, true, true)
  /\ blessingCount (runWebcam (burst 20 1000 100 victoryHand) cameraScene) = 1%nat.
Proof. vm_compute. auto. Qed.

(** *** Whole executions, up to the threshold *)

Lemma predictWebcam_idle v s :
  classifies v s = None -> gestureState (predictWebcam v s) = gestureState s.
Proof.
  unfold classifies, predictWebcam, detect.
  destruct (landmarkerReady v); simpl; [|reflexivity].
  destruct (inputModeRef s); [reflexivity|].
  destruct (videoLoaded v); simpl; [|reflexivity].
  destruct (PrimFloat.ltb (now v - lastPredictionTime s) 100); simpl; [reflexivity|].
  destruct (PrimFloat.eqb (currentTime v) (lastVideoTime s)); simpl; [reflexivity|].
  destruct (detection v) as [| |[|l ?]]; try reflexivity.
  destruct (List.length l <? 21)%nat; [reflexivity|discriminate].
Qed.

Lemma frame_rest_gestureState k s :
  gestureState (animate k s) = gestureState (predictWebcam (video k) s).
Proof.
  unfold animate. destruct (group k) as [g|]; [|reflexivity].
  unfold updateParticles, shakeStep, epicStep, starHold, triggerEpicSequence, playWeWishYou.
  now branches.
Qed.

Lemma commit_gestureState s : gestureState (commit s) = gestureState s.
Proof. unfold commit, mirrorEffect. now branches. Qed.

Lemma step_idle ev s :
  eventClassifies ev s = None -> gestureState (step ev s) = gestureState s.
Proof.
  intros H. unfold step. rewrite commit_gestureState. destruct ev; simpl in *.
  - rewrite frame_rest_gestureState. now apply predictWebcam_idle.
  - unfold handleTouch, onStart, onMove, onEnd, handlePhotoClick, playBellSound,
      playJingleBells. now branches.
  - now destruct (AppState_eqb _ _).
  - unfold mirrorEffect. now branches.
  - unfold mirrorEffect. now branches.
  - reflexivity.
Qed.

Lemma step_victory ev s landmarks :
  eventClassifies ev s = Some landmarks ->
  Hand.branch landmarks = Hand.Victory ->
  PrimFloat.ltb 2.0 (victoryTimer (gestureState s) + 0.1) = false ->
  victoryTimer (gestureState (step ev s)) = victoryTimer (gestureState s) + 0.1.
Proof.
  intros Hc Hb Hlow. unfold step. rewrite commit_gestureState.
  destruct ev as [k| | | | |]; simpl in Hc; try discriminate. simpl.
  rewrite frame_rest_gestureState, (predictWebcam_classifies _ _ _ Hc).
  destruct (classify_victory landmarks (random (video k)) (stamped (video k) s) Hb)
    as (Hh & _).
  unfold holdState, victoryTick in Hh. simpl in Hh. rewrite Hlow in Hh. simpl in Hh.
  now injection Hh.
Qed.

(** X1.  Below the threshold the victory timer counts classification calls,
    in any execution: frames that classify nothing, touches, overlay events and
    the timeline of the epic sequence leave it alone.  So from a given start
    value the call that first takes it past 2.0 has the same number whatever
    happens, and however long it takes, between the calls. *)
Lemma victory_timer_counts_calls_below_threshold evs : forall s,
  victoriesOnly evs s = true ->
  (forall j, (1 <= j <= classifications evs s)%nat ->
             PrimFloat.ltb 2.0 (increments j (victoryTimer (gestureState s))) = false) ->
  victoryTimer (gestureState (run evs s))
  = increments (classifications evs s) (victoryTimer (gestureState s)).
Proof.
  induction evs as [|ev evs IH]; intros s Hq Hlow; simpl in *; [reflexivity|].
  apply andb_prop in Hq as [Hev Hrest].
  destruct (eventClassifies ev s) as [l|] eqn:Hc.
  - apply Branch_eqb_eq in Hev.
    assert (H1 : PrimFloat.ltb 2.0 (victoryTimer (gestureState s) + 0.1) = false)
      by (apply (Hlow 1%nat); lia).
    pose proof (step_victory ev s l Hc Hev H1) as Hstep.
    rewrite (IH (step ev s) Hrest).
    + simpl. now rewrite Hstep.
    + intros j Hj. rewrite Hstep. apply (Hlow (S j)). lia.
  - pose proof (step_idle ev s Hc) as Hstep. simpl.
    rewrite (IH (step ev s) Hrest).
    + now rewrite Hstep.
    + intros j Hj. rewrite Hstep. apply Hlow. simpl in Hj. exact Hj.
Qed.

Lemma victory_timer_counts_calls_below_threshold_witness :
  let slow := ToggleInputMode :: frames (burst 10 1000 100 victoryHand
                                         ++ burst 40 1950 0 restHand
                                         ++ burst 9 5000 700 victoryHand) in
  let fast := ToggleInputMode :: frames (burst 19 1000 100 victoryHand) in
  victoriesOnly slow freshScene = true
  /\ classifications slow freshScene = 19%nat
  /\ classifications fast freshScene = 19%nat
  /\ victoryTimer (gestureState (run slow freshScene)) = increments 19 0
  /\ victoryTimer (gestureState (run fast freshScene)) = increments 19 0.
Proof.
  intros slow fast.
  assert (Hs : victoriesOnly slow freshScene = true) by (vm_compute; reflexivity).
  assert (Hf : victoriesOnly fast freshScene = true) by (vm_compute; reflexivity).
  assert (Ns : classifications slow freshScene = 19%nat) by (vm_compute; reflexivity).
  assert (Nf : classifications fast freshScene = 19%nat) by (vm_compute; reflexivity).
  assert (Hlow : forall j, (1 <= j <= 19)%nat ->
                   PrimFloat.ltb 2.0 (increments j 0) = false).
  { intros j Hj.
    assert (Hin : In j (seq 1 19)) by (apply in_seq; lia).
    revert Hin. generalize j.
    apply Forall_forall. repeat (constructor; [vm_compute; reflexivity|]). constructor. }
  pose proof (victory_timer_counts_calls_below_threshold slow freshScene Hs) as Ts.
  pose proof (victory_timer_counts_calls_below_threshold fast freshScene Hf) as Tf.
  rewrite Ns in Ts. rewrite Nf in Tf.
  exact (conj Hs (conj Ns (conj Nf (conj (Ts Hlow) (Tf Hlow))))).
Defined.

(** *** Victory and tracing taking turns *)

Lemma alternating_step (first : bool) v s :
  classifiesAs (if first then Hand.Victory else Hand.Tracing) v s = true ->
  (first = true -> victoryTimer (gestureState s) = 0) ->
  holdState (predictWebcam v s)
  = ((if first then 0.1 else 0), isEpicSequence s, hasTriggeredEpic s).
Proof.
  intros Hc H0. destruct first.
  - rewrite (victory_call v s Hc). unfold holdState. rewrite (H0 eq_refl).
    apply victoryTick_from_rest.
  - exact (proj1 (tracing_call v s Hc)).
Qed.

Lemma odd_turn k (first : bool) :
  Bool.eqb (Nat.odd (S k)) first = Bool.eqb (Nat.odd k) (negb first).
Proof.
  rewrite Nat.odd_succ, <- Nat.negb_odd. now destruct (Nat.odd k), first.
Qed.

Lemma alternating_holdState vs : forall (first : bool) s k,
  alternates first vs s = true ->
  (first = true -> victoryTimer (gestureState s) = 0) ->
  (1 <= k <= List.length vs)%nat ->
  holdState (runWebcam (firstn k vs) s)
  = ((if Bool.eqb (Nat.odd k) first then 0.1 else 0), isEpicSequence s, hasTriggeredEpic s).
Proof.
  induction vs as [|v vs IH]; intros first s k Halt H0 Hk; simpl in Hk; [lia|].
  destruct k as [|k]; [lia|]. simpl in Halt. apply andb_prop in Halt as [Hv Hrest].
  pose proof (alternating_step first v s Hv H0) as Hstep.
  change (firstn (S k) (v :: vs)) with (v :: firstn k vs).
  change (runWebcam (v :: firstn k vs) s) with (runWebcam (firstn k vs) (predictWebcam v s)).
  destruct k as [|k].
  - simpl. rewrite Hstep. now destruct first.
  - unfold holdState in Hstep. injection Hstep as Ht He Hl.
    rewrite (IH (negb first) (predictWebcam v s) (S k) Hrest).
    + now rewrite (odd_turn (S k) first), He, Hl.
    + intros Hf. destruct first; [discriminate|exact Ht].
    + lia.
Qed.

(** C7.  Along a run of classifications in which victory and tracing take
    turns, started with the timer at zero (or started by a tracing), the
    victory timer after the k-th call is 0.1 if that call was a victory and 0
    if it was a tracing: it never exceeds one increment, a tracing call
    leaves it at zero, and the epic sequence is never triggered. *)
Theorem alternating_victory_tracing_never_accumulates (first : bool) vs s :
  alternates first vs s = true ->
  (first = true -> victoryTimer (gestureState s) = 0) ->
  forall k, (1 <= k <= List.length vs)%nat ->
    let s' := runWebcam (firstn k vs) s in
    victoryTimer (gestureState s') = (if Bool.eqb (Nat.odd k) first then 0.1 else 0)
    /\ PrimFloat.leb (victoryTimer (gestureState s')) 0.1 = true
    /\ hasTriggeredEpic s' = hasTriggeredEpic s.
Proof.
  intros Halt H0 k Hk s'.
  pose proof (alternating_holdState vs first s k Halt H0 Hk) as H.
  fold s' in H. unfold holdState in H. injection H as Ht He Hl.
  split; [exact Ht|]. split; [|exact Hl].
  rewrite Ht. now destruct (Bool.eqb (Nat.odd k) first).
Qed.

Lemma alternating_victory_tracing_never_accumulates_witness :
  alternates true wavering cameraScene = true
  /\ victoryTimer (gestureState cameraScene) = 0
  /\ PrimFloat.leb (victoryTimer (gestureState (runWebcam (firstn 5 wavering) cameraScene)))
                    0.1 = true
  /\ victoryTimer (gestureState (runWebcam (firstn 4 wavering) cameraScene)) = 0.
Proof.
  assert (Halt : alternates true wavering cameraScene = true) by (vm_compute; reflexivity).
  assert (H0 : victoryTimer (gestureState cameraScene) = 0) by reflexivity.
  pose proof (alternating_victory_tracing_never_accumulates true wavering cameraScene
                Halt (fun _ => H0)) as T.
  assert (H5 : (1 <= 5 <= List.length wavering)%nat) by (simpl; lia).
  assert (H4 : (1 <= 4 <= List.length wavering)%nat) by (simpl; lia).
  exact (conj Halt (conj H0 (conj (proj1 (proj2 (T 5%nat H5))) (proj1 (T 4%nat H4))))).
Defined.

(** *** The pinch *)

Lemma randomIndex_range (r : Q) (n : nat) :
  (0 <= r)%Q -> (r < 1)%Q -> (0 < n)%nat ->
  (0 <= randomIndex r n < Z.of_nat n)%Z.
Proof.
  intros H0 H1 Hn. unfold randomIndex.
  assert (Hpos : (0 < inject_Z (Z.of_nat n))%Q).
  { change 0%Q with (inject_Z 0). rewrite <- Zlt_Qlt. lia. }
  split.
  - change 0%Z with (Qfloor 0). apply Qfloor_resp_le.
    apply Qmult_le_0_compat; [exact H0|apply Qlt_le_weak, Hpos].
  - rewrite Zlt_Qlt.
    apply Qle_lt_trans with (r * inject_Z (Z.of_nat n))%Q; [apply Qfloor_le|].
    setoid_replace (inject_Z (Z.of_nat n)) with (1 * inject_Z (Z.of_nat n))%Q at 2 by ring.
    apply Qmult_lt_compat_r; assumption.
Qed.

(** C9.  A classifying call that takes the pinch branch with the latch open.
    With no photo card it passes the warning to the status setter and then,
    in the same call, the chain's own pinch status: the status the call
    leaves (the head of the log) is the pinch status, and the warning, set
    under it, is never the status shown.  The display mode and the selected
    index are left alone.  With at least one photo card the call selects an
    index of the list and sets the display mode to ZOOM.  The call returns
    a scene in either case. *)
Theorem pinch_selects_a_photo_or_warns v s landmarks :
  classifies v s = Some landmarks ->
  Hand.branch landmarks = Hand.Pinch ->
  isPinching (gestureState s) = false ->
  let s' := predictWebcam v s in
  (photoMeshes s = 0%nat ->
     statusLog s'
     = StatusAI (Hand.isPointing landmarks) LPinch :: StatusNoPhotos :: statusLog s
     /\ appState s' = appState s
     /\ zoomTargetIndex s' = zoomTargetIndex s)
  /\ ((0 < photoMeshes s)%nat -> (0 <= random v)%Q -> (random v < 1)%Q ->
      appState s' = ZOOM
      /\ zoomTargetIndex s' = randomIndex (random v) (photoMeshes s)
      /\ (0 <= zoomTargetIndex s' < Z.of_nat (photoMeshes s))%Z).
Proof.
  intros Hc Hb Hlatch s'. subst s'.
  rewrite (predictWebcam_classifies v s landmarks Hc).
  unfold classify. rewrite Hb. cbv zeta.
  change (isPinching (gestureState (stamped v s))) with (isPinching (gestureState s)).
  change (photoMeshes (stamped v s)) with (photoMeshes s).
  rewrite Hlatch. simpl negb. cbv iota.
  split.
  - intros Hnone. rewrite Hnone. simpl. auto.
  - intros Hsome H0 H1.
    destruct (photoMeshes s) as [|n] eqn:Hn; [lia|].
    unfold playBellSound. simpl.
    destruct (soundEnabled s); simpl; rewrite Hn;
      (split; [reflexivity|split; [reflexivity|]]);
      apply randomIndex_range; assumption.
Qed.

Lemma pinch_selects_a_photo_or_warns_witness :
  let v := seen 1000 pinchHand in
  (classifies v cameraScene = Some pinchHand
   /\ Hand.branch pinchHand = Hand.Pinch
   /\ isPinching (gestureState cameraScene) = false
   /\ photoMeshes cameraScene = 0%nat
   /\ statusLog (predictWebcam v cameraScene)
      = StatusAI (Hand.isPointing pinchHand) LPinch :: StatusNoPhotos :: statusLog cameraScene
   /\ appState (predictWebcam v cameraScene) = appState cameraScene)
  /\ (classifies v galleryScene = Some pinchHand
      /\ isPinching (gestureState galleryScene) = false
      /\ (0 < photoMeshes galleryScene)%nat
      /\ (0 <= random v)%Q /\ (random v < 1)%Q
      /\ appState (predictWebcam v galleryScene) = ZOOM
      /\ (0 <= zoomTargetIndex (predictWebcam v galleryScene)
          < Z.of_nat (photoMeshes galleryScene))%Z).
Proof.
  intros v.
  assert (Hb : Hand.branch pinchHand = Hand.Pinch) by (vm_compute; reflexivity).
  split.
  - assert (Hc : classifies v cameraScene = Some pinchHand) by (vm_compute; reflexivity).
    assert (Hl : isPinching (gestureState cameraScene) = false) by reflexivity.
    assert (Hn : photoMeshes cameraScene = 0%nat) by reflexivity.
    pose proof (proj1 (pinch_selects_a_photo_or_warns v cameraScene pinchHand Hc Hb Hl) Hn)
      as (Hs & Ha & _).
    exact (conj Hc (conj Hb (conj Hl (conj Hn (conj Hs Ha))))).
  - assert (Hc : classifies v galleryScene = Some pinchHand) by (vm_compute; reflexivity).
    assert (Hl : isPinching (gestureState galleryScene) = false) by (vm_compute; reflexivity).
    assert (Hn : (0 < photoMeshes galleryScene)%nat)
      by (apply Nat.ltb_lt; vm_compute; reflexivity).
    assert (H0 : (0 <= random v)%Q) by (vm_compute; discriminate).
    assert (H1 : (random v < 1)%Q) by (vm_compute; reflexivity).
    pose proof (proj2 (pinch_selects_a_photo_or_warns v galleryScene pinchHand Hc Hb Hl)
                  Hn H0 H1) as (Ha & _ & Hr).
    exact (conj Hc (conj Hl (conj Hn (conj H0 (conj H1 (conj Ha Hr)))))).
Defined.

(** *** Which ticks reset the hold timers *)

(** C3, as stated, fails.  A victory classification followed by a fist
    classification: the gesture changed, and the victory timer still holds
    the 0.1 it had gathered. *)
Lemma fist_after_victory_keeps_the_timer :
  let s1 := predictWebcam (seen 1000 victoryHand) cameraScene in
  let s2 := predictWebcam (seen 1100 fistHand) s1 in
  classifiesAs Hand.Victory (seen 1000 victoryHand) cameraScene = true
  /\ classifiesAs Hand.Fist (seen 1100 fistHand) s1 = true
  /\ victoryTimer (gestureState s2) = 0.1
  /\ PrimFloat.eqb (victoryTimer (gestureState s2)) 0 = false.
Proof. vm_compute. auto. Qed.

(** C3, amended.  Both hold timers are set to zero (and the pinch latch is
    released) by every classification that falls through to the tracing
    branch, whatever the previous tick classified; a pointing hand that does
    not pinch is such a classification.  A fist or open-hand classification
    leaves the gesture state as it was, a pinch leaves both timers as they
    were, a victory leaves the three-finger timer and a three-finger
    classification the victory timer. *)
Theorem hold_timers_reset_by_tracing_only v s landmarks :
  classifies v s = Some landmarks ->
  let g := gestureState s in
  let g' := gestureState (predictWebcam v s) in
  match Hand.branch landmarks with
  | Hand.Tracing => victoryTimer g' = 0 /\ threeTimer g' = 0 /\ isPinching g' = false
  | Hand.Fist | Hand.Open => g' = g
  | Hand.Pinch => victoryTimer g' = victoryTimer g /\ threeTimer g' = threeTimer g
  | Hand.Victory => threeTimer g' = threeTimer g
  | Hand.ThreeFinger => victoryTimer g' = victoryTimer g
  end
  /\ (Hand.isPointing landmarks = true -> Hand.isPinch landmarks = false ->
      Hand.branch landmarks = Hand.Tracing).
Proof.
  intros Hc g g'. split; [|apply pointing_is_tracing].
  subst g g'. rewrite (predictWebcam_classifies v s landmarks Hc).
  change (gestureState s) with (gestureState (stamped v s)).
  destruct (Hand.branch landmarks) eqn:Hb.
  - apply classify_fist_open. now left.
  - apply classify_fist_open. now right.
  - destruct (classify_pinch_timers landmarks (random v) (stamped v s) Hb) as (Hv & Ht & _).
    now split.
  - exact (proj1 (proj2 (classify_victory landmarks (random v) (stamped v s) Hb))).
  - exact (classify_three landmarks (random v) (stamped v s) Hb).
  - destruct (classify_tracing landmarks (random v) (stamped v s) Hb) as (Hg & _).
    rewrite Hg. repeat split.
Qed.

Lemma hold_timers_reset_by_tracing_only_witness :
  let s1 := predictWebcam (seen 1000 victoryHand) cameraScene in
  let v := seen 1100 pointHand in
  classifies v s1 = Some pointHand
  /\ Hand.branch pointHand = Hand.Tracing
  /\ victoryTimer (gestureState (predictWebcam v s1)) = 0.
Proof.
  intros s1 v.
  assert (Hc : classifies v s1 = Some pointHand) by (vm_compute; reflexivity).
  assert (Hb : Hand.branch pointHand = Hand.Tracing) by (vm_compute; reflexivity).
  pose proof (hold_timers_reset_by_tracing_only v s1 pointHand Hc) as T.
  cbv zeta in T. destruct T as [T _]. rewrite Hb in T.
  exact (conj Hc (conj Hb (proj1 T))).
Defined.
End GestureClaims.

(** ** Display-mode transitions and the epic sequence *)

Module ModeClaims.
Import Scene Engine Runs EngineFacts Samples.
Local Open Scope float_scope.

Lemma classify_appState landmarks r s :
  appState (classify landmarks r s) = gestureMode landmarks s.
Proof.
  unfold gestureMode. destruct (Hand.branch landmarks) eqn:Hb.
  - unfold classify. rewrite Hb. cbv zeta. now destruct (AppState_eqb _ _).
  - unfold classify. rewrite Hb. cbv zeta. now destruct (AppState_eqb _ _).
  - unfold classify, playBellSound. rewrite Hb. cbv zeta.
    destruct (isPinching (gestureState s)); simpl; [reflexivity|].
    destruct (0 <? photoMeshes s)%nat; simpl; [|reflexivity].
    now destruct (soundEnabled s).
  - exact (proj2 (proj2 (classify_victory landmarks r s Hb))).
  - unfold classify, playJingleBells. rewrite Hb. cbv zeta. now branches.
  - unfold classify. rewrite Hb. reflexivity.
Qed.

(** The display mode after a call of [predictWebcam]. *)
Lemma predictWebcam_appState v s :
  appState (predictWebcam v s)
  = match classifies v s with
    | Some landmarks => gestureMode landmarks s
    | None => appState s
    end.
Proof.
  destruct (classifies v s) as [l|] eqn:Hc.
  - rewrite (predictWebcam_classifies v s l Hc), classify_appState. reflexivity.
  - revert Hc. unfold classifies, predictWebcam, detect.
    destruct (landmarkerReady v); simpl; [|reflexivity].
    destruct (inputModeRef s); [reflexivity|].
    destruct (videoLoaded v); simpl; [|reflexivity].
    destruct (PrimFloat.ltb (now v - lastPredictionTime s) 100); simpl; [reflexivity|].
    destruct (PrimFloat.eqb (currentTime v) (lastVideoTime s)); simpl; [reflexivity|].
    destruct (detection v) as [| |[|l ?]]; try reflexivity.
    destruct (List.length l <? 21)%nat; [reflexivity|discriminate].
Qed.

Lemma handleTouch_ignores_epic_flag b e type s :
  appState (handleTouch e type (set_isEpicSequence b s)) = appState (handleTouch e type s).
Proof.
  unfold handleTouch, onStart, onMove, onEnd, handlePhotoClick, playBellSound, playJingleBells.
  simpl. now branches.
Qed.

Lemma two_finger_tap e s :
  inputModeRef s = touch ->
  startPositions (interaction s) = 2%nat ->
  PrimFloat.ltb (clock e - startTime (interaction s)) 300 = true ->
  appState (handleTouch e TouchEnd s) = toggleFormation (appState s).
Proof.
  intros Hm Hc Hq. unfold handleTouch, onEnd, playJingleBells. rewrite Hm. simpl.
  rewrite Hq, Hc. simpl. now branches.
Qed.

Lemma epic_completion s :
  isEpicSequence s = true ->
  PrimFloat.ltb 18.0 (epicTimer s + 0.016) = true ->
  isEpicSequence (epicStep s) = false /\ appState (epicStep s) = TREE.
Proof.
  intros He Ht. unfold epicStep. rewrite He. simpl. rewrite Ht. split; reflexivity.
Qed.

(** C1, as stated, fails.  The victory sign has been held and the epic
    sequence has just started, in TREE; the next classification sees an open
    hand and the display mode becomes SCATTER, the sequence still active. *)
Lemma open_hand_scatters_during_epic :
  let v := seen 3100 openHand in
  let s' := step (Frame (tickOf v)) epicScene in
  isEpicSequence epicScene = true
  /\ appState epicScene = TREE
  /\ classifiesAs Hand.Open v epicScene = true
  /\ appState s' = SCATTER
  /\ isEpicSequence s' = true.
Proof. vm_compute. auto. Qed.

(** The same on the touch side: the star has been held, the sequence runs,
    and a quick tap with two fingers toggles TREE to SCATTER. *)
Lemma two_finger_tap_toggles_during_epic :
  let s := run starHeld freshScene in
  let s' := run [Touch TouchStart (fingersDown 2 5000); Touch TouchEnd (fingersDown 0 5100)] s in
  isEpicSequence s = true /\ appState s = TREE
  /\ appState s' = SCATTER /\ isEpicSequence s' = true.
Proof. vm_compute. auto. Qed.

(** C1, amended.  The epic flag gates no display-mode transition: the mode
    left by a call of [predictWebcam] or of [handleTouch] is the same whether
    the flag is set or not.  Whatever the flag, an open-hand classification
    sets SCATTER and a fist classification TREE (unless the mirrored mode
    already is that one), a pinch with the latch open and a photo card sets
    ZOOM, and a two-finger tap released within 300 ms toggles between TREE
    and SCATTER.  The one transition the sequence itself makes is the forced
    one: the frame in which its timer passes 18 seconds clears the flag and
    sets TREE. *)
Theorem mode_transitions_ignore_the_epic_flag s :
  (forall b v,
     appState (predictWebcam v (set_isEpicSequence b s)) = appState (predictWebcam v s))
  /\ (forall b e type,
       appState (handleTouch e type (set_isEpicSequence b s))
       = appState (handleTouch e type s))
  /\ (forall v landmarks,
       classifies v s = Some landmarks ->
       match Hand.branch landmarks with
       | Hand.Open =>
           appState (predictWebcam v s)
           = if AppState_eqb (appStateRef s) SCATTER then appState s else SCATTER
       | Hand.Fist =>
           appState (predictWebcam v s)
           = if AppState_eqb (appStateRef s) TREE then appState s else TREE
       | Hand.Pinch =>
           isPinching (gestureState s) = false -> (0 < photoMeshes s)%nat ->
           appState (predictWebcam v s) = ZOOM
       | _ => appState (predictWebcam v s) = appState s
       end)
  /\ (forall e,
       inputModeRef s = touch ->
       startPositions (interaction s) = 2%nat ->
       PrimFloat.ltb (clock e - startTime (interaction s)) 300 = true ->
       appState (handleTouch e TouchEnd s) = toggleFormation (appState s))
  /\ (isEpicSequence s = true ->
      PrimFloat.ltb 18.0 (epicTimer s + 0.016) = true ->
      isEpicSequence (epicStep s) = false /\ appState (epicStep s) = TREE).
Proof.
  split; [|split; [|split; [|split]]].
  - intros b v. rewrite !predictWebcam_appState. reflexivity.
  - intros b e type. apply handleTouch_ignores_epic_flag.
  - intros v landmarks Hc. rewrite predictWebcam_appState, Hc. unfold gestureMode.
    destruct (Hand.branch landmarks); try reflexivity.
    intros Hl Hn. rewrite Hl. apply Nat.ltb_lt in Hn. now rewrite Hn.
  - intros e. apply two_finger_tap.
  - apply epic_completion.
Qed.

Lemma mode_transitions_ignore_the_epic_flag_witness :
  let v := seen 3100 openHand in
  isEpicSequence epicScene = true
  /\ classifies v epicScene = Some openHand
  /\ appState (predictWebcam v epicScene) = SCATTER.
Proof.
  intros v.
  assert (He : isEpicSequence epicScene = true) by (vm_compute; reflexivity).
  assert (Hc : classifies v epicScene = Some openHand) by (vm_compute; reflexivity).
  assert (Hb : Hand.branch openHand = Hand.Open) by (vm_compute; reflexivity).
  assert (Hr : AppState_eqb (appStateRef epicScene) SCATTER = false)
    by (vm_compute; reflexivity).
  pose proof (mode_transitions_ignore_the_epic_flag epicScene) as (_ & _ & T & _).
  specialize (T v openHand Hc). rewrite Hb, Hr in T.
  exact (conj He (conj Hc T)).
Defined.
End ModeClaims.

(** * Further properties of the handlers *)

(** ** The epic timeline *)

Module TimelineFacts.
Import Scene Engine Runs EngineFacts Timeline.
Local Open Scope float_scope.

Lemma trigger_clock s : clockView (triggerEpicSequence s) = trig (clockView s).
Proof.
  unfold triggerEpicSequence, clockView, trig, playWeWishYou.
  destruct (hasTriggeredEpic s) eqn:Hl; [now rewrite Hl|].
  simpl. destruct (soundEnabled s); reflexivity.
Qed.

Lemma epicStep_clock s : clockView (epicStep s) = tick (clockView s).
Proof.
  unfold epicStep, clockView, tick.
  destruct (isEpicSequence s) eqn:He; [|now rewrite He].
  simpl. destruct (PrimFloat.ltb 18.0 (epicTimer s + 0.016)); simpl; rewrite ?He; reflexivity.
Qed.

Lemma classify_clock landmarks r s :
  clockView (classify landmarks r s) = clockView s
  \/ clockView (classify landmarks r s) = trig (clockView s).
Proof.
  unfold classify.
  destruct (Hand.branch landmarks); cbv zeta;
    try (left; unfold playBellSound, playJingleBells; now branches).
  destruct (PrimFloat.ltb 2.0 _ && negb _).
  - right. exact (trigger_clock (set_victoryTimer (victoryTimer (gestureState s) + 0.1) s)).
  - now left.
Qed.

Lemma predictWebcam_clock v s :
  clockView (predictWebcam v s) = clockView s
  \/ clockView (predictWebcam v s) = trig (clockView s).
Proof.
  unfold predictWebcam, detect. branches; try (now left).
  apply (classify_clock _ _ (set_lastVideoTime _ (set_lastPredictionTime _ s))).
Qed.

Lemma starHold_clock k s :
  clockView (starHold k s) = clockView s \/ clockView (starHold k s) = trig (clockView s).
Proof.
  unfold starHold. branches; try (now left).
  right. exact (trigger_clock (setHoldProgress _ s)).
Qed.

Lemma trig_idem v : trig (trig v) = trig v.
Proof. destruct v as [[e l] t]. simpl. destruct l; reflexivity. Qed.

(** A frame moves the triple by an optional trigger, then the tick if the
    group is mounted; every other event leaves it alone. *)
Lemma step_clock ev s :
  let move := if mountedFrame ev then tick else (fun v => v) in
  clockView (step ev s) = move (clockView s)
  \/ clockView (step ev s) = move (trig (clockView s)).
Proof.
  cbv zeta. unfold step.
  assert (Hc : forall x, clockView (commit x) = clockView x).
  { intros x. unfold commit, mirrorEffect. now branches. }
  rewrite Hc. destruct ev as [k|type e| | | |]; simpl.
  - unfold animate. destruct (group k) as [g|]; [|apply predictWebcam_clock].
    change (clockView (updateParticles g (appStateRef (predictWebcam (video k) s))
                         (shakeStep (epicStep (starHold k (predictWebcam (video k) s))))))
      with (clockView (shakeStep (epicStep (starHold k (predictWebcam (video k) s))))).
    assert (Hs : forall x, clockView (shakeStep x) = clockView x)
      by (intros x; unfold shakeStep; now branches).
    rewrite Hs, epicStep_clock.
    destruct (predictWebcam_clock (video k) s) as [Hp|Hp];
      destruct (starHold_clock k (predictWebcam (video k) s)) as [Hh|Hh];
      rewrite Hh, Hp, ?trig_idem; auto.
  - left. unfold handleTouch, onStart, onMove, onEnd, handlePhotoClick, playBellSound,
      playJingleBells. now branches.
  - left. now destruct (AppState_eqb _ _).
  - left. unfold mirrorEffect. now branches.
  - left. unfold mirrorEffect. now branches.
  - now left.
Qed.

Lemma timeline_table :
  forallb (fun n => negb (PrimFloat.ltb 18.0 (epicTicks n))) (seq 0 epicFrames) = true
  /\ PrimFloat.ltb 18.0 (epicTicks epicFrames) = true.
Proof. split; vm_compute; reflexivity. Qed.

Lemma below_18 n : (n < epicFrames)%nat -> PrimFloat.ltb 18.0 (epicTicks n) = false.
Proof.
  intros Hn. destruct timeline_table as [H _]. rewrite forallb_forall in H.
  specialize (H n). rewrite in_seq in H.
  apply negb_true_iff, H. lia.
Qed.

Lemma above_18 : PrimFloat.ltb 18.0 (epicTicks epicFrames) = true.
Proof. exact (proj2 timeline_table). Qed.

Lemma tick_active n :
  (S n < epicFrames)%nat -> tick (true, true, epicTicks n) = (true, true, epicTicks (S n)).
Proof.
  intros Hn. unfold tick. change (epicTicks n + 0.016) with (epicTicks (S n)).
  now rewrite (below_18 (S n) Hn).
Qed.

Lemma tick_last n :
  S n = epicFrames -> tick (true, true, epicTicks n) = (false, true, epicTicks (S n)).
Proof.
  intros Hn. unfold tick. change (epicTicks n + 0.016) with (epicTicks (S n)).
  rewrite Hn. now rewrite above_18.
Qed.

(** One event in an active sequence. *)
Lemma step_active n ev s :
  activeAt n (clockView s) ->
  if mountedFrame ev
  then (activeAt (S n) (clockView (step ev s)) /\ (S n < epicFrames)%nat)
       \/ (over (clockView (step ev s)) /\ S n = epicFrames)
  else activeAt n (clockView (step ev s)).
Proof.
  intros [Hv Hn]. pose proof (step_clock ev s) as H. cbv zeta in H.
  rewrite Hv in H. simpl trig in H.
  destruct (mountedFrame ev).
  - assert (Hs : clockView (step ev s) = tick (true, true, epicTicks n)) by tauto.
    unfold epicFrames in *.
    destruct (Nat.eq_dec (S n) 1126) as [Hlast|Hmore].
    + right. rewrite Hs, (tick_last n Hlast). now split.
    + left. assert (Hlt : (S n < epicFrames)%nat) by (unfold epicFrames; lia).
      rewrite Hs, (tick_active n Hlt). repeat split; exact Hlt.
  - assert (Hs : clockView (step ev s) = (true, true, epicTicks n)) by tauto.
    rewrite Hs. now split.
Qed.

Lemma step_over ev s : over (clockView s) -> over (clockView (step ev s)).
Proof.
  intros [He Hl]. pose proof (step_clock ev s) as H. cbv zeta in H.
  destruct (clockView s) as [[e l] t]. simpl in He, Hl. subst e l. simpl in H.
  assert (Hs : clockView (step ev s) = (false, true, t)).
  { destruct (mountedFrame ev); simpl in H; tauto. }
  rewrite Hs. now split.
Qed.

Lemma run_over evs : forall s, over (clockView s) -> over (clockView (run evs s)).
Proof.
  induction evs as [|ev evs IH]; intros s H; simpl; [exact H|].
  apply IH, step_over, H.
Qed.

Lemma run_active evs : forall n s,
  activeAt n (clockView s) ->
  (epicFrames - n <= mountedFrames evs)%nat ->
  over (clockView (run evs s)).
Proof.
  unfold mountedFrames.
  induction evs as [|ev evs IH]; intros n s Ha Hm.
  - destruct Ha as [_ Hn]. unfold epicFrames in *.
    change (List.length (filter mountedFrame [])) with 0%nat in Hm. lia.
  - pose proof (step_active n ev s Ha) as Hstep.
    change (run (ev :: evs) s) with (run evs (step ev s)).
    change (filter mountedFrame (ev :: evs))
      with (if mountedFrame ev then ev :: filter mountedFrame evs
            else filter mountedFrame evs) in Hm.
    destruct (mountedFrame ev).
    + destruct Hstep as [[Hnext Hlt]|[Hdone _]].
      * apply (IH (S n) _ Hnext). unfold epicFrames in *.
        change (List.length (ev :: filter mountedFrame evs))
          with (S (List.length (filter mountedFrame evs))) in Hm. lia.
      * apply run_over, Hdone.
    + apply (IH n _ Hstep). exact Hm.
Qed.

(** Every reachable scene with the sequence active is in one of its frames. *)
Lemma step_phase ev s :
  (fst (fst (clockView s)) = false \/ exists n, activeAt n (clockView s)) ->
  fst (fst (clockView (step ev s))) = false \/ exists n, activeAt n (clockView (step ev s)).
Proof.
  intros [Hidle|[n Ha]].
  - pose proof (step_clock ev s) as H. cbv zeta in H.
    destruct (clockView s) as [[e l] t]. simpl in Hidle. subst e.
    destruct l; simpl in H.
    + left. destruct (mountedFrame ev); simpl in H; destruct H as [H|H]; now rewrite H.
    + destruct (mountedFrame ev); simpl in H.
      * destruct H as [H|H]; [left; now rewrite H|].
        right. exists 1%nat. rewrite H.
        split; [vm_compute; reflexivity|unfold epicFrames; lia].
      * destruct H as [H|H]; [left; now rewrite H|].
        right. exists 0%nat. rewrite H. split; [reflexivity|unfold epicFrames; lia].
  - pose proof (step_active n ev s Ha) as H.
    destruct (mountedFrame ev).
    + destruct H as [[H _]|[[H _] _]]; [right; now exists (S n)|now left].
    + right. now exists n.
Qed.

Lemma reachable_phase data evs :
  let s := run evs (initial data) in
  isEpicSequence s = false \/ exists n, activeAt n (clockView s).
Proof.
  cbv zeta.
  assert (G : forall evs s,
             (fst (fst (clockView s)) = false \/ exists n, activeAt n (clockView s)) ->
             fst (fst (clockView (run evs s))) = false
             \/ exists n, activeAt n (clockView (run evs s))).
  { clear. induction evs as [|ev evs IH]; intros s H; simpl; [exact H|].
    apply IH, step_phase, H. }
  apply (G evs (initial data)). now left.
Qed.
End TimelineFacts.

Module EngineExtras.
Import Scene Engine Runs EngineFacts Timeline TimelineFacts Samples.
Local Open Scope float_scope.

(** *** The end of the epic sequence *)

Lemma ending_frame_forces_tree k s :
  isEpicSequence s = true ->
  isEpicSequence (step (Frame k) s) = false ->
  appState (step (Frame k) s) = TREE.
Proof.
  intros He Hend. unfold step in *.
  assert (Hc : forall x, isEpicSequence (commit x) = isEpicSequence x
                         /\ appState (commit x) = appState x).
  { intros x. unfold commit, mirrorEffect. now branches. }
  destruct (Hc (handle (Frame k) s)) as [Hc1 Hc2]. rewrite Hc1 in Hend. rewrite Hc2.
  clear Hc Hc1 Hc2. simpl in *. unfold animate in *.
  assert (Hp : isEpicSequence (predictWebcam (video k) s) = true).
  { destruct (predictWebcam_clock (video k) s) as [H|H];
      unfold clockView, trig in H; rewrite He in H;
      [|destruct (hasTriggeredEpic s)]; now injection H. }
  destruct (group k) as [g|]; [|congruence].
  set (x := starHold k (predictWebcam (video k) s)) in *.
  assert (Hx : isEpicSequence x = true).
  { destruct (starHold_clock k (predictWebcam (video k) s)) as [H|H];
      unfold clockView, trig in H; rewrite Hp in H; fold x in H;
      [|destruct (hasTriggeredEpic (predictWebcam (video k) s))]; now injection H. }
  change (isEpicSequence (shakeStep (epicStep x)) = false) in Hend.
  change (appState (shakeStep (epicStep x)) = TREE).
  assert (Hs : forall y, isEpicSequence (shakeStep y) = isEpicSequence y
                         /\ appState (shakeStep y) = appState y)
    by (intros y; unfold shakeStep; now branches).
  destruct (Hs (epicStep x)) as [Hs1 Hs2]. rewrite Hs1 in Hend. rewrite Hs2.
  unfold epicStep in *. rewrite Hx in *. cbv zeta in *.
  destruct (PrimFloat.ltb 18.0 _); [reflexivity|].
  simpl in Hend. congruence.
Qed.

(** X2.  The epic sequence ends by itself: in every execution, once the
    sequence is active, [epicFrames] (1126) animation frames that find the
    main group are enough to clear the flag, whatever other events come in
    between; the latch stays set, so the sequence does not start again.  The
    frame that clears the flag leaves the display mode at TREE. *)
Theorem epic_sequence_ends_within_1126_frames data evs more :
  let s := run evs (initial data) in
  isEpicSequence s = true ->
  (epicFrames <= mountedFrames more)%nat ->
  isEpicSequence (run more s) = false
  /\ hasTriggeredEpic (run more s) = true
  /\ forall k, isEpicSequence (step (Frame k) s) = false ->
               appState (step (Frame k) s) = TREE.
Proof.
  intros s He Hm.
  destruct (reachable_phase data evs) as [Hidle|[n Ha]]; fold s in Hidle || fold s in Ha.
  - congruence.
  - assert (Hover : over (clockView (run more s))).
    { apply (run_active more n s Ha). lia. }
    destruct Hover as [H1 H2]. split; [exact H1|]. split; [exact H2|].
    intros k. now apply ending_frame_forces_tree.
Qed.

Lemma epic_sequence_ends_within_1126_frames_witness :
  let s := run victoryHeld (initial noParticles) in
  let more := frames (burst 1126 3000 100 restHand) in
  isEpicSequence s = true
  /\ (epicFrames <= mountedFrames more)%nat
  /\ isEpicSequence (run more s) = false
  /\ hasTriggeredEpic (run more s) = true.
Proof.
  intros s more.
  assert (He : isEpicSequence s = true) by (vm_compute; reflexivity).
  assert (Hm : (epicFrames <= mountedFrames more)%nat)
    by (apply Nat.leb_le; vm_compute; reflexivity).
  pose proof (epic_sequence_ends_within_1126_frames noParticles victoryHeld more He Hm)
    as (H1 & H2 & _).
  exact (conj He (conj Hm (conj H1 H2))).
Defined.

(** *** Gold mode *)

Lemma trigger_gold s : goldView (triggerEpicSequence s) = goldView s.
Proof. unfold triggerEpicSequence, playWeWishYou. now branches. Qed.

Lemma classify_gold landmarks r s :
  goldView (classify landmarks r s) = goldView s
  \/ goldView (classify landmarks r s) = (true, 8.0).
Proof.
  unfold classify.
  destruct (Hand.branch landmarks); cbv zeta;
    try (left; unfold playBellSound; now branches).
  - left. destruct (PrimFloat.ltb 2.0 _ && negb _); [|reflexivity].
    exact (trigger_gold (set_victoryTimer (victoryTimer (gestureState s) + 0.1) s)).
  - unfold playJingleBells. destruct (PrimFloat.ltb 3.0 _); [right|left]; now branches.
Qed.

Lemma predictWebcam_gold v s :
  goldView (predictWebcam v s) = goldView s
  \/ goldView (predictWebcam v s) = (true, 8.0).
Proof.
  unfold predictWebcam, detect. branches; try (now left).
  apply (classify_gold _ _ (set_lastVideoTime _ (set_lastPredictionTime _ s))).
Qed.

Lemma frame_rest_gold k s :
  goldView (animate k s) = goldView (predictWebcam (video k) s).
Proof.
  unfold animate. destruct (group k) as [g|]; [|reflexivity].
  change (goldView (shakeStep (epicStep (starHold k (predictWebcam (video k) s))))
          = goldView (predictWebcam (video k) s)).
  generalize (predictWebcam (video k) s). intros x.
  assert (Hs : forall y, goldView (shakeStep y) = goldView y)
    by (intros y; unfold shakeStep; now branches).
  assert (He : forall y, goldView (epicStep y) = goldView y)
    by (intros y; unfold epicStep; now branches).
  rewrite Hs, He. unfold starHold. branches; try reflexivity.
  exact (trigger_gold (setHoldProgress _ x)).
Qed.

Lemma step_gold ev s :
  goldView (step ev s) = goldView s \/ goldView (step ev s) = (true, 8.0).
Proof.
  unfold step.
  assert (Hc : forall x, goldView (commit x) = goldView x)
    by (intros x; unfold commit, mirrorEffect; now branches).
  rewrite Hc. destruct ev as [k|type e| | | |]; simpl.
  - rewrite frame_rest_gold. apply predictWebcam_gold.
  - unfold handleTouch, onStart, onMove, onEnd, handlePhotoClick, playBellSound,
      playJingleBells.
    branches; simpl; auto.
  - left. now destruct (AppState_eqb _ _).
  - left. unfold mirrorEffect. now branches.
  - left. unfold mirrorEffect. now branches.
  - now left.
Qed.

Lemma run_gold evs : forall s,
  goldView s = (true, 8.0) -> goldView (run evs s) = (true, 8.0).
Proof.
  induction evs as [|ev evs IH]; intros s H; simpl; [exact H|].
  apply IH. destruct (step_gold ev s) as [Hs|Hs]; congruence.
Qed.

Lemma reachable_gold data evs :
  goldView (run evs (initial data)) = (false, 0)
  \/ goldView (run evs (initial data)) = (true, 8.0).
Proof.
  assert (I : forall evs s,
             (goldView s = (false, 0) \/ goldView s = (true, 8.0)) ->
             goldView (run evs s) = (false, 0) \/ goldView (run evs s) = (true, 8.0)).
  { clear. induction evs as [|ev evs IH]; intros s H; simpl; [exact H|].
    apply IH. destruct (step_gold ev s) as [Hs|Hs]; rewrite Hs; auto. }
  apply I. now left.
Qed.

Lemma gold_stays data evs more :
  isGoldMode (run evs (initial data)) = true ->
  goldView (run more (run evs (initial data))) = (true, 8.0).
Proof.
  intros Hg. apply run_gold.
  destruct (reachable_gold data evs) as [Hs|Hs]; [|exact Hs].
  unfold goldView in Hs. injection Hs as Hf _. congruence.
Qed.

(** X3.  Gold mode is never switched off and its timer is never counted
    down: along every execution the pair (flag, timer) is (false, 0) until a
    three-finger hold or a release with five touches left sets it to
    (true, 8.0), and it keeps that value through every later event. *)
Theorem gold_mode_never_ends data evs :
  let s := run evs (initial data) in
  (goldView s = (false, 0) \/ goldView s = (true, 8.0))
  /\ forall more, isGoldMode s = true -> goldView (run more s) = (true, 8.0).
Proof.
  cbv zeta. split; [apply reachable_gold|].
  intros more Hg. now apply gold_stays.
Qed.

(** X24.  Once gold, always golden.  After gold mode has come on in an
    execution, in every later frame each particle system is drawn with the
    colours of the text or with the golden glow: the branch of
    [updateInstancedSystem] that restores the original colours of a system
    is not taken again. *)
Theorem original_colours_never_return data evs more g type :
  let s := run evs (initial data) in
  isGoldMode s = true ->
  let s' := run more s in
  materialGlow (isGoldMode s') (frameOf g s') type <> Original.
Proof.
  intros s Hg s'.
  pose proof (gold_stays data evs more Hg) as Hs. fold s in Hs. fold s' in Hs.
  unfold goldView in Hs. injection Hs as Hf _.
  unfold materialGlow. rewrite Hf.
  destruct (Particles.formingText (frameOf g s') && Particles.participatesInText type);
    discriminate.
Qed.

Lemma original_colours_never_return_witness :
  let evs := [Touch TouchEnd (fingersDown 5 1000)] in
  let g := {| matrixWorldInverse := fun p => p; hasMesh := fun _ => true |} in
  let s := run evs (initial noParticles) in
  isGoldMode s = true
  /\ materialGlow (isGoldMode (run [CloseZoom] s)) (frameOf g (run [CloseZoom] s))
       Particles.gold <> Original.
Proof.
  intros evs g s.
  assert (Hg : isGoldMode s = true) by (vm_compute; reflexivity).
  exact (conj Hg (original_colours_never_return noParticles evs [CloseZoom] g
                    Particles.gold Hg)).
Defined.

(** *** Calls that classify nothing *)

(** X6.  A call of [predictWebcam] that does not get to classify a hand
    (model or video not ready, touch mode, less than 100 ms since the last
    accepted call, no new video frame, the model throwing, no canvas, no
    hand in view) leaves the gesture state with its hold timers, the display
    mode, the focus index, the epic sequence and the audio as they were; at
    most it reports that it is looking for a hand. *)
Theorem idle_call_keeps_gesture_state v s :
  classifies v s = None ->
  let s' := predictWebcam v s in
  gestureState s' = gestureState s
  /\ appState s' = appState s
  /\ zoomTargetIndex s' = zoomTargetIndex s
  /\ clockView s' = clockView s
  /\ blessingCount s' = blessingCount s
  /\ audioLog s' = audioLog s
  /\ (statusLog s' = statusLog s \/ statusLog s' = StatusSearching :: statusLog s).
Proof.
  unfold classifies, predictWebcam, detect. intros H. cbv zeta.
  destruct (landmarkerReady v); simpl in *; [|now auto 10].
  destruct (inputModeRef s); [now auto 10|].
  destruct (videoLoaded v); simpl in *; [|now auto 10].
  destruct (PrimFloat.ltb (now v - lastPredictionTime s) 100); simpl in *; [now auto 10|].
  destruct (PrimFloat.eqb (currentTime v) (lastVideoTime s)); simpl in *; [now auto 10|].
  destruct (detection v) as [| |[|l ?]]; try (now auto 10).
  destruct (List.length l <? 21)%nat; [now auto 10|discriminate].
Qed.

Lemma idle_call_keeps_gesture_state_witness :
  let s := predictWebcam (seen 1000 victoryHand) cameraScene in
  let v := {| landmarkerReady := true; videoLoaded := true; now := 1200;
              currentTime := 1.2; detection := Detected []; random := 0 |} in
  classifies v s = None
  /\ gestureState (predictWebcam v s) = gestureState s
  /\ (statusLog (predictWebcam v s) = statusLog s
      \/ statusLog (predictWebcam v s) = StatusSearching :: statusLog s).
Proof.
  intros s v.
  assert (Hc : classifies v s = None) by (vm_compute; reflexivity).
  pose proof (idle_call_keeps_gesture_state v s Hc) as (H1 & _ & _ & _ & _ & _ & H7).
  exact (conj Hc (conj H1 H7)).
Defined.

(** *** The pinch latch *)

Lemma latched_call v s :
  isPinching (gestureState s) = true ->
  match classifies v s with
  | Some landmarks => Hand.branch landmarks <> Hand.Tracing
  | None => True
  end ->
  let s' := predictWebcam v s in
  isPinching (gestureState s') = true
  /\ zoomTargetIndex s' = zoomTargetIndex s
  /\ countCue BellSound (audioLog s') = countCue BellSound (audioLog s)
  /\ (appState s <> ZOOM -> appState s' <> ZOOM).
Proof.
  intros Hl Hb. cbv zeta.
  destruct (classifies v s) as [l|] eqn:Hc.
  - rewrite (predictWebcam_classifies v s l Hc).
    assert (Hl' : isPinching (gestureState (stamped v s)) = true) by exact Hl.
    change (zoomTargetIndex s) with (zoomTargetIndex (stamped v s)).
    change (audioLog s) with (audioLog (stamped v s)).
    change (appState s) with (appState (stamped v s)).
    generalize dependent (stamped v s). intros x Hx.
    unfold classify, triggerEpicSequence, playWeWishYou, playJingleBells.
    destruct (Hand.branch l); try congruence; cbv zeta; try rewrite Hx;
      branches; simpl; repeat split; try assumption; try discriminate; auto.
  - destruct (idle_call_keeps_gesture_state v s Hc) as (Hg & Ha & Hz & _ & _ & Hau & _).
    rewrite Hg, Ha, Hz, Hau. auto.
Qed.

(** X4.  The pinch is edge-triggered and only a tracing classification
    releases its latch: through any sequence of calls in which no hand falls
    into the tracing branch (the pinch held, the hand lost, or the hand going
    through fist, open hand, victory or three fingers and back to a pinch)
    the latch stays set, no photo is selected again, no bell is played, and
    the display mode does not enter ZOOM. *)
Theorem pinch_fires_once_until_tracing vs : forall s,
  isPinching (gestureState s) = true ->
  noTracing vs s = true ->
  let s' := runWebcam vs s in
  isPinching (gestureState s') = true
  /\ zoomTargetIndex s' = zoomTargetIndex s
  /\ countCue BellSound (audioLog s') = countCue BellSound (audioLog s)
  /\ (appState s <> ZOOM -> appState s' <> ZOOM).
Proof.
  induction vs as [|v vs IH]; intros s Hl Hn; simpl in *; [auto|].
  apply andb_prop in Hn as [Hv Hrest].
  assert (Hb : match classifies v s with
               | Some landmarks => Hand.branch landmarks <> Hand.Tracing
               | None => True
               end).
  { destruct (classifies v s) as [l|]; [|exact I].
    intros E. rewrite E in Hv. discriminate. }
  destruct (latched_call v s Hl Hb) as (H1 & H2 & H3 & H4).
  destruct (IH (predictWebcam v s) H1 Hrest) as (K1 & K2 & K3 & K4).
  repeat split; try congruence. auto.
Qed.

Lemma pinch_fires_once_until_tracing_witness :
  let s := predictWebcam (seen 1000 pinchHand) galleryScene in
  let vs := [seen 1100 pinchHand; seen 1200 fistHand; seen 1300 pinchHand] in
  isPinching (gestureState s) = true
  /\ noTracing vs s = true
  /\ zoomTargetIndex (runWebcam vs s) = zoomTargetIndex s
  /\ countCue BellSound (audioLog (runWebcam vs s)) = countCue BellSound (audioLog s).
Proof.
  intros s vs.
  assert (Hl : isPinching (gestureState s) = true) by (vm_compute; reflexivity).
  assert (Hn : noTracing vs s = true) by (vm_compute; reflexivity).
  pose proof (pinch_fires_once_until_tracing vs s Hl Hn) as (_ & H2 & H3 & _).
  exact (conj Hl (conj Hn (conj H2 H3))).
Defined.

(** *** The focus index *)

Ltac focus_done :=
  unfold focusValid in *; simpl in *;
  intuition (try congruence; try discriminate; try lia).

Lemma trigger_focus s : focusValid s -> focusValid (triggerEpicSequence s).
Proof. intros Hf. unfold triggerEpicSequence, playWeWishYou. branches; focus_done. Qed.

Lemma classify_focus landmarks r s :
  (0 <= r)%Q -> (r < 1)%Q -> focusValid s -> focusValid (classify landmarks r s).
Proof.
  intros H0 H1 Hf. unfold classify.
  destruct (Hand.branch landmarks); cbv zeta.
  - branches; focus_done.
  - branches; focus_done.
  - destruct (negb (isPinching (gestureState s))); [|focus_done].
    destruct (0 <? photoMeshes s)%nat eqn:Hn; [|focus_done].
    apply Nat.ltb_lt in Hn.
    pose proof (GestureClaims.randomIndex_range r (photoMeshes s) H0 H1 Hn) as Hr.
    unfold playBellSound. destruct (soundEnabled s); left; exact Hr.
  - destruct (PrimFloat.ltb 2.0 _ && negb _); [|focus_done].
    assert (Hf' : focusValid (set_victoryTimer (victoryTimer (gestureState s) + 0.1) s))
      by exact Hf.
    apply trigger_focus in Hf'. exact Hf'.
  - unfold playJingleBells. branches; focus_done.
  - focus_done.
Qed.

Lemma predictWebcam_focus v s :
  (0 <= random v)%Q -> (random v < 1)%Q -> focusValid s -> focusValid (predictWebcam v s).
Proof.
  intros H0 H1 Hf. unfold predictWebcam, detect. branches; try exact Hf.
  apply classify_focus; assumption.
Qed.

Lemma animate_focus k s :
  (0 <= random (video k))%Q -> (random (video k) < 1)%Q ->
  focusValid s -> focusValid (animate k s).
Proof.
  intros H0 H1 Hf. apply (predictWebcam_focus _ _ H0 H1) in Hf.
  unfold animate. destruct (group k) as [g|]; [|exact Hf].
  change (focusValid (shakeStep (epicStep (starHold k (predictWebcam (video k) s))))).
  revert Hf. generalize (predictWebcam (video k) s). intros x Hf.
  assert (Hh : focusValid (starHold k x)).
  { unfold starHold. branches; try exact Hf.
    exact (trigger_focus (setHoldProgress _ x) Hf). }
  revert Hh. generalize (starHold k x). clear. intros y Hf.
  unfold shakeStep, epicStep. branches; focus_done.
Qed.

Lemma handleTouch_focus e type s :
  match photoHit e with Some index => (index < photoMeshes s)%nat | None => True end ->
  focusValid s -> focusValid (handleTouch e type s).
Proof.
  intros Hh Hf.
  unfold handleTouch, onStart, onMove, onEnd, handlePhotoClick, toggleFormation,
    playBellSound, playJingleBells.
  destruct (photoHit e) as [index|]; branches; focus_done.
Qed.

Lemma step_focus ev s : wellFormed ev s -> focusValid s -> focusValid (step ev s).
Proof.
  intros Hw Hf. unfold step.
  assert (Hc : forall x, focusValid x -> focusValid (commit x))
    by (intros x Hx; unfold commit, mirrorEffect; branches; focus_done).
  apply Hc. destruct ev as [k|type e| | | |]; simpl in *.
  - destruct Hw as [H0 H1]. now apply animate_focus.
  - now apply handleTouch_focus.
  - branches; focus_done.
  - unfold mirrorEffect. branches; focus_done.
  - unfold mirrorEffect. branches; focus_done.
  - focus_done.
Qed.

(** X5.  The focus index always names a mounted photo card while a card is
    shown: along every execution in which each draw of [Math.random()] lies
    in [[0, 1)] and each ray cast reports a card of the list, the index is
    [-1] or below the number of cards, and in ZOOM mode it is the index of a
    card. *)
Theorem focus_index_names_a_card data evs :
  wellFormedRun evs (initial data) ->
  let s := run evs (initial data) in
  (-1 <= zoomTargetIndex s < Z.of_nat (photoMeshes s))%Z
  /\ (appState s = ZOOM -> (0 <= zoomTargetIndex s < Z.of_nat (photoMeshes s))%Z).
Proof.
  intros Hw. cbv zeta.
  assert (Hf : focusValid (run evs (initial data))).
  { assert (Hi : focusValid (initial data)) by (right; split; [reflexivity|discriminate]).
    revert Hw Hi. generalize (initial data). clear.
    induction evs as [|ev evs IH]; intros s Hw Hi; simpl in *; [exact Hi|].
    destruct Hw as [Hw Hrest]. apply IH; [exact Hrest|]. now apply step_focus. }
  unfold focusValid in Hf. split; [lia|]. intros Hz. destruct Hf as [Hf|[_ Hf]]; [exact Hf|].
  contradiction.
Qed.

Lemma focus_index_names_a_card_witness :
  let evs := [ToggleInputMode; PhotoLoaded; PhotoLoaded; PhotoLoaded;
              Frame (tickOf (seen 1000 pinchHand))] in
  let s := run evs (initial noParticles) in
  wellFormedRun evs (initial noParticles)
  /\ appState s = ZOOM
  /\ (0 <= zoomTargetIndex s < Z.of_nat (photoMeshes s))%Z.
Proof.
  intros evs s.
  assert (Hw : wellFormedRun evs (initial noParticles)).
  { cbn [evs wellFormedRun wellFormed]. repeat (split; try exact I); discriminate. }
  assert (Hz : appState s = ZOOM) by (vm_compute; reflexivity).
  pose proof (focus_index_names_a_card noParticles evs Hw) as (_ & H2).
  exact (conj Hw (conj Hz (H2 Hz))).
Defined.

(** *** The shake *)

Lemma decay_S k : forall x, decay (S k) x = decay k x * 0.9.
Proof. induction k as [|k IH]; intros x; [reflexivity|]. exact (IH (x * 0.9)). Qed.

Lemma decay_settles start n :
  decay (S n) start = decay n start -> forall k, (n <= k)%nat -> decay k start = decay n start.
Proof.
  intros Hfix k Hk. induction Hk as [|k Hk IH]; [reflexivity|].
  rewrite decay_S, IH, <- decay_S. exact Hfix.
Qed.

Lemma aboveFloor_decay n : forall x, aboveFloor n x = true ->
  forall k, (k < n)%nat ->
  PrimFloat.ltb 0 (decay k x) = true /\ PrimFloat.leb shakeFloor (decay k x) = true.
Proof.
  induction n as [|n IH]; intros x H k Hk; [lia|].
  simpl in H. apply andb_prop in H as [H Hrest]. apply andb_prop in H as [H0 H1].
  destruct k as [|k]; [now split|].
  apply (IH (x * 0.9) Hrest k). lia.
Qed.

Lemma decay_positive start n :
  aboveFloor (S n) start = true -> decay (S n) start = decay n start ->
  forall k, PrimFloat.ltb 0 (decay k start) = true
            /\ PrimFloat.leb shakeFloor (decay k start) = true.
Proof.
  intros Ha Hfix k. destruct (Nat.le_gt_cases n k) as [Hk|Hk].
  - rewrite (decay_settles start n Hfix k Hk). apply (aboveFloor_decay (S n) start Ha). lia.
  - apply (aboveFloor_decay (S n) start Ha). lia.
Qed.

Lemma shaking_positive x :
  shaking x -> PrimFloat.ltb 0 x = true /\ PrimFloat.leb shakeFloor x = true.
Proof.
  intros [k [H|H]]; subst x.
  - apply (decay_positive 3.0 settled3); vm_compute; reflexivity.
  - apply (decay_positive 5.0 settled5); vm_compute; reflexivity.
Qed.

Section ShakeValues.
Variable P : float -> Prop.
Hypothesis trigger_value : P 3.0.
Hypothesis tap_value : P 5.0.
Hypothesis decay_value : forall x, PrimFloat.ltb 0 x = true -> P x -> P (x * 0.9).

Lemma trigger_shake s : P (shakeIntensity s) -> P (shakeIntensity (triggerEpicSequence s)).
Proof. intros H. unfold triggerEpicSequence, playWeWishYou. branches; simpl; auto. Qed.

Lemma classify_shake landmarks r s :
  P (shakeIntensity s) -> P (shakeIntensity (classify landmarks r s)).
Proof.
  intros H. unfold classify.
  destruct (Hand.branch landmarks); cbv zeta;
    try (unfold playBellSound, playJingleBells; branches; exact H).
  destruct (PrimFloat.ltb 2.0 _ && negb _); [|exact H].
  exact (trigger_shake (set_victoryTimer (victoryTimer (gestureState s) + 0.1) s) H).
Qed.

Lemma predictWebcam_shake v s :
  P (shakeIntensity s) -> P (shakeIntensity (predictWebcam v s)).
Proof.
  intros H. unfold predictWebcam, detect. branches; try exact H.
  exact (classify_shake _ _ (set_lastVideoTime _ (set_lastPredictionTime _ s)) H).
Qed.

Lemma animate_shake k s : P (shakeIntensity s) -> P (shakeIntensity (animate k s)).
Proof.
  intros H. apply (predictWebcam_shake (video k)) in H.
  unfold animate. destruct (group k) as [g|]; [|exact H].
  change (P (shakeIntensity (shakeStep (epicStep (starHold k (predictWebcam (video k) s)))))).
  revert H. generalize (predictWebcam (video k) s). intros x H.
  assert (Hh : P (shakeIntensity (starHold k x))).
  { unfold starHold. branches; try exact H.
    exact (trigger_shake (setHoldProgress _ x) H). }
  revert Hh. generalize (starHold k x). intros y Hy.
  assert (He : P (shakeIntensity (epicStep y)))
    by (unfold epicStep; branches; exact Hy).
  revert He. generalize (epicStep y). intros z Hz.
  unfold shakeStep. destruct (PrimFloat.ltb 0 (shakeIntensity z)) eqn:Hpos; [|exact Hz].
  exact (decay_value _ Hpos Hz).
Qed.

Lemma step_shake ev s : P (shakeIntensity s) -> P (shakeIntensity (step ev s)).
Proof.
  intros H. unfold step.
  assert (Hc : forall x, P (shakeIntensity x) -> P (shakeIntensity (commit x)))
    by (intros x Hx; unfold commit, mirrorEffect; branches; exact Hx).
  apply Hc. destruct ev as [k|type e| | | |]; simpl.
  - now apply animate_shake.
  - unfold handleTouch, onStart, onMove, onEnd, handlePhotoClick, playBellSound,
      playJingleBells.
    branches; simpl; auto.
  - destruct (AppState_eqb _ _); exact H.
  - unfold mirrorEffect. branches; exact H.
  - unfold mirrorEffect. branches; exact H.
  - exact H.
Qed.

Lemma run_shake evs : forall s, P (shakeIntensity s) -> P (shakeIntensity (run evs s)).
Proof.
  induction evs as [|ev evs IH]; intros s H; simpl; [exact H|].
  apply IH. now apply step_shake.
Qed.
End ShakeValues.

Lemma shaking_decays x : PrimFloat.ltb 0 x = true -> shaking x -> shaking (x * 0.9).
Proof.
  intros _ [k [H|H]]; exists (S k); rewrite !decay_S; [left|right]; now rewrite H.
Qed.

(** X7.  A shake never dies out.  The intensity is multiplied by 0.9 in
    every frame in which it is positive, and in binary64 that product stays
    positive: the decay from 3.0 settles after 7060 frames, the one from 5.0
    after 7065, both at 2.5e-323.  So once the intensity is positive in an
    execution (after the epic trigger or a double tap) it is positive, and
    not below that floor, after every later event: the branch of [animate]
    that recentres the group is not taken again. *)
Theorem shake_never_dies_out data evs more :
  let s := run evs (initial data) in
  PrimFloat.ltb 0 (shakeIntensity s) = true ->
  PrimFloat.ltb 0 (shakeIntensity (run more s)) = true
  /\ PrimFloat.leb shakeFloor (shakeIntensity (run more s)) = true.
Proof.
  intros s Hpos. apply shaking_positive.
  apply (run_shake shaking); try apply shaking_decays;
    try (exists 0%nat; simpl; now auto).
  assert (Hs : shakeIntensity s = 0 \/ shaking (shakeIntensity s)).
  { unfold s.
    apply (run_shake (fun x => x = 0 \/ shaking x)).
    - right. exists 0%nat. now left.
    - right. exists 0%nat. now right.
    - intros x Hx [H0|Hk]; [subst x; discriminate Hx|]. right. now apply shaking_decays.
    - now left. }
  destruct Hs as [H0|Hs]; [|exact Hs].
  rewrite H0 in Hpos. discriminate Hpos.
Qed.

Lemma shake_never_dies_out_witness :
  let s := run victoryHeld (initial noParticles) in
  let more := frames (burst 40 3000 100 restHand) in
  PrimFloat.ltb 0 (shakeIntensity s) = true
  /\ PrimFloat.ltb 0 (shakeIntensity (run more s)) = true
  /\ PrimFloat.leb shakeFloor (shakeIntensity (run more s)) = true.
Proof.
  intros s more.
  assert (Hpos : PrimFloat.ltb 0 (shakeIntensity s) = true) by (vm_compute; reflexivity).
  exact (conj Hpos (shake_never_dies_out noParticles victoryHeld more Hpos)).
Defined.
End EngineExtras.

(** ** Particles over several frames *)

Module MotionFacts.
Import Vec3 Particles ParticleFacts Motion Samples.
Local Open Scope R_scope.

Lemma noRepulsion_repel f state cur : noRepulsion f state = true -> repel f state cur = cur.
Proof.
  unfold noRepulsion, repel, repelledFrom. intros H.
  destruct (repelPos f); [|reflexivity].
  destruct (AppState_eqb state TREE && negb (isEpic f)); [discriminate|reflexivity].
Qed.

(** The body leaves the two formation positions alone, hence the target. *)
Lemma resolveTarget_updateItem f state type i item :
  resolveTarget f state type i (fst (updateItem f state type i item))
  = resolveTarget f state type i item.
Proof. reflexivity. Qed.

(** X8.  A particle approaches its target geometrically and never reaches
    or passes it: with a defined target and no repulsion, after [n] frames
    under unchanged refs the distance to the target is the initial one times
    [(1 - speed)] to the [n], where the speed is 0.05 (0.08 while the text
    is formed), and the first two rotation angles have advanced by [n] times
    their speeds, the third not at all. *)
Theorem particle_approaches_target_geometrically f state type i item v n :
  resolveTarget f state type i item = Some v ->
  noRepulsion f state = true ->
  let item' := afterFrames n f state type i item in
  distanceTo (currentPos item') v = (1 - speed f) ^ n * distanceTo (currentPos item) v
  /\ (0 < distanceTo (currentPos item) v -> 0 < distanceTo (currentPos item') v)
  /\ x (rotation item') = x (rotation item) + INR n * x (rotSpeed item)
  /\ y (rotation item') = y (rotation item) + INR n * y (rotSpeed item)
  /\ z (rotation item') = z (rotation item).
Proof.
  intros Ht Hr. cbv zeta.
  assert (Hd : distanceTo (currentPos (afterFrames n f state type i item)) v
               = (1 - speed f) ^ n * distanceTo (currentPos item) v
               /\ rotSpeed (afterFrames n f state type i item) = rotSpeed item
               /\ x (rotation (afterFrames n f state type i item))
                  = x (rotation item) + INR n * x (rotSpeed item)
               /\ y (rotation (afterFrames n f state type i item))
                  = y (rotation item) + INR n * y (rotSpeed item)
               /\ z (rotation (afterFrames n f state type i item)) = z (rotation item)).
  { revert item Ht. induction n as [|n IH]; intros item Ht.
    - simpl. repeat split; lra.
    - cbn [afterFrames].
      destruct (IH (fst (updateItem f state type i item))) as (Hd & Hs & Hx & Hy & Hz).
      { rewrite resolveTarget_updateItem. exact Ht. }
      rewrite Hd, Hs, Hx, Hy, Hz, currentPos_updateItem, Ht.
      rewrite (noRepulsion_repel f state _ Hr).
      pose proof (ease_contracts f (Own v) (currentPos item)) as Hc. simpl in Hc.
      unfold guardTarget. rewrite Hc, S_INR. simpl. repeat split; ring. }
  destruct Hd as (Hd & _ & Hx & Hy & Hz).
  split; [exact Hd|]. split; [|now repeat split].
  intros Hpos. rewrite Hd. apply Rmult_lt_0_compat; [|exact Hpos].
  apply pow_lt. unfold speed. destruct (formingText f); lra.
Qed.

Lemma particle_approaches_target_geometrically_witness :
  resolveTarget idleFrame SCATTER gold 0 restingItem = Some (Vec3.mk 0 40 0)
  /\ noRepulsion idleFrame SCATTER = true
  /\ distanceTo (currentPos (afterFrames 3 idleFrame SCATTER gold 0 restingItem)) (Vec3.mk 0 40 0)
     = (1 - speed idleFrame) ^ 3 * distanceTo (currentPos restingItem) (Vec3.mk 0 40 0).
Proof.
  assert (Ht : resolveTarget idleFrame SCATTER gold 0 restingItem = Some (Vec3.mk 0 40 0))
    by reflexivity.
  assert (Hr : noRepulsion idleFrame SCATTER = true) by reflexivity.
  exact (conj Ht (conj Hr
    (proj1 (particle_approaches_target_geometrically idleFrame SCATTER gold 0 restingItem
              (Vec3.mk 0 40 0) 3 Ht Hr)))).
Defined.
End MotionFacts.

(** ** Creation of the particles and of the photo cards *)

Module CreationFacts.
Import Vec3 Particles Creation.
Local Open Scope R_scope.

Lemma sphere_length r phi theta :
  Vec3.length (mk (r * sin phi * cos theta) (r * sin phi * sin theta) (r * cos phi)) = Rabs r.
Proof.
  unfold Vec3.length; simpl. rewrite <- sqrt_Rsqr_abs. f_equal.
  pose proof (sin2_cos2 phi) as Hp. pose proof (sin2_cos2 theta) as Ht.
  unfold Rsqr in *.
  replace (r * sin phi * cos theta * (r * sin phi * cos theta)
           + r * sin phi * sin theta * (r * sin phi * sin theta)
           + r * cos phi * (r * cos phi))
    with (r * r * (sin phi * sin phi * (sin theta * sin theta + cos theta * cos theta)
                   + cos phi * cos phi)) by ring.
  rewrite Ht, Rmult_1_r, Hp. ring.
Qed.

Lemma circle_axisDistance r h theta :
  axisDistance (mk (r * cos theta) h (r * sin theta)) = Rabs r.
Proof.
  unfold axisDistance; simpl. rewrite <- sqrt_Rsqr_abs. f_equal.
  pose proof (sin2_cos2 theta) as Ht. unfold Rsqr in *.
  replace (r * cos theta * (r * cos theta) + r * sin theta * (r * sin theta))
    with (r * r * (sin theta * sin theta + cos theta * cos theta)) by ring.
  rewrite Ht. ring.
Qed.

Lemma sqrt_unit b : 0 <= b < 1 -> 0 <= sqrt b < 1.
Proof.
  intros [H0 H1]. split; [apply sqrt_pos|].
  rewrite <- sqrt_1. apply sqrt_lt_1_alt. lra.
Qed.

(** *** The loop of [createInstancedMesh] *)

Lemma createLoop_spec (P : Item -> Prop) positionGen draws :
  (forall i n, P (fst (createItem positionGen i draws n))) ->
  forall remaining i dataArray n,
  exists items,
    fst (createLoop positionGen remaining i dataArray draws n) = dataArray ++ items
    /\ List.length items = remaining /\ Forall P items.
Proof.
  intros HP. induction remaining as [|k IH]; intros i dataArray n.
  - exists []. simpl. rewrite app_nil_r. auto.
  - simpl. unfold bind at 1.
    pose proof (HP i n) as Hitem.
    destruct (createItem positionGen i draws n) as [item n'].
    destruct (IH (S i) (dataArray ++ [item]) n') as (items & He & Hl & Hf).
    exists (item :: items). rewrite He, <- app_assoc. simpl.
    repeat split; [now rewrite Hl|]. constructor; assumption.
Qed.

Lemma createInstancedMesh_all (P : Item -> Prop) count dataArray positionGen draws n :
  (forall i n, P (fst (createItem positionGen i draws n))) ->
  Forall P dataArray ->
  Forall P (fst (createInstancedMesh count dataArray positionGen draws n)).
Proof.
  intros HP Hd. unfold createInstancedMesh.
  destruct (createLoop_spec P positionGen draws HP count 0%nat dataArray n)
    as (items & He & _ & Hf).
  rewrite He. apply Forall_app. now split.
Qed.

Lemma createInstancedMesh_length count dataArray positionGen draws n :
  List.length (fst (createInstancedMesh count dataArray positionGen draws n))
  = (List.length dataArray + count)%nat.
Proof.
  unfold createInstancedMesh.
  destruct (createLoop_spec (fun _ => True) positionGen draws (fun _ _ => I)
              count 0%nat dataArray n) as (items & He & Hl & _).
  rewrite He, length_app, Hl. reflexivity.
Qed.

(** The six arrays are the results of the six calls. *)
Lemma createMaterialsAndMeshes_arrays d draws n :
  exists n1 n2 n3 n4 n5 n6,
    let data := fst (createMaterialsAndMeshes d draws n) in
    ld_trunk data
    = fst (createInstancedMesh trunkCount (ld_trunk d) (Some trunkPosition) draws n1)
    /\ ld_gold data
       = fst (createInstancedMesh goldCount (ld_gold d) (Some (ornamentPosition 28 4)) draws n2)
    /\ ld_silver data
       = fst (createInstancedMesh silverCount (ld_silver d) (Some (ornamentPosition 40 4))
                draws n3)
    /\ ld_gem data
       = fst (createInstancedMesh gemCount (ld_gem d) (Some (ornamentPosition 52 4)) draws n4)
    /\ ld_emerald data
       = fst (createInstancedMesh emeraldCount (ld_emerald d) (Some (ornamentPosition 54 5))
                draws n5)
    /\ ld_grass data
       = fst (createInstancedMesh grassCount (ld_grass d) (Some grassPosition) draws n6)
    /\ ld_textTargets data = ld_textTargets d.
Proof.
  unfold createMaterialsAndMeshes, bind, ret.
  exists n.
  destruct (createInstancedMesh trunkCount _ _ draws n) as [trunk n2] eqn:E1. exists n2.
  destruct (createInstancedMesh goldCount _ _ draws n2) as [gold n3] eqn:E2. exists n3.
  destruct (createInstancedMesh silverCount _ _ draws n3) as [silver n4] eqn:E3. exists n4.
  destruct (createInstancedMesh gemCount _ _ draws n4) as [gem n5] eqn:E4. exists n5.
  destruct (createInstancedMesh emeraldCount _ _ draws n5) as [emerald n6] eqn:E5. exists n6.
  destruct (createInstancedMesh grassCount _ _ draws n6) as [grass n7] eqn:E6.
  simpl. repeat split; reflexivity.
Qed.

(** *** One entry *)

Lemma getShellPosition_length radius thickness draws n :
  unitDraws draws -> 0 < thickness -> thickness / 2 <= radius ->
  radius - thickness / 2
  <= Vec3.length (fst (getShellPosition radius thickness draws n))
  < radius + thickness / 2.
Proof.
  intros Hd Ht Hr. unfold getShellPosition, bind, ret, Math_random. simpl.
  rewrite sphere_length. pose proof (Hd (S (S n))) as Hw.
  rewrite Rabs_pos_eq; nra.
Qed.

Lemma ornament_scatters radius thickness i draws n :
  unitDraws draws -> 0 < thickness -> thickness / 2 <= radius ->
  scattersIn (radius - thickness / 2) (radius + thickness / 2)
    (fst (createItem (Some (ornamentPosition radius thickness)) i draws n)).
Proof.
  intros Hd Ht Hr.
  exists (fst (getShellPosition radius thickness draws (S (S (S n))))).
  split; [reflexivity|].
  pose proof (getShellPosition_length radius thickness draws (S (S (S n))) Hd Ht Hr).
  unfold margin. lra.
Qed.

Lemma trunk_scatters i draws n :
  unitDraws draws ->
  scattersIn 13.5 16.5 (fst (createItem (Some trunkPosition) i draws n)).
Proof.
  intros Hd. exists (fst (getShellPosition 15 3 draws (S (S (S n))))).
  split; [reflexivity|].
  pose proof (getShellPosition_length 15 3 draws (S (S (S n))) Hd). unfold margin. lra.
Qed.

Lemma grass_scatters i draws n :
  unitDraws draws ->
  scattersIn 62 68 (fst (createItem (Some grassPosition) i draws n)).
Proof.
  intros Hd. exists (fst (getShellPosition 65 6 draws (S (S (S n))))).
  split; [reflexivity|].
  pose proof (getShellPosition_length 65 6 draws (S (S (S n))) Hd). unfold margin. lra.
Qed.

Lemma ornament_stands radius thickness i draws n :
  unitDraws draws ->
  standsIn (-37.5) 37.5 coneRadius
    (fst (createItem (Some (ornamentPosition radius thickness)) i draws n)).
Proof.
  intros Hd. eexists. split; [reflexivity|]. split; [reflexivity|].
  cbn [fst Vec3.y]. unfold coneRadius, treeHeight, maxRadius, margin.
  rewrite circle_axisDistance.
  pose proof (Hd n) as Ha. pose proof (sqrt_unit _ (Hd (S n))) as Hb.
  split; [lra|]. rewrite Rabs_pos_eq; nra.
Qed.

Lemma trunk_stands i draws n :
  unitDraws draws ->
  standsIn (-37.5) 37.5 (fun _ => 2) (fst (createItem (Some trunkPosition) i draws n)).
Proof.
  intros Hd. eexists. split; [reflexivity|]. split; [reflexivity|].
  cbn [fst Vec3.y]. unfold treeHeight, margin. rewrite circle_axisDistance.
  pose proof (Hd n) as Ha. pose proof (Hd (S n)) as Hb.
  split; [lra|]. rewrite Rabs_pos_eq; lra.
Qed.

Lemma grass_stands i draws n :
  unitDraws draws ->
  standsIn (-39.5) (-37.5) (fun _ => 45) (fst (createItem (Some grassPosition) i draws n)).
Proof.
  intros Hd. eexists. split; [reflexivity|]. split; [reflexivity|].
  cbn [fst Vec3.y]. unfold treeHeight, maxRadius, margin. rewrite circle_axisDistance.
  pose proof (sqrt_unit _ (Hd n)) as Hb. pose proof (Hd (S (S n))) as Ha.
  split; [lra|]. rewrite Rabs_pos_eq; nra.
Qed.

Lemma halves_unit : unitDraws Samples.halves.
Proof. intros n. unfold Samples.halves. lra. Qed.

(** *** The two formations *)

(** X9.  Over the reals, and to within a millionth: in the scatter formation
    every particle type has a spherical shell of its own about the origin.
    With draws in [[0, 1)], the scatter positions created for the trunk lie
    at a distance between 13.5 and 16.5 from the origin, for gold between 26
    and 30, silver 38 and 42, gems 50 and 54, emeralds 51.5 and 56.5 and
    grass 62 and 68, each bound taken with a margin of a millionth
    ([scattersIn]).  The ranges of gems and emeralds overlap; the other
    ranges are disjoint. *)
Theorem scatter_shells_are_layered draws n :
  unitDraws draws ->
  let data := fst (createMaterialsAndMeshes emptyLogic draws n) in
  Forall (scattersIn 13.5 16.5) (ld_trunk data)
  /\ Forall (scattersIn 26 30) (ld_gold data)
  /\ Forall (scattersIn 38 42) (ld_silver data)
  /\ Forall (scattersIn 50 54) (ld_gem data)
  /\ Forall (scattersIn 51.5 56.5) (ld_emerald data)
  /\ Forall (scattersIn 62 68) (ld_grass data).
Proof.
  intros Hd.
  destruct (createMaterialsAndMeshes_arrays emptyLogic draws n)
    as (n1 & n2 & n3 & n4 & n5 & n6 & Et & Eg & Es & Em & Ee & Er & _).
  cbv zeta. rewrite Et, Eg, Es, Em, Ee, Er.
  assert (Ho : forall radius thickness lo hi count m,
             0 < thickness -> thickness / 2 <= radius ->
             lo = radius - thickness / 2 -> hi = radius + thickness / 2 ->
             Forall (scattersIn lo hi)
               (fst (createInstancedMesh count [] (Some (ornamentPosition radius thickness))
                       draws m))).
  { intros radius thickness lo hi count m Ht Hr -> ->.
    apply createInstancedMesh_all; [|constructor].
    intros i k. now apply ornament_scatters. }
  refine (conj _ (conj _ (conj _ (conj _ (conj _ _))))).
  - apply createInstancedMesh_all; [|constructor]. intros i k. now apply trunk_scatters.
  - apply Ho; lra.
  - apply Ho; lra.
  - apply Ho; lra.
  - apply Ho; lra.
  - apply createInstancedMesh_all; [|constructor]. intros i k. now apply grass_scatters.
Qed.

Lemma scatter_shells_are_layered_witness :
  unitDraws Samples.halves
  /\ Forall (scattersIn 26 30)
       (ld_gold (fst (createMaterialsAndMeshes emptyLogic Samples.halves 0%nat)))
  /\ Forall (scattersIn 62 68)
       (ld_grass (fst (createMaterialsAndMeshes emptyLogic Samples.halves 0%nat))).
Proof.
  pose proof (scatter_shells_are_layered Samples.halves 0%nat halves_unit)
    as (_ & Hg & _ & _ & _ & Hr).
  exact (conj halves_unit (conj Hg Hr)).
Defined.

(** X10.  Over the reals, and to within a millionth: in the tree formation
    every particle starts at its tree position, and with draws in [[0, 1)]
    the ornaments (gold, silver, gems, emeralds) stand in the cone of height
    75 and base radius 30: at a height between -37.5 and 37.5, no further
    from the axis than the radius of the cone at that height.  The trunk
    stays within 2 of the axis over the same heights, and the grass lies
    under the cone, at a height between -39.5 and -37.5, within 45 of the
    axis.  Each bound is taken with a margin of a millionth ([standsIn]). *)
Theorem tree_formation_fills_the_cone draws n :
  unitDraws draws ->
  let data := fst (createMaterialsAndMeshes emptyLogic draws n) in
  Forall (standsIn (-37.5) 37.5 (fun _ => 2)) (ld_trunk data)
  /\ Forall (standsIn (-37.5) 37.5 coneRadius) (ld_gold data)
  /\ Forall (standsIn (-37.5) 37.5 coneRadius) (ld_silver data)
  /\ Forall (standsIn (-37.5) 37.5 coneRadius) (ld_gem data)
  /\ Forall (standsIn (-37.5) 37.5 coneRadius) (ld_emerald data)
  /\ Forall (standsIn (-39.5) (-37.5) (fun _ => 45)) (ld_grass data).
Proof.
  intros Hd.
  destruct (createMaterialsAndMeshes_arrays emptyLogic draws n)
    as (n1 & n2 & n3 & n4 & n5 & n6 & Et & Eg & Es & Em & Ee & Er & _).
  cbv zeta. rewrite Et, Eg, Es, Em, Ee, Er.
  refine (conj _ (conj _ (conj _ (conj _ (conj _ _)))));
    (apply createInstancedMesh_all; [|constructor]); intros i k.
  - now apply trunk_stands.
  - now apply ornament_stands.
  - now apply ornament_stands.
  - now apply ornament_stands.
  - now apply ornament_stands.
  - now apply grass_stands.
Qed.

Lemma tree_formation_fills_the_cone_witness :
  unitDraws Samples.halves
  /\ Forall (standsIn (-37.5) 37.5 coneRadius)
       (ld_gold (fst (createMaterialsAndMeshes emptyLogic Samples.halves 0%nat)))
  /\ Forall (standsIn (-37.5) 37.5 (fun _ => 2))
       (ld_trunk (fst (createMaterialsAndMeshes emptyLogic Samples.halves 0%nat))).
Proof.
  pose proof (tree_formation_fills_the_cone Samples.halves 0%nat halves_unit)
    as (Ht & Hg & _).
  exact (conj halves_unit (conj Hg Ht)).
Defined.

(** Each call appends to its array. *)
Lemma createInstancedMesh_grows count before gen draws m :
  List.length (fst (createInstancedMesh count before gen draws m))
  = (List.length before + count)%nat
  /\ firstn (List.length before) (fst (createInstancedMesh count before gen draws m))
     = before.
Proof.
  split; [apply createInstancedMesh_length|].
  unfold createInstancedMesh.
  destruct (createLoop_spec (fun _ => True) gen draws (fun _ _ => I) count 0%nat before m)
    as (items & He & _ & _).
  rewrite He, firstn_app, Nat.sub_diag, firstn_all. simpl. apply app_nil_r.
Qed.

Lemma createMaterialsAndMeshes_counts draws n :
  let data := fst (createMaterialsAndMeshes emptyLogic draws n) in
  List.length (Particles.ld_trunk data) = trunkCount
  /\ List.length (Particles.ld_gold data) = goldCount
  /\ List.length (Particles.ld_silver data) = silverCount
  /\ List.length (Particles.ld_gem data) = gemCount
  /\ List.length (Particles.ld_emerald data) = emeraldCount
  /\ List.length (Particles.ld_grass data) = grassCount.
Proof.
  destruct (createMaterialsAndMeshes_arrays emptyLogic draws n)
    as (n1 & n2 & n3 & n4 & n5 & n6 & Et & Eg & Es & Em & Ee & Er & _).
  cbv zeta. rewrite Et, Eg, Es, Em, Ee, Er.
  pose proof createInstancedMesh_length as L.
  exact (conj (L _ _ _ _ _) (conj (L _ _ _ _ _) (conj (L _ _ _ _ _)
           (conj (L _ _ _ _ _) (conj (L _ _ _ _ _) (L _ _ _ _ _)))))).
Qed.

(** *** Photo cards *)

Lemma addPhotoMesh_adds_one img cards draws n :
  exists card, fst (addPhotoMesh true img cards draws n) = cards ++ [card]
               /\ image card = img.
Proof. eexists. split; reflexivity. Qed.

(** X12.  Where a photo card is put, over the reals and to within a
    millionth.  For an image with positive width and height and draws in
    [[0, 1)], [addPhotoMesh] appends one card whose photo plane has its
    longer side 4 and the proportions of the image (the cross products of
    the sides differ by no more than a millionth of the image's area); the
    card starts at its tree position, which lies at a height between -37.5
    and 37.5 and outside the cone of ornaments, between 2 and 7 beyond the
    cone's radius at that height; its scatter position lies at a distance
    between 75 and 85 from the origin, beyond every particle shell.  Each
    bound on a position is taken with a margin of a millionth. *)
Theorem photo_card_placement img cards draws n :
  unitDraws draws -> (0 < width img)%nat -> (0 < height img)%nat ->
  exists card,
    fst (addPhotoMesh true img cards draws n) = cards ++ [card]
    /\ Rmax (planeWidth card) (planeHeight card) = 4
    /\ Rabs (planeWidth card * INR (height img) - planeHeight card * INR (width img))
       <= margin * (INR (width img) * INR (height img))
    /\ card_position card = card_treePos card
    /\ -37.5 - margin <= y (card_treePos card) <= 37.5 + margin
    /\ coneRadius (y (card_treePos card)) + 2 - margin
       <= axisDistance (card_treePos card)
       <= coneRadius (y (card_treePos card)) + 7 + margin
    /\ 75 - margin <= Vec3.length (card_scatterPos card) <= 85 + margin.
Proof.
  intros Hd Hw Hh. eexists. split; [reflexivity|].
  cbn [planeWidth planeHeight card_position card_treePos card_scatterPos y].
  apply lt_0_INR in Hw, Hh.
  pose proof (Hd n) as Ha. pose proof (Hd (S n)) as Hb.
  pose proof (Hd (S (S (S n)))) as He.
  unfold coneRadius, treeHeight, maxRadius.
  rewrite circle_axisDistance, sphere_length.
  refine (conj _ (conj _ (conj eq_refl (conj _ (conj _ _))))).
  - destruct (height img <? width img)%nat eqn:Hc.
    + apply Nat.ltb_lt, lt_INR in Hc. rewrite Rmax_left; [reflexivity|].
      apply Rmult_le_reg_r with (INR (width img)); [exact Hw|]. field_simplify; lra.
    + apply Nat.ltb_ge, le_INR in Hc. rewrite Rmax_right; [reflexivity|].
      apply Rmult_le_reg_r with (INR (height img)); [exact Hh|]. field_simplify; lra.
  - match goal with |- Rabs ?d <= _ => replace d with 0 end.
    + rewrite Rabs_R0. unfold margin.
      apply Rmult_le_pos; [lra|]. apply Rmult_le_pos; lra.
    + destruct (height img <? width img)%nat; field; lra.
  - unfold margin. lra.
  - unfold margin. rewrite Rabs_pos_eq; lra.
  - unfold margin. rewrite Rabs_pos_eq; lra.
Qed.

Lemma photo_card_placement_witness :
  unitDraws Samples.halves
  /\ (0 < width Samples.landscape)%nat
  /\ (0 < height Samples.landscape)%nat
  /\ exists card,
       fst (addPhotoMesh true Samples.landscape [] Samples.halves 0%nat) = [] ++ [card]
       /\ Rmax (planeWidth card) (planeHeight card) = 4
       /\ Rabs (planeWidth card * INR (height Samples.landscape)
                - planeHeight card * INR (width Samples.landscape))
          <= margin * (INR (width Samples.landscape) * INR (height Samples.landscape))
       /\ card_position card = card_treePos card
       /\ -37.5 - margin <= y (card_treePos card) <= 37.5 + margin
       /\ coneRadius (y (card_treePos card)) + 2 - margin
          <= axisDistance (card_treePos card)
          <= coneRadius (y (card_treePos card)) + 7 + margin
       /\ 75 - margin <= Vec3.length (card_scatterPos card) <= 85 + margin.
Proof.
  assert (Hw : (0 < width Samples.landscape)%nat) by (simpl; lia).
  assert (Hh : (0 < height Samples.landscape)%nat) by (simpl; lia).
  exact (conj halves_unit (conj Hw (conj Hh
    (photo_card_placement Samples.landscape [] Samples.halves 0%nat halves_unit Hw Hh)))).
Defined.

Lemma addPhotoMeshes_images newImages : forall cards draws n,
  exists added,
    fst (addPhotoMeshes true newImages cards draws n) = cards ++ added
    /\ map image added = newImages.
Proof.
  induction newImages as [|img rest IH]; intros cards draws n.
  - exists []. simpl. now rewrite app_nil_r.
  - cbn [addPhotoMeshes]. unfold bind at 1.
    destruct (addPhotoMesh_adds_one img cards draws n) as (card & Hc & Hi).
    destruct (addPhotoMesh true img cards draws n) as [cards' n']. simpl in Hc. subst cards'.
    destruct (IH (cards ++ [card]) draws n') as (added & Ha & Hm).
    exists (card :: added). rewrite Ha, <- app_assoc. simpl. now rewrite Hi, Hm.
Qed.

(** X13.  The photo effect brings the cards in line with the uploads.  If
    the cards present were made from the first uploaded images, then after
    the effect (the main group mounted) there is one card for each uploaded
    image, in upload order, the cards that were there are the same and in
    front, a report is made exactly if cards were added, and running the
    effect again on the same uploads adds nothing and reports nothing. *)
Theorem photo_effect_adds_missing_cards uploadedImages cards draws n :
  map image cards = firstn (List.length cards) uploadedImages ->
  let result := fst (photoEffect true uploadedImages cards draws n) in
  map image (fst result) = uploadedImages
  /\ firstn (List.length cards) (fst result) = cards
  /\ snd result
     = (if (List.length cards <? List.length uploadedImages)%nat
        then Some (List.length uploadedImages) else None)
  /\ forall draws' n',
       fst (photoEffect true uploadedImages (fst result) draws' n') = (fst result, None).
Proof.
  intros Hc. cbv zeta.
  assert (Hlen : (List.length cards <= List.length uploadedImages)%nat).
  { apply (f_equal (@List.length Image)) in Hc.
    rewrite length_map, length_firstn in Hc. lia. }
  assert (Hidle : forall cs draws' n',
             List.length cs = List.length uploadedImages ->
             fst (photoEffect true uploadedImages cs draws' n') = (cs, None)).
  { intros cs draws' n' Hl. unfold photoEffect. simpl. rewrite Hl, Nat.ltb_irrefl.
    reflexivity. }
  assert (Hres : exists cards',
             fst (photoEffect true uploadedImages cards draws n)
             = (cards', if (List.length cards <? List.length uploadedImages)%nat
                        then Some (List.length uploadedImages) else None)
             /\ map image cards' = uploadedImages
             /\ firstn (List.length cards) cards' = cards).
  { unfold photoEffect. cbn [negb].
    destruct (List.length cards <? List.length uploadedImages)%nat eqn:Hlt.
    - unfold bind.
      destruct (addPhotoMeshes_images (skipn (List.length cards) uploadedImages) cards draws n)
        as (added & Ha & Hm).
      destruct (addPhotoMeshes true _ cards draws n) as [cards' k]. simpl in Ha. subst cards'.
      exists (cards ++ added). split; [reflexivity|]. split.
      + rewrite map_app, Hc, Hm. apply firstn_skipn.
      + rewrite firstn_app, Nat.sub_diag, firstn_all. simpl. apply app_nil_r.
    - apply Nat.ltb_ge in Hlt.
      assert (Hl : List.length cards = List.length uploadedImages) by lia.
      exists cards. split; [reflexivity|]. split; [|apply firstn_all].
      rewrite Hc, Hl. apply firstn_all. }
  destruct Hres as (cards' & Hres & Hall & Hfront). rewrite Hres. cbn [fst snd].
  refine (conj Hall (conj Hfront (conj eq_refl _))).
  intros draws' n'. apply Hidle.
  pose proof (f_equal (@List.length Image) Hall) as Hl. rewrite length_map in Hl. exact Hl.
Qed.

Lemma photo_effect_adds_missing_cards_witness :
  let uploadedImages := [Samples.landscape; Samples.portrait] in
  let result := fst (photoEffect true uploadedImages [] Samples.halves 0%nat) in
  map image [] = firstn (List.length (@nil PhotoCard)) uploadedImages
  /\ map image (fst result) = uploadedImages
  /\ snd result = Some 2%nat.
Proof.
  intros uploadedImages result.
  assert (Hc : map image [] = firstn (List.length (@nil PhotoCard)) uploadedImages)
    by reflexivity.
  pose proof (photo_effect_adds_missing_cards uploadedImages [] Samples.halves 0%nat Hc)
    as (H1 & _ & H3 & _).
  exact (conj Hc (conj H1 H3)).
Defined.
End CreationFacts.

(** ** The photo cards in a frame *)

Module PhotoFacts.
Import Vec3 Creation Photos.
Local Open Scope R_scope.

Lemma forEachFrom_nth worldToLocal state focus cards : forall start j,
  nth_error (forEachFrom worldToLocal state focus start cards) j
  = option_map (updatePhoto worldToLocal state focus (start + j)) (nth_error cards j).
Proof.
  induction cards as [|card cards IH]; intros start [|j]; simpl; try reflexivity.
  - now rewrite Nat.add_0_r.
  - rewrite IH. now rewrite Nat.add_succ_r.
Qed.

(** The targets of a card depend on its two formation positions only. *)
Lemma photoTarget_updatePhoto worldToLocal state focus j card :
  photoTarget worldToLocal state focus j (updatePhoto worldToLocal state focus j card)
  = photoTarget worldToLocal state focus j card.
Proof.
  unfold updatePhoto, photoTarget.
  destruct (AppState_eqb state ZOOM && (Z.of_nat j =? focus)%Z); [reflexivity|].
  destruct (AppState_eqb state SCATTER); reflexivity.
Qed.

Lemma photoFrames_nth n worldToLocal state focus : forall cards j card,
  nth_error cards j = Some card ->
  exists card',
    nth_error (photoFrames n worldToLocal state focus cards) j = Some card'
    /\ let target := photoTarget worldToLocal state focus j card in
       let size := Vec3.mk (snd target) (snd target) (snd target) in
       distanceTo (card_position card') (fst target)
       = 0.9 ^ n * distanceTo (card_position card) (fst target)
       /\ distanceTo (card_scale card') size = 0.9 ^ n * distanceTo (card_scale card) size.
Proof.
  induction n as [|n IH]; intros cards j card Hj.
  - exists card. split; [exact Hj|]. simpl. split; ring.
  - cbn [photoFrames].
    assert (Hu : nth_error (updatePhotos worldToLocal state focus cards) j
                 = Some (updatePhoto worldToLocal state focus j card)).
    { unfold updatePhotos. rewrite forEachFrom_nth, Hj. reflexivity. }
    destruct (IH _ j _ Hu) as (card' & Hn & Hp & Hs).
    exists card'. split; [exact Hn|].
    rewrite photoTarget_updatePhoto in Hp, Hs. cbv zeta.
    rewrite Hp, Hs. unfold updatePhoto.
    destruct (photoTarget worldToLocal state focus j card) as [targetPos targetScale].
    cbn [card_position card_scale fst snd].
    rewrite !Vec3Facts.distanceTo_lerp by lra.
    change (0.9 ^ S n) with (0.9 * 0.9 ^ n). replace (1 - 0.1) with 0.9 by lra.
    split; ring.
Qed.

(** X14.  What each photo card heads for.  In a frame the card at the focus
    index, and only in ZOOM mode, eases towards the zoom spot in front of
    the camera and the size 3.5; every other card eases towards its scatter
    position and size 2 in SCATTER mode, and towards its tree position and
    size 1 otherwise, ZOOM mode included.  Under unchanged refs the
    distances of position and size to their targets are, after [n] frames,
    the initial ones times 0.9 to the [n]; the list keeps its length. *)
Theorem photo_cards_ease_to_their_targets n worldToLocal state focus cards j card :
  nth_error cards j = Some card ->
  let spot := worldToLocal (Vec3.mk 0 0 80) in
  let target :=
    if AppState_eqb state ZOOM && (Z.of_nat j =? focus)%Z then (spot, 3.5)
    else if AppState_eqb state SCATTER then (card_scatterPos card, 2)
    else (card_treePos card, 1) in
  let size := Vec3.mk (snd target) (snd target) (snd target) in
  List.length (photoFrames n worldToLocal state focus cards) = List.length cards
  /\ exists card',
       nth_error (photoFrames n worldToLocal state focus cards) j = Some card'
       /\ distanceTo (card_position card') (fst target)
          = 0.9 ^ n * distanceTo (card_position card) (fst target)
       /\ distanceTo (card_scale card') size = 0.9 ^ n * distanceTo (card_scale card) size.
Proof.
  intros Hj. cbv zeta. split.
  - clear. revert cards. induction n as [|n IH]; intros cards; [reflexivity|].
    cbn [photoFrames]. rewrite IH. unfold updatePhotos.
    generalize 0%nat. induction cards as [|c cards IHc]; intros k; simpl; [reflexivity|].
    now rewrite IHc.
  - destruct (photoFrames_nth n worldToLocal state focus cards j card Hj)
      as (card' & Hn & Hp & Hs).
    exists card'. split; [exact Hn|]. split; [exact Hp|exact Hs].
Qed.

Lemma photo_cards_ease_to_their_targets_witness :
  let cards := [Samples.sampleCard; Samples.sampleCard] in
  nth_error cards 1 = Some Samples.sampleCard
  /\ exists card',
       nth_error (photoFrames 3 (fun p => p) ZOOM 1 cards) 1 = Some card'
       /\ distanceTo (card_position card') (Vec3.mk 0 0 80)
          = 0.9 ^ 3 * distanceTo (card_position Samples.sampleCard) (Vec3.mk 0 0 80).
Proof.
  intros cards.
  assert (Hj : nth_error cards 1 = Some Samples.sampleCard) by reflexivity.
  destruct (photo_cards_ease_to_their_targets 3 (fun p => p) ZOOM 1 cards 1
              Samples.sampleCard Hj) as (_ & card' & Hn & Hp & _).
  exact (conj Hj (ex_intro _ card' (conj Hn Hp))).
Defined.
End PhotoFacts.

(** ** The dust *)

Module DustFacts.
Import Vec3 Creation Dust CreationFacts.
Local Open Scope R_scope.

Lemma axisDistance_scaled x0 y0 y1 z0 c :
  0 <= c -> axisDistance (mk (x0 * c) y1 (z0 * c)) = c * axisDistance (mk x0 y0 z0).
Proof.
  intros Hc. unfold axisDistance; simpl.
  replace (x0 * c * (x0 * c) + z0 * c * (z0 * c)) with (c * c * (x0 * x0 + z0 * z0)) by ring.
  rewrite sqrt_mult; [|nra|nra]. now rewrite sqrt_square.
Qed.

Lemma axisDistance_nonneg p : 0 <= axisDistance p.
Proof. apply sqrt_pos. Qed.

(** One frame in the tree formation: the height after it, and the distance
    from the axis. *)
Lemma updateMote_tree touches item :
  let item' := updateMote TREE touches item in
  y (currentPos item') <= treeHeight / 2
  /\ (- treeHeight / 2 <= y (currentPos item) -> - treeHeight / 2 <= y (currentPos item'))
  /\ axisDistance (currentPos item') <= axisDistance (currentPos item).
Proof.
  unfold updateMote. cbn [AppState_eqb currentPos].
  destruct (currentPos item) as [x0 y0 z0]. cbn [Vec3.x Vec3.y Vec3.z].
  set (boost := if (3 <=? touches)%nat then 5 else 1).
  assert (Hb : 1 <= boost <= 5) by (unfold boost; destruct (3 <=? touches)%nat; lra).
  unfold treeHeight.
  destruct (Rlt_dec (75 / 2) (y0 + 0.05 * boost)) as [Hy|Hy];
    match goal with |- context [Rlt_dec ?a ?b] => destruct (Rlt_dec a b) as [Hr|Hr] end;
    cbn [Vec3.y]; (split; [lra|]); (split; [intros; lra|]).
  all: try (rewrite (axisDistance_scaled x0 y0 _ z0 0.98) by lra;
            pose proof (axisDistance_nonneg (mk x0 y0 z0)); lra).
  all: unfold axisDistance; simpl; lra.
Qed.

(** X15.  Dust keeps to the tree in the tree formation.  A frame in TREE
    mode leaves a mote at a height of at most 37.5, whatever its height
    before (a mote that passes the top re-enters at the bottom), and never
    moves it away from the axis.  Over any number of TREE frames, with any
    touch counts, motes inside the band of heights [[-37.5, 37.5]] and
    within [r] of the axis stay so, and none is added or dropped. *)
Theorem dust_keeps_to_the_tree_band touchesPerFrame r : forall dust,
  Forall (inBand r) dust ->
  Forall (inBand r) (treeFrames touchesPerFrame dust)
  /\ List.length (treeFrames touchesPerFrame dust) = List.length dust
  /\ forall touches item,
       y (currentPos (updateMote TREE touches item)) <= treeHeight / 2
       /\ axisDistance (currentPos (updateMote TREE touches item))
          <= axisDistance (currentPos item).
Proof.
  assert (Hframe : forall touches item,
             y (currentPos (updateMote TREE touches item)) <= treeHeight / 2
             /\ axisDistance (currentPos (updateMote TREE touches item))
                <= axisDistance (currentPos item)).
  { intros touches item. destruct (updateMote_tree touches item) as (H1 & _ & H3).
    now split. }
  induction touchesPerFrame as [|touches rest IH]; intros dust Hd.
  - cbn [treeFrames]. split; [exact Hd|]. split; [reflexivity|exact Hframe].
  - cbn [treeFrames].
    assert (Hstep : Forall (inBand r) (updateDustParticles true TREE touches dust)).
    { unfold updateDustParticles. apply Forall_map.
      apply Forall_impl with (2 := Hd). intros item [[Hlo Hhi] Hr].
      destruct (updateMote_tree touches item) as (H1 & H2 & H3).
      split; [split; [now apply H2|exact H1]|lra]. }
    destruct (IH _ Hstep) as (H1 & H2 & _).
    split; [exact H1|]. split; [|exact Hframe].
    rewrite H2. unfold updateDustParticles. apply length_map.
Qed.

Lemma dust_keeps_to_the_tree_band_witness :
  Forall (inBand 1) [Samples.sampleMote]
  /\ Forall (inBand 1) (treeFrames [0; 3; 0]%nat [Samples.sampleMote]).
Proof.
  assert (Hd : Forall (inBand 1) [Samples.sampleMote]).
  { constructor; [|constructor]. unfold inBand, Samples.sampleMote, treeHeight.
    cbn [currentPos Vec3.y]. split; [lra|].
    unfold axisDistance; simpl.
    replace (1 * 1 + 0 * 0) with 1 by ring. rewrite sqrt_1. lra. }
  exact (conj Hd (proj1 (dust_keeps_to_the_tree_band [0; 3; 0]%nat 1 _ Hd))).
Defined.

Lemma createMote_spec draws n :
  unitDraws draws ->
  let item := fst (createMote draws n) in
  currentPos item = treePos item
  /\ - treeHeight / 2 <= y (treePos item) < treeHeight / 2
  /\ 2 <= axisDistance (treePos item) < coneRadius (y (treePos item)) + 2
  /\ 10 <= Vec3.length (scatterPos item) < 70.
Proof.
  intros Hd. unfold createMote, bind, ret, Math_random. cbn [fst treePos scatterPos currentPos y].
  rewrite circle_axisDistance, sphere_length.
  unfold coneRadius, treeHeight, maxRadius.
  pose proof (Hd n) as Ha. pose proof (Hd (S n)) as Hb. pose proof (Hd (S (S (S n)))) as Hg.
  split; [reflexivity|]. split; [lra|].
  split; (rewrite Rabs_pos_eq; nra).
Qed.

Lemma createDustLoop_spec (P : Mote -> Prop) draws :
  (forall n, P (fst (createMote draws n))) ->
  forall remaining dust n,
  exists items,
    fst (createDustLoop remaining dust draws n) = dust ++ items
    /\ List.length items = remaining /\ Forall P items.
Proof.
  intros HP. induction remaining as [|k IH]; intros dust n.
  - exists []. simpl. rewrite app_nil_r. auto.
  - simpl. unfold bind at 1.
    pose proof (HP n) as Hitem.
    destruct (createMote draws n) as [item n'].
    destruct (IH (dust ++ [item]) n') as (items & He & Hl & Hf).
    exists (item :: items). rewrite He, <- app_assoc. simpl.
    repeat split; [now rewrite Hl|]. constructor; assumption.
Qed.

(** X16.  The dust as created, over the reals and to within a millionth.
    With draws in [[0, 1)], [createDust] appends 600 motes to the array;
    each starts at its tree position, which lies at a height between -37.5
    and 37.5 and between 2 from the axis and 2 beyond the cone of ornaments,
    and each has its scatter position at a distance between 10 and 70 from
    the origin, across the particle shells.  Each bound is taken with a
    margin of a millionth. *)
Theorem dust_is_created_around_the_cone dust draws n :
  unitDraws draws ->
  exists items,
    fst (createDust dust draws n) = dust ++ items
    /\ List.length items = 600%nat
    /\ Forall (fun item =>
                 currentPos item = treePos item
                 /\ - treeHeight / 2 - margin <= y (treePos item) <= treeHeight / 2 + margin
                 /\ 2 - margin <= axisDistance (treePos item)
                    <= coneRadius (y (treePos item)) + 2 + margin
                 /\ 10 - margin <= Vec3.length (scatterPos item) <= 70 + margin) items.
Proof.
  intros Hd. unfold createDust.
  apply (createDustLoop_spec _ draws). intros k.
  destruct (createMote_spec draws k Hd) as (H1 & H2 & H3 & H4).
  unfold margin. refine (conj H1 (conj _ (conj _ _))); lra.
Qed.

Lemma dust_is_created_around_the_cone_witness :
  unitDraws Samples.halves
  /\ exists items,
       fst (createDust [] Samples.halves 0%nat) = [] ++ items
       /\ List.length items = 600%nat
       /\ Forall (fun item =>
                    currentPos item = treePos item
                    /\ - treeHeight / 2 - margin <= y (treePos item)
                       <= treeHeight / 2 + margin
                    /\ 2 - margin <= axisDistance (treePos item)
                       <= coneRadius (y (treePos item)) + 2 + margin
                    /\ 10 - margin <= Vec3.length (scatterPos item) <= 70 + margin) items.
Proof.
  exact (conj halves_unit
           (dust_is_created_around_the_cone [] Samples.halves 0%nat halves_unit)).
Defined.
End DustFacts.

(** ** Fireworks *)

Module FireworkFacts.
Import Vec3 Creation Fireworks CreationFacts.
Local Open Scope R_scope.

Lemma burstLoop_spec pos color type draws : forall remaining fireworks n,
  exists news,
    fst (burstLoop remaining pos color type fireworks draws n) = fireworks ++ news
    /\ List.length news = remaining
    /\ Forall (fun p => fresh p = true /\ position p = pos) news.
Proof.
  induction remaining as [|k IH]; intros fireworks n.
  - exists []. simpl. rewrite app_nil_r. auto.
  - cbn [burstLoop]. unfold bind at 1.
    assert (Hp : fresh (fst (burstParticle pos color type draws n)) = true
                 /\ position (fst (burstParticle pos color type draws n)) = pos)
      by (destruct type; split; reflexivity).
    destruct (burstParticle pos color type draws n) as [p n'].
    destruct (IH (fireworks ++ [p]) n') as (news & He & Hl & Hf).
    exists (p :: news). rewrite He, <- app_assoc. simpl.
    repeat split; [now rewrite Hl|]. constructor; assumption.
Qed.

Lemma explodeFirework_spec pos color type fireworks draws n :
  exists news,
    fst (explodeFirework pos color type fireworks draws n) = fireworks ++ news
    /\ List.length news = match type with snow => 60%nat | normal => 30%nat end
    /\ Forall (fun p => fresh p = true /\ position p = pos) news.
Proof. unfold explodeFirework. apply burstLoop_spec. Qed.

(** The array around the index the loop is at. *)
Lemma around_index (pre : list Spark) p rest :
  nth_error ((pre ++ [p]) ++ rest) (List.length pre) = Some p
  /\ firstn (List.length pre) ((pre ++ [p]) ++ rest) = pre
  /\ skipn (S (List.length pre)) ((pre ++ [p]) ++ rest) = rest.
Proof.
  induction pre as [|q pre (IH1 & IH2 & IH3)]; [now repeat split|].
  cbn [List.length app nth_error firstn skipn] in *.
  split; [exact IH1|]. split; [now rewrite IH2|exact IH3].
Qed.

Lemma survivors_app a b : survivors (a ++ b) = survivors a ++ survivors b.
Proof. unfold survivors. apply flat_map_app. Qed.

Lemma burstSize_app a b : burstSize (a ++ b) = (burstSize a + burstSize b)%nat.
Proof. unfold burstSize. now rewrite map_app, list_sum_app. Qed.

Lemma survivors_one p :
  survivors [p] = match advance p with Kept p' => [p'] | _ => [] end.
Proof. unfold survivors. simpl. apply app_nil_r. Qed.

Lemma burstSize_one p :
  burstSize [p] = match advance p with
                  | Exploded _ _ snow => 60%nat
                  | Exploded _ _ normal => 30%nat
                  | _ => 0%nat
                  end.
Proof. unfold burstSize. simpl. apply Nat.add_0_r. Qed.

(** The loop, with the entries below the index still to be visited. *)
Lemma loop_spec draws : forall below pre rest positions n,
  List.length pre = below ->
  exists news,
    fst (loop below (pre ++ rest) positions draws n)
    = (survivors pre ++ rest ++ news, positions ++ rev (map position (survivors pre)))
    /\ List.length news = burstSize pre
    /\ Forall (fun p => fresh p = true) news.
Proof.
  induction below as [|i IH]; intros pre rest positions n Hlen.
  - destruct pre; [|discriminate]. exists []. simpl. now rewrite !app_nil_r.
  - destruct (exists_last (l := pre)) as (pre' & p & ->);
      [intros ->; discriminate|].
    rewrite length_app in Hlen. simpl in Hlen.
    assert (Hi : List.length pre' = i) by lia. subst i.
    destruct (around_index pre' p rest) as (Hnth & Hfirst & Hskip).
    cbn [loop]. rewrite Hnth.
    rewrite survivors_app, burstSize_app, survivors_one, burstSize_one.
    destruct (advance p) as [p'|pos color type|] eqn:Hadv.
    + unfold written. rewrite Hfirst, Hskip.
      destruct (IH pre' (p' :: rest) (positions ++ [position p']) n eq_refl)
        as (news & He & Hl & Hf).
      exists news. rewrite He. split; [|split; [lia|exact Hf]].
      rewrite map_app, rev_app_distr, <- !app_assoc. reflexivity.
    + unfold bind.
      destruct (explodeFirework_spec pos color type ((pre' ++ [p]) ++ rest) draws n)
        as (burst & Hb & Hbl & Hbf).
      destruct (explodeFirework pos color type ((pre' ++ [p]) ++ rest) draws n)
        as [grown n'].
      simpl in Hb. subst grown. unfold splice.
      destruct (around_index pre' p (rest ++ burst)) as (_ & Hfirst' & Hskip').
      rewrite <- (app_assoc (pre' ++ [p]) rest burst), Hfirst', Hskip'.
      destruct (IH pre' (rest ++ burst) positions n' eq_refl) as (news & He & Hl & Hf).
      exists (burst ++ news). rewrite He, app_nil_r, <- !app_assoc.
      split; [reflexivity|]. split.
      * rewrite length_app, Hl, Hbl. destruct type; lia.
      * apply Forall_app. split; [|exact Hf].
        apply Forall_impl with (2 := Hbf). now intros q [Hq _].
    + unfold splice. rewrite Hfirst, Hskip.
      destruct (IH pre' rest positions n eq_refl) as (news & He & Hl & Hf).
      exists news. rewrite He, app_nil_r. split; [reflexivity|]. split; [lia|exact Hf].
Qed.

(** X17.  A frame of the fireworks visits every entry once.  Although the
    loop removes entries from the array it walks, and explosions push new
    ones onto it meanwhile, after [updateFireworks] the array holds the
    entries of the start of the frame that neither exploded nor ran out of
    life, each advanced by one step and in the old order, followed by the
    particles of the explosions: 30 for a normal rocket and 60 for a snow
    rocket, none of them advanced in this frame.  The positions handed to
    the geometry are those of the surviving entries, last entry first; an
    empty array is left alone and nothing is drawn. *)
Theorem fireworks_frame_visits_each_entry_once activeFW draws n :
  let result := fst (updateFireworks activeFW draws n) in
  exists news,
    fst result = survivors activeFW ++ news
    /\ List.length news = burstSize activeFW
    /\ Forall (fun p => fresh p = true) news
    /\ snd result
       = (if (0 <? List.length activeFW)%nat
          then Some (rev (map position (survivors activeFW))) else None).
Proof.
  cbv zeta. unfold updateFireworks.
  destruct (0 <? List.length activeFW)%nat eqn:Hlen.
  - unfold bind.
    destruct (loop_spec draws (List.length activeFW) activeFW [] [] n eq_refl)
      as (news & He & Hl & Hf).
    rewrite app_nil_r in He.
    destruct (loop (List.length activeFW) activeFW [] draws n) as [[fw positions] n'].
    simpl in He. injection He as -> ->. exists news. simpl. auto.
  - apply Nat.ltb_ge in Hlen. destruct activeFW; [|simpl in Hlen; lia].
    exists []. simpl. auto.
Qed.

(** *** Lifetimes *)

Lemma particle_alive color type : forall n pos vel life,
  afterFrames n (Particle pos vel life color type) <> None <-> alive n life = true.
Proof.
  induction n as [|n IH]; intros pos vel life.
  - simpl. split; [reflexivity|discriminate].
  - cbn [afterFrames alive advance].
    destruct type; cbv zeta;
      (destruct (PrimFloat.leb (life - 0.01) 0); cbn [negb andb];
       [split; [intros H; now contradiction H|discriminate]|apply IH]).
Qed.

Lemma rocket_rises targetY life color type vel : forall n pos,
  0 <= y vel ->
  (y pos + INR n * y vel < targetY ->
   afterFrames n (Rocket pos vel targetY life color type) <> None)
  /\ (targetY <= y pos + INR n * y vel -> (0 < n)%nat ->
      afterFrames n (Rocket pos vel targetY life color type) = None).
Proof.
  induction n as [|n IH]; intros pos Hv.
  - split; [discriminate|lia].
  - rewrite S_INR. cbn [afterFrames advance].
    destruct (Rle_dec targetY (y (add pos vel))) as [Hy|Hy]; simpl in Hy.
    + split; [|reflexivity]. intros Hlt. exfalso.
      pose proof (pos_INR n). nra.
    + destruct (IH (add pos vel) Hv) as [Hkeep Hgone]. simpl in Hkeep, Hgone.
      split.
      * intros Hlt. apply Hkeep. lra.
      * intros Hge _. destruct n as [|n'].
        -- simpl in Hge. lra.
        -- apply Hgone; [|lia]. lra.
Qed.

(** X18.  How long a firework lasts.  With its height taken over the reals,
    a rocket made by [spawnFirework] with draws in [[0, 1)] is still rising
    after 27 frames and has exploded by its 60th: it starts at -30, climbs
    by at least 1.5 and less than 2.5 a frame, and explodes at a height
    drawn between 40 and 60 (27 frames take it to 37.5 at most, 60 frames
    to 60 at least).  With the life in binary64, a particle of a normal
    explosion is drawn for 99 frames and removed in its 100th; a particle
    of a snow explosion is drawn for 300 frames and removed in its 301st,
    the 300 decrements of 0.01 leaving a positive rest of 3.0. *)
Theorem firework_lifetimes colorOverride type fireworks draws n pos vel color :
  unitDraws draws ->
  (exists rocket,
     fst (spawnFirework colorOverride type fireworks draws n) = fireworks ++ [rocket]
     /\ afterFrames 27 rocket <> None /\ afterFrames 60 rocket = None)
  /\ afterFrames 99 (Particle pos vel 1.0 color normal) <> None
  /\ afterFrames 100 (Particle pos vel 1.0 color normal) = None
  /\ afterFrames 300 (Particle pos vel 3.0 color snow) <> None
  /\ afterFrames 301 (Particle pos vel 3.0 color snow) = None.
Proof.
  intros Hd. split.
  - eexists. split; [reflexivity|].
    pose proof (Hd (S (S (S n)))) as Hv. pose proof (Hd (S (S (S (S n))))) as Ht.
    split.
    + apply rocket_rises; simpl; [lra|].
      replace (INR 27) with 27 by (simpl; lra). lra.
    + apply rocket_rises; simpl; [lra| |lia].
      replace (INR 60) with 60 by (simpl; lra). lra.
  - assert (Hgone : forall k life c t p v,
               alive k life = false -> afterFrames k (Particle p v life c t) = None).
    { intros k life c t p v Ha.
      destruct (afterFrames k (Particle p v life c t)) eqn:E; [|reflexivity].
      assert (Hn : afterFrames k (Particle p v life c t) <> None) by (rewrite E; discriminate).
      apply particle_alive in Hn. congruence. }
    refine (conj _ (conj _ (conj _ _))).
    + apply particle_alive. vm_compute. reflexivity.
    + apply Hgone. vm_compute. reflexivity.
    + apply particle_alive. vm_compute. reflexivity.
    + apply Hgone. vm_compute. reflexivity.
Qed.

Lemma firework_lifetimes_witness :
  unitDraws Samples.halves
  /\ afterFrames 99 (Particle (Vec3.mk 0 40 0) (Vec3.mk 0 1 0) 1.0 None normal) <> None
  /\ afterFrames 100 (Particle (Vec3.mk 0 40 0) (Vec3.mk 0 1 0) 1.0 None normal) = None.
Proof.
  pose proof (firework_lifetimes None normal [] Samples.halves 0%nat
                (Vec3.mk 0 40 0) (Vec3.mk 0 1 0) None halves_unit)
    as (_ & H1 & H2 & _).
  exact (conj halves_unit (conj H1 H2)).
Defined.
End FireworkFacts.

(** ** The glyph clouds *)

Module TextScanFacts.
Import Vec3 Creation TextScan CreationFacts.
Local Open Scope R_scope.

Lemma floorIndex_range r m :
  0 <= r < 1 -> (0 < m)%nat ->
  (0 <= Fireworks.floorIndex (r * INR m) < Z.of_nat m)%Z.
Proof.
  intros Hr Hm. unfold Fireworks.floorIndex.
  destruct (base_Int_part (r * INR m)) as [Hle Hgt].
  apply lt_0_INR in Hm.
  assert (H0 : 0 <= r * INR m) by nra.
  assert (H1 : r * INR m < INR m) by nra.
  split.
  - apply Z.lt_succ_r. apply lt_IZR. rewrite succ_IZR. lra.
  - apply lt_IZR. rewrite <- INR_IZR_INZ. lra.
Qed.

(** *** The shuffle *)

Lemma assign_at (pre : list Vec3.t) a v rest :
  assign (List.length pre) v (pre ++ a :: rest) = pre ++ v :: rest.
Proof.
  unfold assign. induction pre as [|q pre IH]; [reflexivity|].
  cbn [List.length app firstn skipn] in *. now rewrite IH.
Qed.

Lemma assign_behind (l1 : list Vec3.t) x l3 y l4 v :
  assign (List.length (l1 ++ x :: l3)) v (l1 ++ x :: l3 ++ y :: l4)
  = l1 ++ x :: l3 ++ v :: l4.
Proof.
  replace (l1 ++ x :: l3 ++ y :: l4) with ((l1 ++ x :: l3) ++ y :: l4)
    by (rewrite <- app_assoc; reflexivity).
  rewrite assign_at, <- app_assoc. reflexivity.
Qed.

Lemma swap_permutation i j points a b :
  nth_error points i = Some a -> nth_error points j = Some b ->
  Permutation (assign j a (assign i b points)) points.
Proof.
  assert (Hlt : forall i j points a b, (i < j)%nat ->
            nth_error points i = Some a -> nth_error points j = Some b ->
            Permutation (assign j a (assign i b points)) points
            /\ Permutation (assign i b (assign j a points)) points).
  { clear. intros i j points a b Hij Hi Hj.
    destruct (nth_error_split _ _ Hi) as (l1 & l2 & -> & Hl1). subst i.
    rewrite nth_error_app2 in Hj by lia.
    replace (j - List.length l1)%nat with (S (j - List.length l1 - 1)) in Hj by lia.
    simpl in Hj.
    destruct (nth_error_split _ _ Hj) as (l3 & l4 & -> & Hl3).
    assert (Ea : j = List.length (l1 ++ a :: l3))
      by (rewrite length_app; simpl; lia).
    assert (Eb : j = List.length (l1 ++ b :: l3))
      by (rewrite length_app; simpl; lia).
    assert (Hperm : Permutation (l1 ++ b :: l3 ++ a :: l4) (l1 ++ a :: l3 ++ b :: l4)).
    { apply Permutation_app_head.
      change (Permutation ((b :: l3) ++ a :: l4) ((a :: l3) ++ b :: l4)).
      rewrite <- !Permutation_middle. simpl. apply perm_swap. }
    split.
    - rewrite assign_at. rewrite Eb at 1. rewrite assign_behind. exact Hperm.
    - rewrite Ea at 1. rewrite assign_behind, assign_at. exact Hperm. }
  intros Hi Hj. destruct (Nat.lt_trichotomy i j) as [H|[H|H]].
  - now apply (Hlt i j points a b).
  - subst j. assert (a = b) by congruence. subst b.
    destruct (nth_error_split _ _ Hi) as (l1 & l2 & -> & Hl1). subst i.
    rewrite !assign_at. reflexivity.
  - now apply (Hlt j i points b a).
Qed.

Lemma shuffleFrom_permutation draws :
  unitDraws draws ->
  forall i points n, (i < List.length points \/ i = 0)%nat ->
  exists shuffled,
    fst (shuffleFrom i points draws n) = Some shuffled /\ Permutation shuffled points.
Proof.
  intros Hd. induction i as [|k IH]; intros points n Hi.
  - exists points. split; reflexivity.
  - destruct Hi as [Hi|Hi]; [|discriminate].
    cbn [shuffleFrom]. unfold bind, Math_random.
    destruct (floorIndex_range (draws n) (S k + 1) (Hd n) ltac:(lia)) as [Hj0 Hj1].
    destruct (Fireworks.floorIndex (draws n * INR (S k + 1)) <? 0)%Z eqn:Hneg;
      [apply Z.ltb_lt in Hneg; lia|].
    set (j := Z.to_nat (Fireworks.floorIndex (draws n * INR (S k + 1)))).
    assert (Hj : (j < List.length points)%nat) by (unfold j; lia).
    unfold swap.
    destruct (nth_error points (S k)) as [a|] eqn:Ea;
      [|apply nth_error_None in Ea; lia].
    destruct (nth_error points j) as [b|] eqn:Eb;
      [|apply nth_error_None in Eb; lia].
    pose proof (swap_permutation (S k) j points a b Ea Eb) as Hp.
    destruct (IH (assign j a (assign (S k) b points)) (S n)) as (shuffled & Hs & Hq).
    { left. rewrite (Permutation_length Hp). lia. }
    exists shuffled. split; [exact Hs|]. now rewrite Hq.
Qed.

(** *** The scan *)

Lemma scanRow_spec imageData offsetY y : forall remaining x points,
  (x + 4 * remaining <= 1024)%nat -> (y <= 508)%nat ->
  Forall (onCanvas offsetY) points ->
  Forall (onCanvas offsetY) (scanRow imageData offsetY 0.4 y remaining x points)
  /\ (List.length (scanRow imageData offsetY 0.4 y remaining x points)
      <= List.length points + remaining)%nat.
Proof.
  induction remaining as [|k IH]; intros x points Hx Hy Hp.
  - simpl. split; [exact Hp|lia].
  - cbn [scanRow].
    destruct (128 <? imageData ((y * 1024 + x) * 4 + 3))%nat.
    + destruct (IH (x + 4)%nat
                  (points ++ [mk ((INR x - 512) * 0.4) ((256 - INR y) * 0.4 + offsetY) 25]))
        as [H1 H2]; [lia|exact Hy| |].
      * apply Forall_app. split; [exact Hp|]. constructor; [|constructor].
        assert (Hx' : (x <= 1020)%nat) by lia.
        apply le_INR in Hx', Hy.
        rewrite (INR_IZR_INZ 1020) in Hx'. rewrite (INR_IZR_INZ 508) in Hy.
        simpl Z.of_nat in Hx', Hy.
        pose proof (pos_INR x). pose proof (pos_INR y).
        unfold onCanvas, margin; simpl. repeat split; lra.
      * split; [exact H1|]. rewrite length_app in H2. simpl in H2. lia.
    + destruct (IH (x + 4)%nat points) as [H1 H2]; [lia|exact Hy|exact Hp|].
      split; [exact H1|lia].
Qed.

Lemma scanRows_spec imageData offsetY columns : forall remaining y points,
  (4 * columns <= 1024)%nat -> (y + 4 * remaining <= 512)%nat ->
  Forall (onCanvas offsetY) points ->
  Forall (onCanvas offsetY) (scanRows imageData offsetY 0.4 columns remaining y points)
  /\ (List.length (scanRows imageData offsetY 0.4 columns remaining y points)
      <= List.length points + columns * remaining)%nat.
Proof.
  induction remaining as [|k IH]; intros y points Hc Hy Hp.
  - split; [exact Hp|]. cbn [scanRows]. lia.
  - cbn [scanRows].
    destruct (scanRow_spec imageData offsetY y columns 0 points) as [H1 H2];
      [lia|lia|exact Hp|].
    destruct (IH (y + 4)%nat (scanRow imageData offsetY 0.4 y columns 0 points))
      as [H3 H4]; [exact Hc|lia|exact H1|].
    split; [exact H3|lia].
Qed.

Lemma scan_spec imageData offsetY :
  Forall (onCanvas offsetY) (scan imageData offsetY 0.4)
  /\ (List.length (scan imageData offsetY 0.4) <= 256 * 128)%nat.
Proof.
  unfold scan.
  destruct (scanRows_spec imageData offsetY 256 128 0 [] ltac:(lia) ltac:(lia)
              (Forall_nil _)) as [Hc Hl].
  split; [exact Hc|exact Hl].
Qed.

Lemma scanPixels_spec imageData offsetY draws n :
  unitDraws draws ->
  exists points,
    fst (scanPixels imageData offsetY 0.4 draws n) = Some points
    /\ Permutation points (scan imageData offsetY 0.4)
    /\ Forall (onCanvas offsetY) points
    /\ (List.length points <= 256 * 128)%nat.
Proof.
  intros Hd. unfold scanPixels.
  destruct (scan_spec imageData offsetY) as [Hc Hl].
  generalize dependent (scan imageData offsetY 0.4). intros scanned Hc Hl.
  destruct (shuffleFrom_permutation draws Hd
              (List.length scanned - 1)
              scanned n) as (points & Hs & Hp).
  { destruct scanned; cbn [List.length]; [now right|left; lia]. }
  exists points. split; [exact Hs|]. split; [exact Hp|]. split.
  - apply Forall_forall. intros q Hq.
    apply (proj1 (Forall_forall _ _) Hc). now apply (Permutation_in _ Hp).
  - rewrite (Permutation_length Hp). exact Hl.
Qed.

Lemma runScan_spec goldData silverData draws n :
  unitDraws draws ->
  exists clouds,
    fst (runScan goldData silverData draws n) = Some clouds
    /\ Permutation (Particles.tt_gold clouds) (scan goldData 15 0.4)
    /\ Permutation (Particles.tt_silver clouds) (scan silverData (-55) 0.4)
    /\ Forall (onCanvas 15) (Particles.tt_gold clouds)
    /\ Forall (onCanvas (-55)) (Particles.tt_silver clouds)
    /\ (List.length (Particles.tt_gold clouds) <= 256 * 128)%nat
    /\ (List.length (Particles.tt_silver clouds) <= 256 * 128)%nat.
Proof.
  intros Hd. unfold runScan, bind, ret.
  destruct (scanPixels_spec goldData 15 draws n Hd) as (g & Hg & Hgp & Hgc & Hgl).
  destruct (scanPixels goldData 15 0.4 draws n) as [gold n1]. simpl in Hg. subst gold.
  destruct (scanPixels_spec silverData (-55) draws n1 Hd) as (sv & Hs & Hsp & Hsc & Hsl).
  destruct (scanPixels silverData (-55) 0.4 draws n1) as [silver n2]. simpl in Hs. subst silver.
  eexists. split; [reflexivity|]. simpl.
  exact (conj Hgp (conj Hsp (conj Hgc (conj Hsc (conj Hgl Hsl))))).
Qed.

(** X19.  The glyph clouds are the scanned pixels, all of them and each
    once.  With draws in [[0, 1)], [runScan] stores two clouds; each is a
    permutation of the points scanned from its text (the shuffle loses none
    and repeats none), has at most 256 times 128 points, and lies in the
    plane [z = 25] and, with the coordinates taken over the reals and to
    within a millionth, inside the rectangle the canvas maps to: [x]
    between -204.8 and 203.2, and [y] between 100.8 under and 102.4 over
    the text's offset, 15 for the gold cloud and -55 for the silver one,
    each bound taken with a margin of a millionth ([onCanvas]). *)
Theorem glyph_clouds_are_the_scanned_points goldData silverData draws n :
  unitDraws draws ->
  exists clouds,
    fst (runScan goldData silverData draws n) = Some clouds
    /\ Permutation (Particles.tt_gold clouds) (scan goldData 15 0.4)
    /\ Permutation (Particles.tt_silver clouds) (scan silverData (-55) 0.4)
    /\ Forall (onCanvas 15) (Particles.tt_gold clouds)
    /\ Forall (onCanvas (-55)) (Particles.tt_silver clouds)
    /\ (List.length (Particles.tt_gold clouds) <= 256 * 128)%nat
    /\ (List.length (Particles.tt_silver clouds) <= 256 * 128)%nat.
Proof.
  intros Hd.
  destruct (runScan_spec goldData silverData draws n Hd)
    as (clouds & Hr & Hgp & Hsp & Hgc & Hsc & Hgl & Hsl).
  exists clouds. split; [exact Hr|].
  exact (conj Hgp (conj Hsp (conj Hgc (conj Hsc (conj Hgl Hsl))))).
Qed.

Lemma glyph_clouds_are_the_scanned_points_witness :
  unitDraws Samples.halves
  /\ exists clouds,
       fst (runScan Samples.onePixel Samples.onePixel Samples.halves 0%nat) = Some clouds
       /\ Permutation (Particles.tt_gold clouds) (scan Samples.onePixel 15 0.4)
       /\ Forall (onCanvas 15) (Particles.tt_gold clouds).
Proof.
  destruct (glyph_clouds_are_the_scanned_points Samples.onePixel Samples.onePixel
              Samples.halves 0%nat halves_unit) as (clouds & H1 & H2 & _ & H4 & _).
  exact (conj halves_unit (ex_intro _ clouds (conj H1 (conj H2 H4)))).
Defined.
End TextScanFacts.

(** ** The initialisation effect *)

Module InitFacts.
Import Vec3 Creation Init CreationFacts.
Local Open Scope R_scope.

Lemma tyndallLoop_spec draws :
  unitDraws draws ->
  forall remaining indices n,
  exists added,
    fst (tyndallLoop remaining indices draws n) = indices ++ added
    /\ List.length added = remaining
    /\ Forall (fun idx => (0 <= idx < Z.of_nat goldCount)%Z) added.
Proof.
  intros Hd. induction remaining as [|k IH]; intros indices n.
  - exists []. simpl. rewrite app_nil_r. auto.
  - cbn [tyndallLoop]. unfold bind at 1, Math_random.
    destruct (IH (indices ++ [Fireworks.floorIndex (draws n * INR goldCount)]) (S n))
      as (added & He & Hl & Hf).
    exists (Fireworks.floorIndex (draws n * INR goldCount) :: added).
    rewrite He, <- app_assoc. cbn [app List.length].
    split; [reflexivity|]. split; [now rewrite Hl|].
    constructor; [|exact Hf].
    apply TextScanFacts.floorIndex_range; [apply Hd|unfold goldCount; lia].
Qed.

Lemma createDust_length dust draws n :
  List.length (fst (Dust.createDust dust draws n)) = (List.length dust + Dust.dustCount)%nat.
Proof.
  unfold Dust.createDust.
  destruct (DustFacts.createDustLoop_spec (fun _ => True) draws (fun _ => I)
              Dust.dustCount dust n) as (items & He & Hl & _).
  rewrite He, length_app, Hl. reflexivity.
Qed.

(** X11.  Initialisation replaces, it never piles up.  Whatever the arrays
    held before, after the initialisation effect on a container of positive
    size, with draws in [[0, 1)], each particle array holds exactly the
    number of entries [CONFIG] gives (800 trunk, 1500 gold, 1500 silver,
    500 gem, 500 emerald, 3000 grass), there are 600 motes of dust and no
    fireworks or photo cards, and each of the 120 beam indices names a gold
    particle, so that the guard on a beam in [animate] always holds; the
    glyph clouds are there if the canvas gave a context.  On a container of
    no width or height the effect leaves all these arrays empty. *)
Theorem initialisation_replaces_the_arrays width height ctx goldData silverData s draws n :
  unitDraws draws ->
  let s' := fst (initEffect (Some (width, height)) ctx goldData silverData s draws n) in
  ((0 < width)%nat -> (0 < height)%nat ->
   List.length (Particles.ld_trunk (logic s')) = 800%nat
   /\ List.length (Particles.ld_gold (logic s')) = 1500%nat
   /\ List.length (Particles.ld_silver (logic s')) = 1500%nat
   /\ List.length (Particles.ld_gem (logic s')) = 500%nat
   /\ List.length (Particles.ld_emerald (logic s')) = 500%nat
   /\ List.length (Particles.ld_grass (logic s')) = 3000%nat
   /\ List.length (dust s') = 600%nat
   /\ List.length (tyndallIndices s') = 120%nat
   /\ Forall (beamAttached (Particles.ld_gold (logic s'))) (tyndallIndices s')
   /\ fireworks s' = [] /\ photoMeshes s' = []
   /\ (ctx = true -> Particles.ld_textTargets (logic s') <> None))
  /\ (width = 0%nat \/ height = 0%nat ->
      logic s' = emptyLogic /\ dust s' = [] /\ tyndallIndices s' = []
      /\ fireworks s' = [] /\ photoMeshes s' = []).
Proof.
  intros Hd. cbv zeta. split.
  - intros Hw Hh. unfold initEffect.
    destruct (width =? 0)%nat eqn:Ew; [apply Nat.eqb_eq in Ew; lia|].
    destruct (height =? 0)%nat eqn:Eh; [apply Nat.eqb_eq in Eh; lia|].
    cbn [orb logic dust fireworks photoMeshes]. unfold bind.
    pose proof (createMaterialsAndMeshes_counts draws n) as Hcounts.
    destruct (createMaterialsAndMeshes emptyLogic draws n) as [data n1].
    cbn [fst] in Hcounts. destruct Hcounts as (Ct & Cg & Cs & Cm & Ce & Cr).
    pose proof (createDust_length [] draws n1) as Hdust.
    destruct (Dust.createDust [] draws n1) as [motes n2]. cbn [fst] in Hdust.
    destruct (tyndallLoop_spec draws Hd 120 [] n2) as (indices & Hi & Hil & Hif).
    unfold createTyndallSystem.
    destruct (tyndallLoop 120 [] draws n2) as [indices' n3]. simpl in Hi. subst indices'.
    destruct (createStarField draws n3) as [field n4].
    assert (Htext : ctx = true ->
                    fst (createTextTargets ctx goldData silverData draws n4) <> None).
    { intros ->. unfold createTextTargets.
      destruct (TextScanFacts.runScan_spec goldData silverData draws n4 Hd)
        as (clouds & Hr & _).
      rewrite Hr. discriminate. }
    destruct (createTextTargets ctx goldData silverData draws n4) as [clouds n5].
    cbn [fst ret logic dust tyndallIndices fireworks photoMeshes
         Particles.ld_trunk Particles.ld_gold Particles.ld_silver Particles.ld_gem
         Particles.ld_emerald Particles.ld_grass Particles.ld_textTargets] in *.
    refine (conj Ct (conj Cg (conj Cs (conj Cm (conj Ce (conj Cr (conj Hdust
              (conj Hil (conj _ (conj eq_refl (conj eq_refl Htext))))))))))).
    unfold beamAttached. rewrite Cg. exact Hif.
  - intros Hz. unfold initEffect.
    assert (E : ((width =? 0)%nat || (height =? 0)%nat) = true).
    { destruct Hz as [-> | ->]; [reflexivity|]. apply orb_true_r. }
    rewrite E. cbn [fst ret logic dust tyndallIndices fireworks photoMeshes].
    repeat split.
Qed.

Lemma initialisation_replaces_the_arrays_witness :
  let s := {| logic := emptyLogic; dust := [Samples.sampleMote]; tyndallIndices := [7%Z];
              fireworks := []; stars := []; photoMeshes := [Samples.sampleCard] |} in
  let s' := fst (initEffect (Some (800, 600)%nat) true Samples.onePixel Samples.onePixel s
                   Samples.halves 0%nat) in
  unitDraws Samples.halves
  /\ List.length (Particles.ld_gold (logic s')) = 1500%nat
  /\ List.length (dust s') = 600%nat
  /\ Forall (beamAttached (Particles.ld_gold (logic s'))) (tyndallIndices s')
  /\ photoMeshes s' = [].
Proof.
  intros s s'.
  pose proof (initialisation_replaces_the_arrays 800 600 true Samples.onePixel
                Samples.onePixel s Samples.halves 0%nat halves_unit) as [H _].
  destruct (H ltac:(lia) ltac:(lia)) as (_ & Hg & _ & _ & _ & _ & Hd & _ & Hb & _ & Hp & _).
  exact (conj halves_unit (conj Hg (conj Hd (conj Hb Hp)))).
Defined.
End InitFacts.

(** ** The camera distance, the group's rotation, the ribbon *)

Module CameraFacts.
Import Vec3 Creation Camera CreationFacts.
Local Open Scope R_scope.



Lemma clampedTarget_range aspect : 120 <= clampedTarget aspect <= 3000.
Proof.
  unfold clampedTarget. cbv zeta. split.
  - apply Rmin_glb; [apply Rmax_r|lra].
  - apply Rmin_r.
Qed.




Lemma half_angle_positive : 0 < tan (fov * PI / 180 / 2).
Proof.
  pose proof PI_RGT_0 as Hpi. unfold fov.
  apply tan_gt_0; lra.
Qed.

(** X21.  The adaptive zoom frames the text, over the reals and to within a
    millionth.  For a container of positive aspect ratio the distance the
    epic sequence steers the camera to lies in [[120, 3000]], and unless it
    was cut at 3000 a view of vertical angle 50 degrees shows, at that
    distance, 220 units of height and 450 of width or more, each less a
    margin of a millionth: twice the distance times the tangent of half the
    angle, and that times the aspect ratio. *)
Theorem adaptive_zoom_frames_the_text aspect :
  0 < aspect ->
  let d := clampedTarget aspect in
  let halfAngle := fov * PI / 180 / 2 in
  120 <= d <= 3000
  /\ (d < 3000 ->
      220 - margin <= 2 * d * tan halfAngle
      /\ 450 - margin <= 2 * d * tan halfAngle * aspect).
Proof.
  intros Ha. cbv zeta. split; [apply clampedTarget_range|]. unfold margin.
  pose proof half_angle_positive as Ht.
  unfold clampedTarget. cbv zeta.
  set (t := tan (fov * PI / 180 / 2)) in *.
  set (dh := 220 / (2 * t)). set (dw := 450 / (2 * aspect * t)).
  assert (Hh : 2 * dh * t = 220) by (unfold dh; field; lra).
  assert (Hw : 2 * dw * t * aspect = 450) by (unfold dw; field; lra).
  intros Hcut.
  assert (Hd : Rmin (Rmax (Rmax dh dw) 120) 3000 = Rmax (Rmax dh dw) 120).
  { apply Rmin_left. unfold Rmin in Hcut.
    destruct (Rle_dec (Rmax (Rmax dh dw) 120) 3000); lra. }
  rewrite Hd.
  assert (H1 : dh <= Rmax (Rmax dh dw) 120).
  { apply Rle_trans with (Rmax dh dw); apply Rmax_l. }
  assert (H2 : dw <= Rmax (Rmax dh dw) 120).
  { apply Rle_trans with (Rmax dh dw); [apply Rmax_r|apply Rmax_l]. }
  set (m := Rmax (Rmax dh dw) 120) in *.
  assert (P1 : 0 <= (m - dh) * t) by (apply Rmult_le_pos; lra).
  assert (P2 : 0 <= (m - dw) * t * aspect)
    by (apply Rmult_le_pos; [apply Rmult_le_pos|]; lra).
  split; lra.
Qed.

Lemma adaptive_zoom_frames_the_text_witness :
  0 < 0.5 /\ 120 <= clampedTarget 0.5 <= 3000.
Proof.
  assert (Ha : 0 < 0.5) by lra.
  exact (conj Ha (proj1 (adaptive_zoom_frames_the_text 0.5 Ha))).
Defined.

(** *** The alignment of the group *)

Lemma epicAlign_contracts rotation :
  Rabs (x (epicAlign rotation)) = 0.95 * Rabs (x rotation)
  /\ Rabs (y (epicAlign rotation)) <= 0.95 * Rabs (y rotation)
  /\ Rabs (z (epicAlign rotation)) = 0.95 * Rabs (z rotation).
Proof.
  pose proof PI_RGT_0 as Hpi.
  assert (Hl : forall v, Rabs (MathUtils_lerp v 0 0.05) = 0.95 * Rabs v).
  { intros v. unfold MathUtils_lerp.
    replace ((1 - 0.05) * v + 0.05 * 0) with (0.95 * v) by lra.
    rewrite Rabs_mult, (Rabs_pos_eq 0.95); lra. }
  unfold epicAlign. cbv zeta. cbn [x y z]. rewrite !Hl.
  split; [reflexivity|]. split; [|reflexivity].
  apply Rmult_le_compat_l; [lra|].
  destruct (Rlt_dec PI (y rotation)) as [H1|H1];
    match goal with |- context [Rlt_dec ?a ?b] => destruct (Rlt_dec a b) as [H2|H2] end;
    unfold Rabs; repeat destruct (Rcase_abs _); lra.
Qed.

Lemma reach_nonneg t s : 0 <= reach t s.
Proof.
  destruct t; cbn [reach]; try lra;
    match goal with |- context [Rabs ?v] => pose proof (Rabs_pos v) end; lra.
Qed.

(** A write other than the alignment leaves the other two angles alone. *)
Lemma turn_reach t s :
  t <> EpicAlign ->
  x (group_rotation (turn t s)) = x (group_rotation s)
  /\ z (group_rotation (turn t s)) = z (group_rotation s)
  /\ Rabs (y (group_rotation (turn t s))) <= Rabs (y (group_rotation s)) + reach t s.
Proof.
  intros Ht. destruct s as [[x0 y0 z0] v]. destruct t; try (now contradiction Ht);
    cbn [turn reach group_rotation rotationVelocity]; cbv zeta.
  - destruct (Rlt_dec 0.05 (Rabs (palmX - 0.5)));
      cbn [group_rotation turnBy x y z]; (split; [reflexivity|]); (split; [reflexivity|]);
      unfold Rabs; repeat destruct (Rcase_abs _); lra.
  - cbn [group_rotation turnBy x y z]. split; [reflexivity|]. split; [reflexivity|].
    unfold Rabs; repeat destruct (Rcase_abs _); lra.
  - destruct (AppState_eqb state ZOOM || AppState_eqb state SCATTER).
    + cbn [group_rotation x y z]. split; [reflexivity|]. split; [reflexivity|].
      pose proof (Rabs_pos v). lra.
    + destruct (rotationEnabled && (if Rlt_dec (Rabs (v * 0.95)) 0.0005 then true else false)
                && AppState_eqb state TREE);
        cbn [group_rotation turnBy x y z]; (split; [reflexivity|]); (split; [reflexivity|]);
        unfold Rabs; repeat destruct (Rcase_abs _); lra.
  - cbn [group_rotation x y z]. split; [reflexivity|]. split; [reflexivity|]. lra.
  - destruct (Rlt_dec 1 (Rabs deltaX));
      cbn [group_rotation turnBy x y z]; (split; [reflexivity|]); (split; [reflexivity|]);
      unfold Rabs; repeat destruct (Rcase_abs _); lra.
  - cbn [group_rotation turnBy x y z]. split; [reflexivity|]. split; [reflexivity|].
    unfold Rabs; repeat destruct (Rcase_abs _); lra.
Qed.

Lemma calm_other D acc t rest s :
  t <> EpicAlign ->
  calm D acc (t :: rest) s = calm D (acc + reach t s) rest (turn t s).
Proof. intros Ht. destruct t; try reflexivity. now contradiction Ht. Qed.

Lemma aligns_other t rest : t <> EpicAlign -> aligns (t :: rest) = aligns rest.
Proof. intros Ht. destruct t; try reflexivity. now contradiction Ht. Qed.

Lemma Turn_align_dec (t : Turn) : {t = EpicAlign} + {t <> EpicAlign}.
Proof. destruct t; (now left) || (right; discriminate). Qed.

Lemma calm_nonneg D : forall ts s acc, 0 <= acc -> calm D acc ts s -> 0 <= D.
Proof.
  induction ts as [|t rest IH]; intros s acc Hacc Hc.
  - simpl in Hc. lra.
  - destruct (Turn_align_dec t) as [->|Ht].
    + destruct Hc as [Hc _]. lra.
    + rewrite (calm_other _ _ _ _ _ Ht) in Hc.
      apply (IH _ _ (Rplus_le_le_0_compat _ _ Hacc (reach_nonneg t s)) Hc).
Qed.

(** The angles about the first and third axis are written by the alignment
    alone. *)
Lemma turns_side : forall ts s,
  Rabs (x (group_rotation (turns ts s))) = 0.95 ^ aligns ts * Rabs (x (group_rotation s))
  /\ Rabs (z (group_rotation (turns ts s))) = 0.95 ^ aligns ts * Rabs (z (group_rotation s)).
Proof.
  induction ts as [|t rest IH]; intros s.
  - simpl. lra.
  - cbn [turns]. destruct (IH (turn t s)) as [Hx Hz]. rewrite Hx, Hz.
    destruct (Turn_align_dec t) as [->|Ht].
    + cbn [turn group_rotation aligns].
      destruct (epicAlign_contracts (group_rotation s)) as (Cx & _ & Cz).
      rewrite Cx, Cz. change (0.95 ^ S (aligns rest)) with (0.95 * 0.95 ^ aligns rest).
      split; ring.
    + rewrite (aligns_other _ _ Ht).
      destruct (turn_reach t s Ht) as (Ex & Ez & _). now rewrite Ex, Ez.
Qed.

(** The angle about the vertical: what the other writes add is worn down by
    the alignments that follow. *)
Lemma turns_bound D : forall ts s acc Y,
  0 <= acc -> 0 <= Y ->
  Rabs (y (group_rotation s)) <= Y + acc ->
  calm D acc ts s ->
  Rabs (y (group_rotation (turns ts s)))
  <= 0.95 ^ aligns ts * Y + 19 * (1 - 0.95 ^ aligns ts) * D + D.
Proof.
  induction ts as [|t rest IH]; intros s acc Y Hacc HY Hs Hc.
  - simpl in *. lra.
  - cbn [turns]. destruct (Turn_align_dec t) as [->|Ht].
    + destruct Hc as [Hacc' Hc].
      destruct (epicAlign_contracts (group_rotation s)) as (_ & Cy & _).
      assert (Hs' : Rabs (y (group_rotation (turn EpicAlign s))) <= 0.95 * (Y + acc) + 0)
        by (cbn [turn group_rotation]; lra).
      pose proof (IH (turn EpicAlign s) 0 (0.95 * (Y + acc)) (Rle_refl 0)
                    ltac:(lra) Hs' Hc) as Hb.
      cbn [aligns]. change (0.95 ^ S (aligns rest)) with (0.95 * 0.95 ^ aligns rest).
      assert (Hp : 0 <= 0.95 ^ aligns rest) by (apply pow_le; lra).
      set (P := 0.95 ^ aligns rest) in *.
      assert (Hq : 0 <= P * (D - acc)) by (apply Rmult_le_pos; lra).
      nra.
    + rewrite (calm_other _ _ _ _ _ Ht) in Hc. rewrite (aligns_other _ _ Ht).
      destruct (turn_reach t s Ht) as (_ & _ & Hy).
      pose proof (reach_nonneg t s) as Hr.
      apply (IH (turn t s) (acc + reach t s) Y); [lra|exact HY|lra|exact Hc].
Qed.

(** X22.  The epic sequence turns the group to face the camera, whatever
    else turns it; over the reals, and to within a millionth.  The rotation
    of the main group is written by a frame of the epic sequence, which
    eases the three angles to 0 by 0.05 (the angle about the vertical
    wrapped by a full turn first when beyond half a turn), and about the
    vertical also by the fist gesture, a frame in SCATTER mode, the inertia
    of touch mode, a one-finger move and a two-finger twist.  After any
    sequence of these writes with [n] frames of the epic sequence among
    them, the angles about the other two axes are at most 0.95 to the [n]
    times their initial size; and if between two alignments the other
    writes add no more than [D] in all to the angle about the vertical
    ([calm]), that angle is at most 0.95 to the [n] times its initial size
    plus 20 times [D].  Each bound is taken with a relative and an absolute
    margin of a millionth. *)
Theorem epic_alignment_outlasts_the_other_turns D ts s :
  calm D 0 ts s ->
  let s' := turns ts s in
  let n := aligns ts in
  Rabs (x (group_rotation s'))
  <= 0.95 ^ n * Rabs (x (group_rotation s)) * (1 + margin) + margin
  /\ Rabs (y (group_rotation s'))
     <= (0.95 ^ n * Rabs (y (group_rotation s)) + 20 * D) * (1 + margin) + margin
  /\ Rabs (z (group_rotation s'))
     <= 0.95 ^ n * Rabs (z (group_rotation s)) * (1 + margin) + margin.
Proof.
  intros Hc. cbv zeta.
  pose proof (calm_nonneg D ts s 0 (Rle_refl 0) Hc) as HD.
  destruct (turns_side ts s) as [Hx Hz].
  pose proof (turns_bound D ts s 0 (Rabs (y (group_rotation s))) (Rle_refl 0)
                (Rabs_pos _) ltac:(lra) Hc) as Hy.
  assert (Hp : 0 <= 0.95 ^ aligns ts) by (apply pow_le; lra).
  set (P := 0.95 ^ aligns ts) in *.
  pose proof (Rabs_pos (x (group_rotation s))) as Ax.
  pose proof (Rabs_pos (y (group_rotation s))) as Ay.
  pose proof (Rabs_pos (z (group_rotation s))) as Az.
  assert (Bx : 0 <= P * Rabs (x (group_rotation s))) by (apply Rmult_le_pos; lra).
  assert (By : 0 <= P * Rabs (y (group_rotation s))) by (apply Rmult_le_pos; lra).
  assert (Bz : 0 <= P * Rabs (z (group_rotation s))) by (apply Rmult_le_pos; lra).
  assert (Bd : 0 <= P * D) by (apply Rmult_le_pos; lra).
  rewrite Hx, Hz. unfold margin.
  refine (conj _ (conj _ _)); nra.
Qed.

Lemma epic_alignment_outlasts_the_other_turns_witness :
  let ts := [ScatterTurn; EpicAlign; FistSpin 0.9; EpicAlign] in
  let s := {| group_rotation := Vec3.mk 0.3 2 0; rotationVelocity := 0 |} in
  calm 0.1 0 ts s
  /\ Rabs (y (group_rotation (turns ts s)))
     <= (0.95 ^ aligns ts * Rabs (y (group_rotation s)) + 20 * 0.1) * (1 + margin) + margin.
Proof.
  intros ts s.
  assert (Hc : calm 0.1 0 ts s).
  { unfold ts. cbn [calm reach].
    assert (Hf : Rabs (0.9 - 0.5) = 0.4) by (rewrite Rabs_pos_eq; lra).
    rewrite Hf. lra. }
  exact (conj Hc (proj1 (proj2 (epic_alignment_outlasts_the_other_turns 0.1 ts s Hc)))).
Defined.

(** *** The ribbon *)

Lemma circle_axisDistance' r h theta :
  axisDistance (mk (cos theta * r) h (sin theta * r)) = Rabs r.
Proof.
  rewrite <- (circle_axisDistance r h theta). unfold axisDistance; simpl.
  f_equal. ring.
Qed.

(** X23.  The ribbon winds around the tree, not through it; over the reals,
    and to within a millionth.  Each of the 301 control points of the
    spiral lies at a height between -42.5 and 42.5, within 35 of the axis,
    and 3 or more beyond the radius of the cone of ornaments at its height,
    each bound taken with a margin of a millionth. *)
Theorem ribbon_winds_around_the_tree :
  List.length spiralPoints = 301%nat
  /\ Forall (fun p => -42.5 - margin <= y p <= 42.5 + margin
                       /\ coneRadius (y p) + 3 - margin <= axisDistance p <= 35 + margin)
       spiralPoints.
Proof.
  split; [unfold spiralPoints; now rewrite length_map, length_seq|].
  unfold spiralPoints. apply Forall_map, Forall_forall. intros i Hi.
  apply in_seq in Hi.
  assert (Ht : 0 <= INR i / 300 <= 1).
  { assert (H0 := pos_INR i).
    assert (H1 : INR i <= INR 300) by (apply le_INR; lia).
    rewrite (INR_IZR_INZ 300) in H1. simpl Z.of_nat in H1. lra. }
  unfold spiralPoint. cbv zeta. cbn [y]. rewrite circle_axisDistance'.
  unfold coneRadius, treeHeight, maxRadius, margin.
  set (t := INR i / 300) in *.
  split; [lra|].
  unfold Rmax. destruct (Rle_dec 0 _); rewrite Rabs_pos_eq; lra.
Qed.
End CameraFacts.
